(** * cfdev: the remote provisioning session and the service wrapper client

    A shallow embedding of [provision/director.go] (the sticky-error SSH
    session, the inline single-file upload, the dial loop and the
    [DeployBosh] workflow) and of the guards of
    [pkg/servicew/client/client.go].

    The Go code talks to the outside world all the time: the local file
    system, an SSH connection, child processes.  Every such call is a
    primitive of a small state monad over a _trace_: the call appends one
    event (the call and its arguments) to the trace, and its outcome is read
    from an environment [Env], an oracle that may depend on everything that
    happened before.  A theorem that quantifies over [Env] therefore holds
    for every behaviour of the outside world, and "no side effect" reads
    "the trace did not grow". *)

From Stdlib Require Import List String Ascii Bool Arith ZArith Lia.
From Stdlib.Strings Require Import Byte.
From Stdlib Require Import DecimalString.
Import ListNotations.
Local Open Scope string_scope.

(** ** Go values *)

(** [[]byte] *)
Definition bytes := list byte.

(** The conversion [[]byte(s)]. *)
Definition bytes_of_string (s : string) : bytes := list_byte_of_string s.

(** Go's [error] values: a message, and whether [os.IsNotExist] recognises
    the error.  [nil] is [None] in an [option error]. *)
Inductive error : Type :=
| ErrNotExist (msg : string)
| ErrorString (msg : string).

Definition Error_text (e : error) : string :=
  match e with
  | ErrNotExist msg => msg
  | ErrorString msg => msg
  end.

Definition os_IsNotExist (err : option error) : bool :=
  match err with
  | Some (ErrNotExist _) => true
  | _ => false
  end.

(** The verb [%s] applied to an [error] operand, which may be [nil]. *)
Definition fmt_s (err : option error) : string :=
  match err with
  | Some e => Error_text e
  | None => "%!s(<nil>)"
  end.

Definition fmt_Errorf (text : string) : error := ErrorString text.

(** [time.Duration], in nanoseconds. *)
Definition Duration := Z.
Definition Second : Duration := 1000000000%Z.

(** An [io.Writer] that is an open local file. *)
Inductive Writer : Type :=
| FileWriter (path : string).

Inductive Signer : Type :=
| SignerOf (key : bytes).

Inductive Client : Type :=
| ClientConn (id : nat).

(** [ssh.ClientConfig]; the host key callback of the source accepts every
    key and is not represented. *)
Record ClientConfig : Type := {
  User : string;
  Auth : list Signer;
  Timeout : Duration
}.

(** The fields of [config.Config] that the code reads. *)
Record Config : Type := {
  StateBosh : string;
  StateDir : string;
  LogDir : string
}.

(** ** Events: the calls that leave the program *)

Inductive Event : Type :=
| EvDriverIP
| EvCreate (path : string)
| EvFileClose (path : string)
| EvReadFile (path : string)
| EvWriteFile (path : string) (data : bytes) (perm : Z)
| EvStat (path : string)
| EvRemoveAll (path : string)
| EvDial (network addr : string) (config : ClientConfig)
| EvClientClose (c : Client)
| EvNewSession (c : Client)
| EvSessionClose
| EvSessionRun (command : string) (out err : Writer)
| EvStdinPipe
| EvFprintln (operands : list string)
| EvCopy (payload : bytes)
| EvPipeClose
| EvPrint (text : string)
| EvSleep (d : Duration)
| EvBoshOutput (args : list string)
| EvExec (path : string) (args : list string).

Definition Trace := list Event.

(** ** The environment *)

(** What the program cannot decide by itself.

    - [GOOS] is [runtime.GOOS]; [StatusRunning] is [program.StatusRunning],
      a constant of a package that is not among the sources.
    - [filepath_Join], [filepath_Dir] and [strings_TrimSpace] are the Go
      library functions; no property below depends on what they compute.
    - [ssh_ParsePrivateKey] is a pure function of the key.
    - A field [X_result] gives the outcome of the call [X] from the history
      at the time of the call and the arguments; [None] in an
      [option error] is the [nil] error.
    - [ticks_before_timeout] is the scheduling of the [select] in
      [waitForSSH]: how many times the ticker case is taken before the
      timeout case is.  The timeout channel becomes ready after a finite
      time, so this number is finite. *)
Record Env : Type := {
  GOOS : string;
  StatusRunning : string;
  filepath_Join : string -> string -> string;
  filepath_Dir : string -> string;
  strings_TrimSpace : string -> string;
  ssh_ParsePrivateKey : bytes -> Signer + error;
  IP_result : Trace -> Config -> string + error;
  Create_result : Trace -> string -> option error;
  Stat_result : Trace -> string -> option error;
  RemoveAll_result : Trace -> string -> option error;
  ReadFile_result : Trace -> string -> bytes + error;
  WriteFile_result : Trace -> string -> bytes -> option error;
  Dial_result : Trace -> string -> ClientConfig -> Client + error;
  ticks_before_timeout : Trace -> Duration -> nat;
  NewSession_result : Trace -> Client -> option error;
  Run_result : Trace -> string -> option error;
  Fprintln_result : Trace -> list string -> option error;
  Copy_result : Trace -> bytes -> option error;
  BoshOutput_result : Trace -> list string -> bytes * option error;
  Exec_result : Trace -> string -> list string -> bytes * option error
}.

(** ** The trace monad *)

Definition M (A : Type) : Type := Trace -> A * Trace.

Definition ret {A : Type} (a : A) : M A := fun t => (a, t).

Definition bind {A B : Type} (m : M A) (k : A -> M B) : M B :=
  fun t => let (a, t') := m t in k a t'.

Notation "x <- m ;; k" := (bind m (fun x => k))
  (at level 61, m at next level, right associativity).
Notation "m ;;; k" := (bind m (fun _ => k))
  (at level 61, right associativity).

(** A call: its outcome is decided on the history so far, then the call is
    recorded. *)
Definition call {A : Type} (e : Event) (outcome : Trace -> A) : M A :=
  fun t => (outcome t, (t ++ [e])%list).

(** ** The Go library functions the code relies on *)

Module GoLib.

(** Decimal rendering of an integer operand ([%v] on an [int64]). *)
Definition itoa (z : Z) : string := NilZero.string_of_int (Z.to_int z).

Definition newline : string := String "010"%char EmptyString.
Definition NUL : string := String "000"%char EmptyString.

(** What [fmt.Fprintln] writes: the operands separated by single spaces,
    then a newline. *)
Fixpoint join_spaces (operands : list string) : string :=
  match operands with
  | [] => EmptyString
  | [x] => x
  | x :: rest => x ++ " " ++ join_spaces rest
  end.

Definition Sprintln (operands : list string) : string :=
  join_spaces operands ++ newline.

(** [filepath.Base] with the separator [/]: strip the trailing separators,
    keep what follows the last separator; [.] for the empty path and [/] for
    a path of separators only. *)
Definition is_sep (c : ascii) : bool := Ascii.eqb c "/".

Fixpoint has_sep (s : string) : bool :=
  match s with
  | EmptyString => false
  | String c s' => is_sep c || has_sep s'
  end.

Fixpoint strip_trailing_seps (s : string) : string :=
  match s with
  | EmptyString => EmptyString
  | String c s' =>
      match strip_trailing_seps s' with
      | EmptyString => if is_sep c then EmptyString else String c EmptyString
      | r => String c r
      end
  end.

Fixpoint last_element (s : string) : string :=
  match s with
  | EmptyString => EmptyString
  | String c s' => if is_sep c || has_sep s' then last_element s' else String c s'
  end.

Definition filepath_Base (path : string) : string :=
  match path with
  | EmptyString => "."
  | _ =>
      match last_element (strip_trailing_seps path) with
      | EmptyString => "/"
      | p => p
      end
  end.

(** [bytes.Replace(s, old, new, -1)] for a non-empty [old]: every
    non-overlapping occurrence of [old], found from the left, is replaced by
    [new].  [skip] counts the bytes of a matched occurrence still to drop.
    (All patterns in the program are non-empty constants.) *)
Fixpoint has_prefix (p s : bytes) : bool :=
  match p, s with
  | [], _ => true
  | _ :: _, [] => false
  | a :: p', b :: s' => Byte.eqb a b && has_prefix p' s'
  end.

Fixpoint replace_from (old new s : bytes) (skip : nat) : bytes :=
  match s with
  | [] => []
  | c :: s' =>
      match skip with
      | S k => replace_from old new s' k
      | O =>
          if has_prefix old (c :: s')
          then (new ++ replace_from old new s' (List.length old - 1))%list
          else c :: replace_from old new s' 0
      end
  end.

Definition bytes_Replace (s old new : bytes) : bytes := replace_from old new s 0.

(** [bytes.Contains(s, sub)] *)
Fixpoint bytes_Contains (s sub : bytes) : bool :=
  has_prefix sub s ||
  match s with
  | [] => false
  | _ :: s' => bytes_Contains s' sub
  end.

(** [strings.Split(s, sep)] for a one-character separator: never empty. *)
Fixpoint strings_Split (s : string) (sep : ascii) : list string :=
  match s with
  | EmptyString => [EmptyString]
  | String c s' =>
      match strings_Split s' sep with
      | [] => [EmptyString]
      | h :: tl => if Ascii.eqb c sep then EmptyString :: h :: tl else String c h :: tl
      end
  end.

End GoLib.

(** ** The calls, as primitives of the monad *)

Section Calls.

Variable env : Env.

Definition driver_IP (cfg : Config) : M (string + error) :=
  call EvDriverIP (fun t => IP_result env t cfg).

Definition os_Create (path : string) : M (option error) :=
  call (EvCreate path) (fun t => Create_result env t path).

Definition file_Close (path : string) : M unit :=
  call (EvFileClose path) (fun _ => tt).

Definition os_Stat (path : string) : M (option error) :=
  call (EvStat path) (fun t => Stat_result env t path).

Definition os_RemoveAll (path : string) : M (option error) :=
  call (EvRemoveAll path) (fun t => RemoveAll_result env t path).

Definition ioutil_ReadFile (path : string) : M (bytes + error) :=
  call (EvReadFile path) (fun t => ReadFile_result env t path).

Definition ioutil_WriteFile (path : string) (data : bytes) (perm : Z) :
  M (option error) :=
  call (EvWriteFile path data perm) (fun t => WriteFile_result env t path data).

Definition ssh_Dial (network addr : string) (config : ClientConfig) :
  M (Client + error) :=
  call (EvDial network addr config) (fun t => Dial_result env t addr config).

Definition client_Close (c : Client) : M unit :=
  call (EvClientClose c) (fun _ => tt).

Definition client_NewSession (c : Client) : M (option error) :=
  call (EvNewSession c) (fun t => NewSession_result env t c).

Definition session_Close : M unit :=
  call EvSessionClose (fun _ => tt).

Definition session_Run (command : string) (out err : Writer) : M (option error) :=
  call (EvSessionRun command out err) (fun t => Run_result env t command).

Definition session_StdinPipe : M unit :=
  call EvStdinPipe (fun _ => tt).

Definition fmt_Fprintln (operands : list string) : M (option error) :=
  call (EvFprintln operands) (fun t => Fprintln_result env t operands).

Definition io_Copy (payload : bytes) : M (option error) :=
  call (EvCopy payload) (fun t => Copy_result env t payload).

Definition pipe_Close : M unit :=
  call EvPipeClose (fun _ => tt).

Definition fmt_Print (text : string) : M unit :=
  call (EvPrint text) (fun _ => tt).

Definition time_Sleep (d : Duration) : M unit :=
  call (EvSleep d) (fun _ => tt).

(** [boshRunner.Output(args...)], the external deployment CLI. *)
Definition bosh_Output (args : list string) : M (bytes * option error) :=
  call (EvBoshOutput args) (fun t => BoshOutput_result env t args).

(** [exec.Command(path, args...)] followed by [CombinedOutput()] or
    [Output()]. *)
Definition exec_Output (path : string) (args : list string) :
  M (bytes * option error) :=
  call (EvExec path args) (fun t => Exec_result env t path args).

End Calls.

(** ** provision/director.go: the SSH session *)

Record SSH : Type := {
  client : Client;
  stdout : Writer;
  stderr : Writer;
  Error : option error
}.

(** The assignment [s.Error = e]. *)
Definition set_Error (s : SSH) (e : option error) : SSH :=
  {| client := client s; stdout := stdout s; stderr := stderr s; Error := e |}.

Section Session.

Variable env : Env.

(** [func (s *SSH) Run(command string)] *)
Definition Run (s : SSH) (command : string) : M SSH :=
  match Error s with
  | Some _ => ret s
  | None =>
      r <- client_NewSession env (client s) ;;
      match r with
      | Some err => ret (set_Error s (Some err))
      | None =>
          e <- session_Run env command (stdout s) (stderr s) ;;
          session_Close ;;;
          ret (set_Error s e)
      end
  end.

(** [func (s *SSH) SendData(srcData []byte, remoteFilePath string)].

    The goroutine that feeds the pipe runs while [session.Run] waits for the
    remote command.  The trace lists the writer's calls first and the event
    of the command, which stands for its whole execution up to its exit,
    after them: the schedule in which the pipe is taken before the command
    starts.  The results of both [Fprintln] calls are dropped, the error of
    [io.Copy] is printed, the error of [session.Run] is dropped. *)
Definition SendData (s : SSH) (srcData : bytes) (remoteFilePath : string) : M SSH :=
  match Error s with
  | Some _ => ret s
  | None =>
      r <- client_NewSession env (client s) ;;
      match r with
      | Some err => ret (set_Error s (Some err))
      | None =>
          (* go func() *)
          session_StdinPipe ;;;
          fmt_Fprintln env
            ["C0755"; GoLib.itoa (Z.of_nat (List.length srcData));
             GoLib.filepath_Base remoteFilePath] ;;;
          cerr <- io_Copy env srcData ;;
          match cerr with
          | Some err => fmt_Print (Error_text err)
          | None => ret tt
          end ;;;
          fmt_Fprintln env [GoLib.NUL] ;;;
          pipe_Close ;;;
          (* the main flow *)
          session_Run env ("/usr/bin/scp -qt " ++ filepath_Dir env remoteFilePath)
            (stdout s) (stderr s) ;;;
          session_Close ;;;
          ret s
      end
  end.

(** [func (s *SSH) SendFile(filePath string, remoteFilePath string)] *)
Definition SendFile (s : SSH) (filePath remoteFilePath : string) : M SSH :=
  match Error s with
  | Some _ => ret s
  | None =>
      r <- ioutil_ReadFile env filePath ;;
      match r with
      | inr err => ret (set_Error s (Some err))
      | inl data => SendData s data remoteFilePath
      end
  end.

(** [func (s *SSH) RetrieveFile(filePath string, remoteFilePath string)] *)
Definition RetrieveFile (s : SSH) (filePath remoteFilePath : string) : M SSH :=
  match Error s with
  | Some _ => ret s
  | None =>
      r <- os_Create env filePath ;;
      match r with
      | Some err => ret (set_Error s (Some err))
      | None =>
          r' <- client_NewSession env (client s) ;;
          match r' with
          | Some err =>
              file_Close filePath ;;;
              ret (set_Error s (Some err))
          | None =>
              e <- session_Run env ("cat " ++ remoteFilePath)
                     (FileWriter filePath) (stderr s) ;;
              session_Close ;;;
              file_Close filePath ;;;
              ret (set_Error s e)
          end
      end
  end.

(** [func (s *SSH) Close()] *)
Definition Close (s : SSH) : M unit := client_Close (client s).

(** The [ssh.ClientConfig] that [waitForSSH] builds around the signer. *)
Definition client_config (signer : Signer) : ClientConfig :=
  {| User := "root"; Auth := [signer]; Timeout := (10 * Second)%Z |}.

(** The retry loop of [waitForSSH].  The [select] of the source takes the
    ticker case [ticks] times before it takes the timeout case; [err] is the
    variable of the goroutine that keeps the last dial error. *)
Fixpoint dial_loop (addr : string) (config : ClientConfig) (ticks : nat)
  (err : option error) : M (option Client * option error) :=
  match ticks with
  | O =>
      (* case <-timeout *)
      ret (None, Some (fmt_Errorf ("ssh connection timed out: " ++ fmt_s err)))
  | S ticks' =>
      (* case <-ticker.C *)
      r <- ssh_Dial env "tcp" addr config ;;
      match r with
      | inl c => ret (Some c, None)
      | inr e => dial_loop addr config ticks' (Some e)
      end
  end.

(** [func waitForSSH(ip, port string, privateKey []byte, timeout time.Duration)] *)
Definition waitForSSH (ip port : string) (privateKey : bytes) (timeout : Duration) :
  M (option Client * option error) :=
  match ssh_ParsePrivateKey env privateKey with
  | inr err =>
      ret (None, Some (fmt_Errorf ("could not parse private key: " ++ Error_text err)))
  | inl signer =>
      let config := client_config signer in
      fun t =>
        dial_loop (ip ++ ":" ++ port) config (ticks_before_timeout env t timeout) None t
  end.

(** [func NewSSH(ip, port, key, timeout, stdout, stderr)] *)
Definition NewSSH (ip port : string) (key : bytes) (timeout : Duration)
  (out err : Writer) : M (option SSH * option error) :=
  r <- waitForSSH ip port key timeout ;;
  match r with
  | (_, Some err) => ret (None, Some err)
  | (Some c, None) =>
      ret (Some {| client := c; stdout := out; stderr := err; Error := None |}, None)
  | (None, None) =>
      (* a session around a nil client; [waitForSSH] never returns this pair
         (lemma [waitForSSH_exactly_one]) *)
      ret (None, None)
  end.

End Session.

(** ** provision/director.go: the deployment workflow *)

Definition vpnkitNameserverIP : string := "192.168.65.1".
Definition vpnkitHostIP : string := "192.168.65.2".
Definition vpnkitInternalIP : string := "192.168.65.3".
Definition kvmNameserverIP : string := "192.168.122.1".

(** The two replacements applied to the director configuration on Linux
    (lines 67 and 69). *)
Definition patch_director (ip : string) (directorContents : bytes) : bytes :=
  let directorContents :=
    GoLib.bytes_Replace directorContents
      (bytes_of_string (vpnkitInternalIP ++ ":9999"))
      (bytes_of_string (ip ++ ":9999")) in
  GoLib.bytes_Replace directorContents
    (bytes_of_string vpnkitNameserverIP) (bytes_of_string kvmNameserverIP).

Definition create_env_command : string :=
  "/usr/local/bin/bosh --tty create-env director.yml --state state.json".

Section Deploy.

Variable env : Env.

(** The closure [credhubIsDeployed] (lines 29-36). *)
Definition credhubIsDeployed (credsPath : string) : M bool :=
  err <- os_Stat env credsPath ;;
  ret (os_IsNotExist err).

(** Lines 72-92: the operations on the session, in order. *)
Definition deploy_over_session (s : SSH) (directorContents : bytes)
  (stateJSONPath credsPath : string) : M SSH :=
  s <- SendData env s directorContents "director.yml" ;;
  s <- SendFile env s stateJSONPath "state.json" ;;
  let command := create_env_command in
  deployed <- credhubIsDeployed credsPath ;;
  sc <- (if negb deployed
         then
           s <- SendFile env s credsPath "creds.yml" ;;
           ret (s, command ++ " --vars-store creds.yml")
         else ret (s, command)) ;;
  time_Sleep (7 * Second)%Z ;;;
  s <- Run env (fst sc) (snd sc) ;;
  RetrieveFile env s stateJSONPath "state.json".

(** Lines 97-125: the body of the second [if runtime.GOOS == "linux"]. *)
Definition kvm_followup (cloudConfigPath dnsConfigPath : string) : M (option error) :=
  r <- ioutil_ReadFile env cloudConfigPath ;;
  match r with
  | inr err => ret (Some err)
  | inl cloudConfigContents =>
      let cloudConfigContents :=
        GoLib.bytes_Replace cloudConfigContents
          (bytes_of_string vpnkitNameserverIP) (bytes_of_string kvmNameserverIP) in
      w <- ioutil_WriteFile env cloudConfigPath cloudConfigContents 384 (* 0600 *) ;;
      match w with
      | Some err => ret (Some err)
      | None =>
          bosh_Output env ["-n"; "update-cloud-config"; cloudConfigPath] ;;;
          r <- ioutil_ReadFile env dnsConfigPath ;;
          match r with
          | inr err => ret (Some err)
          | inl dnsConfigContents =>
              let dnsConfigContents :=
                GoLib.bytes_Replace dnsConfigContents
                  (bytes_of_string vpnkitHostIP) (bytes_of_string kvmNameserverIP) in
              w <- ioutil_WriteFile env dnsConfigPath dnsConfigContents 384 (* 0600 *) ;;
              match w with
              | Some err => ret (Some err)
              | None =>
                  bosh_Output env ["-n"; "update-runtime-config"; dnsConfigPath] ;;;
                  ret None
              end
          end
      end
  end.

(** Lines 61-127, which run between [NewSSH] and the deferred [s.Close()]. *)
Definition deploy_with_session (c : Config) (ip : string) (s : SSH) : M (option error) :=
  let credsPath := filepath_Join env (StateBosh c) "creds.yml" in
  let directorPath := filepath_Join env (StateBosh c) "director.yml" in
  let cloudConfigPath := filepath_Join env (StateBosh c) "cloud-config.yml" in
  let dnsConfigPath := filepath_Join env (StateBosh c) "dns.yml" in
  let stateJSONPath := filepath_Join env (StateBosh c) "state.json" in
  r <- ioutil_ReadFile env directorPath ;;
  match r with
  | inr err => ret (Some err)
  | inl directorContents =>
      let directorContents :=
        if String.eqb (GOOS env) "linux"
        then patch_director ip directorContents
        else directorContents in
      s <- deploy_over_session s directorContents stateJSONPath credsPath ;;
      match Error s with
      | Some err => ret (Some err)
      | None =>
          if String.eqb (GOOS env) "linux"
          then kvm_followup cloudConfigPath dnsConfigPath
          else ret None
      end
  end.

(** [func (c *Controller) DeployBosh() error] *)
Definition DeployBosh (c : Config) : M (option error) :=
  r <- driver_IP env c ;;
  match r with
  | inr err => ret (Some err)
  | inl ip =>
      let logPath := filepath_Join env (LogDir c) "deploy-bosh.log" in
      r <- os_Create env logPath ;;
      match r with
      | Some err => ret (Some err)
      | None =>
          let logFile := FileWriter logPath in
          result <-
            (r <- ioutil_ReadFile env (filepath_Join env (StateDir c) "id_rsa") ;;
             match r with
             | inr err => ret (Some err)
             | inl key =>
                 r <- NewSSH env ip "9992" key (20 * Second)%Z logFile logFile ;;
                 match r with
                 | (_, Some err) => ret (Some err)
                 | (None, None) =>
                     (* no session and no error: [NewSSH] never returns it *)
                     ret None
                 | (Some s, None) =>
                     result <- deploy_with_session c ip s ;;
                     (* defer s.Close() *)
                     Close s ;;;
                     ret result
                 end
             end) ;;
          (* defer logFile.Close() *)
          file_Close logPath ;;;
          ret result
      end
  end.

End Deploy.

(** ** pkg/servicew/client/client.go *)

Record ServiceWrapper : Type := {
  binaryPath : string;
  workdir : string
}.

Section ServiceClient.

Variable env : Env.

(** [func (s *ServiceWrapper) swrapperPath(label string) string] *)
Definition swrapperPath (s : ServiceWrapper) (label : string) : string :=
  let splits := GoLib.strings_Split label "." in
  filepath_Join env (workdir s) (List.last splits EmptyString).

(** [func (s *ServiceWrapper) swrapperNotExist(label string) bool] *)
Definition swrapperNotExist (s : ServiceWrapper) (label : string) : M bool :=
  err <- os_Stat env (swrapperPath s label) ;;
  ret (os_IsNotExist err).

Definition quoted (label : string) : string := "'" ++ label ++ "'".

(** [func (s *ServiceWrapper) Uninstall(label string) error] *)
Definition Uninstall (s : ServiceWrapper) (label : string) : M (option error) :=
  let swrapperPath := swrapperPath s label in
  let definitionConfig := swrapperPath ++ ".yml" in
  absent <- swrapperNotExist s label ;;
  if absent then ret None
  else
    r <- exec_Output env swrapperPath ["uninstall"] ;;
    match snd r with
    | Some err =>
        ret (Some (fmt_Errorf ("failed to uninstall " ++ quoted label ++ ": "
                               ++ Error_text err ++ ": "
                               ++ string_of_list_byte (fst r))))
    | None =>
        e <- os_RemoveAll env swrapperPath ;;
        match e with
        | Some err => ret (Some err)
        | None => os_RemoveAll env definitionConfig
        end
    end.

(** [func (s *ServiceWrapper) Stop(label string) error] *)
Definition Stop (s : ServiceWrapper) (label : string) : M (option error) :=
  absent <- swrapperNotExist s label ;;
  if absent then ret None
  else
    r <- exec_Output env (swrapperPath s label) ["stop"] ;;
    match snd r with
    | Some err =>
        ret (Some (fmt_Errorf ("failed to stop " ++ quoted label ++ ": "
                               ++ Error_text err ++ ": "
                               ++ string_of_list_byte (fst r))))
    | None => ret None
    end.

(** [func (s *ServiceWrapper) IsRunning(label string) (bool, error)] *)
Definition IsRunning (s : ServiceWrapper) (label : string) : M (bool * option error) :=
  absent <- swrapperNotExist s label ;;
  if absent then ret (false, None)
  else
    r <- exec_Output env (swrapperPath s label) ["status"] ;;
    match snd r with
    | Some err =>
        ret (false,
             Some (fmt_Errorf ("failed to fetch status of " ++ quoted label ++ ": "
                               ++ Error_text err ++ ": "
                               ++ string_of_list_byte (fst r))))
    | None =>
        ret (String.eqb (strings_TrimSpace env (string_of_list_byte (fst r)))
               (StatusRunning env), None)
    end.

End ServiceClient.

(** ** Sequences of session operations *)

Inductive Op : Type :=
| OpRun (command : string)
| OpSendFile (filePath remoteFilePath : string)
| OpSendData (srcData : bytes) (remoteFilePath : string)
| OpRetrieveFile (filePath remoteFilePath : string).

Definition exec_op (env : Env) (s : SSH) (op : Op) : M SSH :=
  match op with
  | OpRun command => Run env s command
  | OpSendFile filePath remote => SendFile env s filePath remote
  | OpSendData srcData remote => SendData env s srcData remote
  | OpRetrieveFile filePath remote => RetrieveFile env s filePath remote
  end.

Fixpoint exec_ops (env : Env) (s : SSH) (ops : list Op) : M SSH :=
  match ops with
  | [] => ret s
  | op :: rest => s' <- exec_op env s op ;; exec_ops env s' rest
  end.

(** The bytes that a call on the stdin pipe submits to the remote command:
    they are what the command receives when no write fails. *)
Definition wire (e : Event) : bytes :=
  match e with
  | EvFprintln operands => bytes_of_string (GoLib.Sprintln operands)
  | EvCopy payload => payload
  | _ => []
  end.

Definition stdin_bytes (tr : Trace) : bytes := flat_map wire tr.

(** ** Vocabulary of the statements *)

(** The events of an upload whose channel opened. *)
Definition upload_events (env : Env) (s : SSH) (srcData : bytes) (remote : string) (t : Trace) :
  list Event :=
  let header := ["C0755"; GoLib.itoa (Z.of_nat (List.length srcData));
                 GoLib.filepath_Base remote] in
  ([EvNewSession (client s); EvStdinPipe; EvFprintln header; EvCopy srcData]
   ++ match Copy_result env
              (t ++ [EvNewSession (client s); EvStdinPipe; EvFprintln header]) srcData with
      | Some err => [EvPrint (Error_text err)]
      | None => []
      end
   ++ [EvFprintln [GoLib.NUL]; EvPipeClose;
       EvSessionRun ("/usr/bin/scp -qt " ++ filepath_Dir env remote) (stdout s) (stderr s);
       EvSessionClose])%list.

(** The claim on upload failures as the specification states it: an upload that fails in the writer's copy
    or in the remote receiving command leaves an error in the slot. *)
Definition upload_failures_are_stored : Prop :=
  forall env s srcData remote e,
    Error s = None ->
    (forall t, Copy_result env t srcData = Some e) \/
    (forall t, Run_result env t ("/usr/bin/scp -qt " ++ filepath_Dir env remote) = Some e) ->
    forall t, Error (fst (SendData env s srcData remote t)) <> None.

(** The outcome of dial attempt number [j] (from 0), all earlier attempts
    having failed: the history then holds [j] dial events more. *)
Definition attempt (env : Env) (addr : string) (config : ClientConfig) (t : Trace) (j : nat) : Client + error :=
  Dial_result env (t ++ repeat (EvDial "tcp" addr config) j)%list addr config.

Definition attempt_error (env : Env) (addr : string) (config : ClientConfig) (t : Trace) (j : nat) : option error :=
  match attempt env addr config t j with
  | inr e => Some e
  | inl _ => None
  end.

(** The error variable of the goroutine after [n] failed attempts. *)
Definition last_dial_error (env : Env) (addr : string) (config : ClientConfig) (t : Trace) (n : nat) (err : option error) : option error :=
  match n with
  | O => err
  | S m => attempt_error env addr config t m
  end.

(** The substitution over the director configuration is idempotent, as the
    specification states it. *)
Definition kvm_substitution_idempotent : Prop :=
  forall (ip : string) (text : bytes),
    patch_director ip (patch_director ip text) = patch_director ip text.

(** The two literals that [patch_director] looks for. *)
Definition gateway_literal : bytes := bytes_of_string (vpnkitInternalIP ++ ":9999").
Definition nameserver_literal : bytes := bytes_of_string vpnkitNameserverIP.

(** A text in which the nameserver literal overlaps itself on one byte. *)
Definition overlapped_text : bytes := bytes_of_string "192.168.65.192.168.65.1".

(** [emits P Q m]: whatever the history, [m] only adds events that satisfy
    [P], and returns a value that satisfies [Q]. *)
Definition emits {A : Type} (P : Event -> bool) (Q : A -> Prop) (m : M A) : Prop :=
  forall t, exists evs,
    snd (m t) = (t ++ evs)%list /\ forallb P evs = true /\ Q (fst (m t)).

(** The deploy command line with the vars-store flag. *)
Definition create_env_command_with_creds : string :=
  create_env_command ++ " --vars-store creds.yml".

Fixpoint starts_with (p s : string) : bool :=
  match p, s with
  | EmptyString, _ => true
  | String _ _, EmptyString => false
  | String a p', String b s' => Ascii.eqb a b && starts_with p' s'
  end.

Fixpoint string_contains (s sub : string) : bool :=
  starts_with sub s ||
  match s with
  | EmptyString => false
  | String _ s' => string_contains s' sub
  end.

(** A command line that invokes the deployment tool on the remote host. *)
Definition is_deploy_command (command : string) : bool :=
  starts_with "/usr/local/bin/bosh" command.

(** The event that runs the deploy command. *)
Definition runs_deploy (e : Event) : bool :=
  match e with
  | EvSessionRun command _ _ => is_deploy_command command
  | _ => false
  end.

Definition quiet (e : Event) : bool := negb (runs_deploy e).

(** The header line of the upload of a file called [name]. *)
Definition is_upload_header (name : string) (e : Event) : bool :=
  match e with
  | EvFprintln [mode; _; n] => String.eqb mode "C0755" && String.eqb n name
  | _ => false
  end.

(** An event of a deployment that leaves the credentials alone: not the
    header of an upload of [creds.yml], and, if it runs the deploy command,
    then the command line without the flag. *)
Definition without_creds (e : Event) : bool :=
  negb (is_upload_header "creds.yml" e) &&
  match e with
  | EvSessionRun command _ _ =>
      if is_deploy_command command then String.eqb command create_env_command else true
  | _ => true
  end.

(** The events of a deployment with credentials: the deploy command runs at
    most once, with the flag, and by then the credentials file has been read
    and uploaded in full. *)
Definition creds_then_deploy (env : Env) (credsPath : string) (evs : list Event) : Prop :=
  exists before after,
    evs = (before ++ after)%list /\
    forallb quiet before = true /\
    (after = [] \/
     exists out err rest,
       after = EvSessionRun create_env_command_with_creds out err :: rest /\
       forallb quiet rest = true /\
       exists pre s data t0 post,
         before = (pre ++ EvReadFile credsPath
                   :: upload_events env s data "creds.yml" t0 ++ post)%list).

(** [shaped S m]: whatever the history, the events that [m] adds satisfy [S]. *)
Definition shaped {A : Type} (S : list Event -> Prop) (m : M A) : Prop :=
  forall t, exists evs, snd (m t) = (t ++ evs)%list /\ S evs.

(** The environment with another outcome for the external CLI. *)
Definition with_BoshOutput (env : Env)
  (f : Trace -> list string -> bytes * option error) : Env := {|
  GOOS := GOOS env;
  StatusRunning := StatusRunning env;
  filepath_Join := filepath_Join env;
  filepath_Dir := filepath_Dir env;
  strings_TrimSpace := strings_TrimSpace env;
  ssh_ParsePrivateKey := ssh_ParsePrivateKey env;
  IP_result := IP_result env;
  Create_result := Create_result env;
  Stat_result := Stat_result env;
  RemoveAll_result := RemoveAll_result env;
  ReadFile_result := ReadFile_result env;
  WriteFile_result := WriteFile_result env;
  Dial_result := Dial_result env;
  ticks_before_timeout := ticks_before_timeout env;
  NewSession_result := NewSession_result env;
  Run_result := Run_result env;
  Fprintln_result := Fprintln_result env;
  Copy_result := Copy_result env;
  BoshOutput_result := f;
  Exec_result := Exec_result env
|}.

(** A local file that can always be read, or always be written. *)
Definition always_readable (env : Env) (path : string) : Prop :=
  forall t, exists data, ReadFile_result env t path = inl data.

Definition always_writable (env : Env) (path : string) : Prop :=
  forall t data, WriteFile_result env t path data = None.

(** The event of an invocation of the external CLI. *)
Definition is_cli (e : Event) : bool :=
  match e with
  | EvBoshOutput _ => true
  | _ => false
  end.

Definition no_cli (e : Event) : bool := negb (is_cli e).

(** [returns S m]: whatever the history, the value that [m] returns and the
    events that it adds satisfy [S]. *)
Definition returns {A : Type} (S : A -> list Event -> Prop) (m : M A) : Prop :=
  forall t, exists evs, snd (m t) = (t ++ evs)%list /\ S (fst (m t)) evs.

(** The external CLI was not invoked, or the result is [nil]. *)
Definition nil_once_cli_ran (result : option error) (evs : list Event) : Prop :=
  forallb no_cli evs = true \/ result = None.

(** ** Concrete environments, to run the model *)

Definition is_dial (e : Event) : bool :=
  match e with
  | EvDial _ _ _ => true
  | _ => false
  end.

Definition connection_refused : error := ErrorString "dial tcp: connection refused".

(** Every call succeeds, except that the first two dial attempts are refused
    and that an empty private key does not parse; a file holds the bytes of
    its own path. *)
Definition calm_env : Env := {|
  GOOS := "linux";
  StatusRunning := "Running";
  filepath_Join := fun dir name => dir ++ "/" ++ name;
  filepath_Dir := fun _ => ".";
  strings_TrimSpace := fun s => s;
  ssh_ParsePrivateKey := fun key =>
    match key with
    | [] => inr (ErrorString "ssh: no key found")
    | _ => inl (SignerOf key)
    end;
  IP_result := fun _ _ => inl "10.0.0.5";
  Create_result := fun _ _ => None;
  Stat_result := fun _ _ => None;
  RemoveAll_result := fun _ _ => None;
  ReadFile_result := fun _ path => inl (bytes_of_string path);
  WriteFile_result := fun _ _ _ => None;
  Dial_result := fun t _ _ =>
    if Nat.leb 2 (List.length (filter is_dial t))
    then inl (ClientConn 0) else inr connection_refused;
  ticks_before_timeout := fun _ _ => 20;
  NewSession_result := fun _ _ => None;
  Run_result := fun _ _ => None;
  Fprintln_result := fun _ _ => None;
  Copy_result := fun _ _ => None;
  BoshOutput_result := fun _ _ => ([], None);
  Exec_result := fun _ _ _ => ([], None)
|}.

Definition exit_status_1 : error := ErrorString "Process exited with status 1".
Definition broken_pipe : error := ErrorString "write: broken pipe".
Definition no_such_file : error := ErrorString "no such file or directory".

(** As [calm_env], but every remote command exits with status 1 and every
    write to a stdin pipe fails. *)
Definition lossy_env : Env := {|
  GOOS := GOOS calm_env;
  StatusRunning := StatusRunning calm_env;
  filepath_Join := filepath_Join calm_env;
  filepath_Dir := filepath_Dir calm_env;
  strings_TrimSpace := strings_TrimSpace calm_env;
  ssh_ParsePrivateKey := ssh_ParsePrivateKey calm_env;
  IP_result := IP_result calm_env;
  Create_result := Create_result calm_env;
  Stat_result := Stat_result calm_env;
  RemoveAll_result := RemoveAll_result calm_env;
  ReadFile_result := ReadFile_result calm_env;
  WriteFile_result := WriteFile_result calm_env;
  Dial_result := Dial_result calm_env;
  ticks_before_timeout := ticks_before_timeout calm_env;
  NewSession_result := NewSession_result calm_env;
  Run_result := fun _ _ => Some exit_status_1;
  Fprintln_result := fun _ _ => Some broken_pipe;
  Copy_result := fun _ _ => Some broken_pipe;
  BoshOutput_result := BoshOutput_result calm_env;
  Exec_result := Exec_result calm_env
|}.

(** As [calm_env], but no local file can be read or created. *)
Definition bare_env : Env := {|
  GOOS := GOOS calm_env;
  StatusRunning := StatusRunning calm_env;
  filepath_Join := filepath_Join calm_env;
  filepath_Dir := filepath_Dir calm_env;
  strings_TrimSpace := strings_TrimSpace calm_env;
  ssh_ParsePrivateKey := ssh_ParsePrivateKey calm_env;
  IP_result := IP_result calm_env;
  Create_result := fun _ _ => Some no_such_file;
  Stat_result := fun _ _ => Some (ErrNotExist "stat: no such file or directory");
  RemoveAll_result := RemoveAll_result calm_env;
  ReadFile_result := fun _ _ => inr no_such_file;
  WriteFile_result := WriteFile_result calm_env;
  Dial_result := Dial_result calm_env;
  ticks_before_timeout := ticks_before_timeout calm_env;
  NewSession_result := NewSession_result calm_env;
  Run_result := Run_result calm_env;
  Fprintln_result := Fprintln_result calm_env;
  Copy_result := Copy_result calm_env;
  BoshOutput_result := BoshOutput_result calm_env;
  Exec_result := Exec_result calm_env
|}.

(** As [calm_env], but every dial attempt is refused and the timeout comes
    after three ticks. *)
Definition unreachable_env : Env := {|
  GOOS := GOOS calm_env;
  StatusRunning := StatusRunning calm_env;
  filepath_Join := filepath_Join calm_env;
  filepath_Dir := filepath_Dir calm_env;
  strings_TrimSpace := strings_TrimSpace calm_env;
  ssh_ParsePrivateKey := ssh_ParsePrivateKey calm_env;
  IP_result := IP_result calm_env;
  Create_result := Create_result calm_env;
  Stat_result := Stat_result calm_env;
  RemoveAll_result := RemoveAll_result calm_env;
  ReadFile_result := ReadFile_result calm_env;
  WriteFile_result := WriteFile_result calm_env;
  Dial_result := fun _ _ _ => inr connection_refused;
  ticks_before_timeout := fun _ _ => 3;
  NewSession_result := NewSession_result calm_env;
  Run_result := Run_result calm_env;
  Fprintln_result := Fprintln_result calm_env;
  Copy_result := Copy_result calm_env;
  BoshOutput_result := BoshOutput_result calm_env;
  Exec_result := Exec_result calm_env
|}.

(** As [calm_env], but nothing exists at any path that [os.Stat] is asked
    about. *)
Definition no_creds_env : Env := {|
  GOOS := GOOS calm_env;
  StatusRunning := StatusRunning calm_env;
  filepath_Join := filepath_Join calm_env;
  filepath_Dir := filepath_Dir calm_env;
  strings_TrimSpace := strings_TrimSpace calm_env;
  ssh_ParsePrivateKey := ssh_ParsePrivateKey calm_env;
  IP_result := IP_result calm_env;
  Create_result := Create_result calm_env;
  Stat_result := fun _ _ => Some (ErrNotExist "stat: no such file or directory");
  RemoveAll_result := RemoveAll_result calm_env;
  ReadFile_result := ReadFile_result calm_env;
  WriteFile_result := WriteFile_result calm_env;
  Dial_result := Dial_result calm_env;
  ticks_before_timeout := ticks_before_timeout calm_env;
  NewSession_result := NewSession_result calm_env;
  Run_result := Run_result calm_env;
  Fprintln_result := Fprintln_result calm_env;
  Copy_result := Copy_result calm_env;
  BoshOutput_result := BoshOutput_result calm_env;
  Exec_result := Exec_result calm_env
|}.

Definition log_writer : Writer := FileWriter "log/deploy-bosh.log".

(** A fresh session, as [NewSSH] builds it. *)
Definition fresh_session : SSH :=
  {| client := ClientConn 0; stdout := log_writer; stderr := log_writer; Error := None |}.

Definition hello : bytes := bytes_of_string "hello".

(** A session whose slot already holds an error. *)
Definition failed_session : SSH := set_Error fresh_session (Some broken_pipe).

Definition demo_config : Config :=
  {| StateBosh := "state/bosh"; StateDir := "state"; LogDir := "log" |}.

Definition demo_wrapper : ServiceWrapper :=
  {| binaryPath := "cache/servicew"; workdir := "cache" |}.

(** A director configuration that holds none of the literals. *)
Definition patched_text : bytes :=
  bytes_of_string "mbus: nats://10.0.0.5:9999 dns: [192.168.122.1]".

(** A CLI that always fails. *)
Definition failing_cli (t : Trace) (args : list string) : bytes * option error :=
  ([], Some exit_status_1).

(** ** Further code of the two files, and the vocabulary of further
    properties *)

(** [func New(binaryPath string, workdir string) *ServiceWrapper] *)
Definition New (binaryPath workdir : string) : ServiceWrapper :=
  {| binaryPath := binaryPath; workdir := workdir |}.

(** [func (s *ServiceWrapper) Start(label string) error] *)
Definition Start (env : Env) (s : ServiceWrapper) (label : string) : M (option error) :=
  r <- exec_Output env (swrapperPath env s label) ["start"] ;;
  match snd r with
  | Some err =>
      ret (Some (fmt_Errorf ("failed to start " ++ quoted label ++ ": "
                             ++ Error_text err ++ ": "
                             ++ string_of_list_byte (fst r))))
  | None => ret None
  end.

(** The life of a channel in the main flow: [Opened] after a [NewSession]
    that succeeded, [Ran] once the command of the session has run, [Idle]
    when no channel is open. *)
Inductive Channel : Type := Idle | Opened | Ran.

(** The calls that the goroutine of [SendData] makes.  Nothing in the source
    orders them against the calls of the main flow. *)
Definition writer_event (e : Event) : bool :=
  match e with
  | EvStdinPipe | EvFprintln _ | EvCopy _ | EvPrint _ | EvPipeClose => true
  | _ => false
  end.

(** A call of the main flow that is no call on a channel. *)
Definition local_event (e : Event) : bool :=
  match e with
  | EvNewSession _ | EvSessionRun _ _ _ | EvSessionClose => false
  | _ => negb (writer_event e)
  end.

(** One event after the history [h], in state [q]; [None] when the event is
    out of place.  The calls of the writer are passed over.  Whether
    [NewSession] opened a channel is what the environment answered at [h];
    a channel that opened takes one command, then its close, and no other
    call of the main flow is made meanwhile. *)
Definition channel_step (env : Env) (h : Trace) (q : Channel) (e : Event) :
  option Channel :=
  if writer_event e then Some q
  else
    match e, q with
    | EvNewSession c, Idle =>
        match NewSession_result env h c with
        | None => Some Opened
        | Some _ => Some Idle
        end
    | EvSessionRun _ _ _, Opened => Some Ran
    | EvSessionClose, Ran => Some Idle
    | (EvNewSession _ | EvSessionRun _ _ _ | EvSessionClose), _ => None
    | _, Idle => Some Idle
    | _, _ => None
    end.

Fixpoint channel_run (env : Env) (h : Trace) (q : Channel) (evs : list Event) :
  option Channel :=
  match evs with
  | [] => Some q
  | e :: rest =>
      match channel_step env h q e with
      | Some q' => channel_run env (h ++ [e])%list q' rest
      | None => None
      end
  end.

(** [conforms env m]: started when no channel is open, the events that [m]
    adds are all in place and leave no channel open. *)
Definition conforms {A : Type} (env : Env) (m : M A) : Prop :=
  forall t, exists evs,
    snd (m t) = (t ++ evs)%list /\ channel_run env t Idle evs = Some Idle.

(** An event that leaves the configuration files alone: no [WriteFile], no
    CLI, no removal, no process, and no file created (and so truncated)
    other than the log and the state file. *)
Definition leaves_config_alone (logPath statePath : string) (e : Event) : bool :=
  match e with
  | EvWriteFile _ _ _ | EvBoshOutput _ | EvRemoveAll _ | EvExec _ _ => false
  | EvCreate path => String.eqb path logPath || String.eqb path statePath
  | _ => true
  end.

(** An event of a deployment that reaches no remote command: nothing is
    run or written over a channel, and the only file created is the log. *)
Definition sends_nothing (logPath : string) (e : Event) : bool :=
  match e with
  | EvSessionRun _ _ _ | EvStdinPipe | EvFprintln _ | EvCopy _ | EvPipeClose
  | EvWriteFile _ _ _ | EvBoshOutput _ | EvRemoveAll _ | EvExec _ _ => false
  | EvCreate path => String.eqb path logPath
  | _ => true
  end.


(** The director configuration as [DeployBosh] uploads it. *)
Definition director_payload (env : Env) (ip : string) (directorContents : bytes) : bytes :=
  if String.eqb (GOOS env) "linux"
  then patch_director ip directorContents
  else directorContents.

(** The environment with another operating system, another outcome of
    [NewSession], another outcome of [os.Stat]. *)
Definition with_GOOS (env : Env) (goos : string) : Env := {|
  GOOS := goos;
  StatusRunning := StatusRunning env;
  filepath_Join := filepath_Join env;
  filepath_Dir := filepath_Dir env;
  strings_TrimSpace := strings_TrimSpace env;
  ssh_ParsePrivateKey := ssh_ParsePrivateKey env;
  IP_result := IP_result env;
  Create_result := Create_result env;
  Stat_result := Stat_result env;
  RemoveAll_result := RemoveAll_result env;
  ReadFile_result := ReadFile_result env;
  WriteFile_result := WriteFile_result env;
  Dial_result := Dial_result env;
  ticks_before_timeout := ticks_before_timeout env;
  NewSession_result := NewSession_result env;
  Run_result := Run_result env;
  Fprintln_result := Fprintln_result env;
  Copy_result := Copy_result env;
  BoshOutput_result := BoshOutput_result env;
  Exec_result := Exec_result env
|}.

Definition with_NewSession (env : Env) (f : Trace -> Client -> option error) : Env := {|
  GOOS := GOOS env;
  StatusRunning := StatusRunning env;
  filepath_Join := filepath_Join env;
  filepath_Dir := filepath_Dir env;
  strings_TrimSpace := strings_TrimSpace env;
  ssh_ParsePrivateKey := ssh_ParsePrivateKey env;
  IP_result := IP_result env;
  Create_result := Create_result env;
  Stat_result := Stat_result env;
  RemoveAll_result := RemoveAll_result env;
  ReadFile_result := ReadFile_result env;
  WriteFile_result := WriteFile_result env;
  Dial_result := Dial_result env;
  ticks_before_timeout := ticks_before_timeout env;
  NewSession_result := f;
  Run_result := Run_result env;
  Fprintln_result := Fprintln_result env;
  Copy_result := Copy_result env;
  BoshOutput_result := BoshOutput_result env;
  Exec_result := Exec_result env
|}.

Definition with_Stat (env : Env) (f : Trace -> string -> option error) : Env := {|
  GOOS := GOOS env;
  StatusRunning := StatusRunning env;
  filepath_Join := filepath_Join env;
  filepath_Dir := filepath_Dir env;
  strings_TrimSpace := strings_TrimSpace env;
  ssh_ParsePrivateKey := ssh_ParsePrivateKey env;
  IP_result := IP_result env;
  Create_result := Create_result env;
  Stat_result := f;
  RemoveAll_result := RemoveAll_result env;
  ReadFile_result := ReadFile_result env;
  WriteFile_result := WriteFile_result env;
  Dial_result := Dial_result env;
  ticks_before_timeout := ticks_before_timeout env;
  NewSession_result := NewSession_result env;
  Run_result := Run_result env;
  Fprintln_result := Fprintln_result env;
  Copy_result := Copy_result env;
  BoshOutput_result := BoshOutput_result env;
  Exec_result := Exec_result env
|}.

Definition darwin_env : Env := with_GOOS calm_env "darwin".

Definition channel_refused : error := ErrorString "ssh: rejected: administratively prohibited".

Definition no_channel_env : Env := with_NewSession calm_env (fun _ _ => Some channel_refused).

(** A path is gone once [os.RemoveAll] was called on it. *)
Definition removed (path : string) (e : Event) : bool :=
  match e with
  | EvRemoveAll p => String.eqb p path
  | _ => false
  end.

Definition removing_env : Env :=
  with_Stat calm_env
    (fun t path =>
       if existsb (removed path) t
       then Some (ErrNotExist "stat: no such file or directory")
       else None).

Definition three_ops : list Op :=
  [OpSendData hello "director.yml"; OpRun "id"; OpRetrieveFile "state.json" "state.json"].




Fixpoint contains_char (c : ascii) (s : string) : bool :=
  match s with
  | EmptyString => false
  | String x s' => Ascii.eqb x c || contains_char c s'
  end.

Definition is_exec (e : Event) : bool :=
  match e with
  | EvExec _ _ => true
  | _ => false
  end.

(** ** pkg/servicew/client/client.go: [Install] and [copyBinary]

    These two functions make calls that the rest of the code does not make
    (change a mode, open a file, copy a file into another, encode a
    definition).  They get events and an environment of their own, in the
    same style. *)

Module Installer.

Inductive Call : Type :=
| Create (path : string)
| Chmod (path : string) (mode : Z)
| Open (path : string)
| Copy (dest src : string)
| CloseFile (path : string)
| Encode (path : string)
| Command (path : string) (args : list string).

Definition History := list Call.

Definition MI (A : Type) : Type := History -> A * History.

Definition iret {A : Type} (a : A) : MI A := fun h => (a, h).

Definition ibind {A B : Type} (m : MI A) (k : A -> MI B) : MI B :=
  fun h => let (a, h') := m h in k a h'.

Definition icall {A : Type} (c : Call) (outcome : History -> A) : MI A :=
  fun h => (outcome h, (h ++ [c])%list).

Notation "x <~ m ;; k" := (ibind m (fun x => k))
  (at level 61, m at next level, right associativity).
Notation "m ;;~ k" := (ibind m (fun _ => k))
  (at level 61, right associativity).

Section WithConfig.

(** [config.Config], of a package that is not among the sources, and its
    field [Label]. *)
Variable ServiceConfig : Type.
Variable Label : ServiceConfig -> string.

(** Outcomes of the calls, given the history. *)
Record World : Type := {
  Create_outcome : History -> string -> option error;
  Chmod_outcome : History -> string -> Z -> option error;
  Open_outcome : History -> string -> option error;
  Copy_outcome : History -> string -> string -> option error;
  Encode_outcome : History -> string -> ServiceConfig -> option error;
  Command_outcome : History -> string -> list string -> bytes * option error
}.

Variable env : Env.
Variable w : World.

(** [func copyBinary(src string, dest string) error] *)
Definition copyBinary (src dest : string) : MI (option error) :=
  r <~ icall (Create dest) (fun h => Create_outcome w h dest) ;;
  match r with
  | Some err => iret (Some err)
  | None =>
      result <~
        (r <~ icall (Chmod dest 484 (* 0744 *)) (fun h => Chmod_outcome w h dest 484) ;;
         match r with
         | Some err => iret (Some err)
         | None =>
             r <~ icall (Open src) (fun h => Open_outcome w h src) ;;
             match r with
             | Some err => iret (Some err)
             | None =>
                 result <~ icall (Copy dest src) (fun h => Copy_outcome w h dest src) ;;
                 (* defer binData.Close() *)
                 icall (CloseFile src) (fun _ => tt) ;;~
                 iret result
             end
         end) ;;
      (* defer target.Close() *)
      icall (CloseFile dest) (fun _ => tt) ;;~
      iret result
  end.

(** [func (s *ServiceWrapper) Install(cfg config.Config) error] *)
Definition Install (s : ServiceWrapper) (cfg : ServiceConfig) : MI (option error) :=
  let swrapperPath := swrapperPath env s (Label cfg) in
  let definitionConfig := swrapperPath ++ ".yml" in
  err <~ copyBinary (binaryPath s) swrapperPath ;;
  match err with
  | Some err => iret (Some err)
  | None =>
      r <~ icall (Create definitionConfig) (fun h => Create_outcome w h definitionConfig) ;;
      match r with
      | Some err => iret (Some err)
      | None =>
          result <~
            (err <~ icall (Encode definitionConfig)
                      (fun h => Encode_outcome w h definitionConfig cfg) ;;
             match err with
             | Some err => iret (Some err)
             | None =>
                 r <~ icall (Command swrapperPath ["install"])
                        (fun h => Command_outcome w h swrapperPath ["install"]) ;;
                 match snd r with
                 | Some err =>
                     iret (Some (fmt_Errorf
                                   ("failed to install " ++ quoted (Label cfg) ++ ": "
                                    ++ Error_text err ++ ": "
                                    ++ string_of_list_byte (fst r))))
                 | None => iret None
                 end
             end) ;;
          (* defer f.Close() *)
          icall (CloseFile definitionConfig) (fun _ => tt) ;;~
          iret result
      end
  end.

(** The calls of a copy that went through. *)
Definition copy_script (src dest : string) : list Call :=
  [Create dest; Chmod dest 484; Open src; Copy dest src; CloseFile src; CloseFile dest].

(** The calls of an installation that reached the [install] command. *)
Definition install_script (s : ServiceWrapper) (cfg : ServiceConfig) : list Call :=
  let path := swrapperPath env s (Label cfg) in
  (copy_script (binaryPath s) path
   ++ [Create (path ++ ".yml"); Encode (path ++ ".yml");
       Command path ["install"]; CloseFile (path ++ ".yml")])%list.

End WithConfig.

Arguments Create_outcome {ServiceConfig} w.
Arguments Chmod_outcome {ServiceConfig} w.
Arguments Open_outcome {ServiceConfig} w.
Arguments Copy_outcome {ServiceConfig} w.
Arguments Encode_outcome {ServiceConfig} w.
Arguments Command_outcome {ServiceConfig} w.
Arguments copyBinary {ServiceConfig} w src dest.
Arguments Install {ServiceConfig} Label env w s cfg.
Arguments install_script {ServiceConfig} Label env s cfg.

Definition is_command (c : Call) : bool :=
  match c with
  | Command _ _ => true
  | _ => false
  end.

(** A configuration that is its label, and a world in which every call
    succeeds. *)
Definition calm_world : World string := {|
  Create_outcome := fun _ _ => None;
  Chmod_outcome := fun _ _ _ => None;
  Open_outcome := fun _ _ => None;
  Copy_outcome := fun _ _ _ => None;
  Encode_outcome := fun _ _ _ => None;
  Command_outcome := fun _ _ _ => ([], None)
|}.

(** As [calm_world], but no definition can be encoded. *)
Definition unencodable_world : World string := {|
  Create_outcome := fun _ _ => None;
  Chmod_outcome := fun _ _ _ => None;
  Open_outcome := fun _ _ => None;
  Copy_outcome := fun _ _ _ => None;
  Encode_outcome := fun _ _ _ => Some (ErrorString "yaml: unsupported type");
  Command_outcome := fun _ _ _ => ([], None)
|}.

(** As [calm_world], but the mode of no file can be changed. *)
Definition readonly_world : World string := {|
  Create_outcome := fun _ _ => None;
  Chmod_outcome := fun _ _ _ => Some (ErrorString "chmod: operation not permitted");
  Open_outcome := fun _ _ => None;
  Copy_outcome := fun _ _ _ => None;
  Encode_outcome := fun _ _ _ => None;
  Command_outcome := fun _ _ _ => ([], None)
|}.

End Installer.

Definition with_Exec (env : Env)
  (f : Trace -> string -> list string -> bytes * option error) : Env := {|
  GOOS := GOOS env;
  StatusRunning := StatusRunning env;
  filepath_Join := filepath_Join env;
  filepath_Dir := filepath_Dir env;
  strings_TrimSpace := strings_TrimSpace env;
  ssh_ParsePrivateKey := ssh_ParsePrivateKey env;
  IP_result := IP_result env;
  Create_result := Create_result env;
  Stat_result := Stat_result env;
  RemoveAll_result := RemoveAll_result env;
  ReadFile_result := ReadFile_result env;
  WriteFile_result := WriteFile_result env;
  Dial_result := Dial_result env;
  ticks_before_timeout := ticks_before_timeout env;
  NewSession_result := NewSession_result env;
  Run_result := Run_result env;
  Fprintln_result := Fprintln_result env;
  Copy_result := Copy_result env;
  BoshOutput_result := BoshOutput_result env;
  Exec_result := f
|}.

(** As [calm_env], but every wrapper prints [Running]. *)
Definition running_env : Env :=
  with_Exec calm_env (fun _ _ _ => (bytes_of_string "Running", None)).

Definition vpnkit_label : string := "org.cloudfoundry.cfdev.vpnkit".

(** ** The credentials branch: what a run that went through has done *)

(** The deploy command ran with the command line [command], once. *)
Definition deploy_ran (command : string) (evs : list Event) : Prop :=
  exists before out err rest,
    evs = (before ++ EvSessionRun command out err :: rest)%list /\
    forallb quiet before = true /\
    forallb quiet rest = true.

(** The deploy command ran once, with the vars-store flag, and before it the
    credentials file was read and uploaded in full. *)
Definition creds_uploaded_then_deployed (env : Env) (credsPath : string)
  (evs : list Event) : Prop :=
  exists before out err rest,
    evs = (before ++ EvSessionRun create_env_command_with_creds out err :: rest)%list /\
    forallb quiet before = true /\
    forallb quiet rest = true /\
    exists pre s data t0 post,
      before = (pre ++ EvReadFile credsPath
                :: upload_events env s data "creds.yml" t0 ++ post)%list.

(** Either the run has failed without running the deploy command, or [G]
    holds of its events. *)
Definition settled {A : Type} (G : list Event -> Prop) (failed : A -> Prop)
  (a : A) (evs : list Event) : Prop :=
  (failed a /\ forallb quiet evs = true) \/ G evs.

(** A channel can always be opened. *)
Definition channels_open (env : Env) : Prop :=
  forall t c, NewSession_result env t c = None.


(** Every call that [DeployBosh] makes on its way to the session operations
    succeeds: the address is known, the log file is created, the private key
    is read and parses, a dial attempt is made and succeeds, the director
    configuration and the state file are read, and channels open.  Nothing
    is asked of the remote commands, of the writes to a pipe or of the calls
    that follow the deploy command. *)
Record reaches_deploy (env : Env) (c : Config) : Prop := {
  address_known : forall t, exists ip, IP_result env t c = inl ip;
  log_created :
    forall t, Create_result env t (filepath_Join env (LogDir c) "deploy-bosh.log") = None;
  key_readable : always_readable env (filepath_Join env (StateDir c) "id_rsa");
  key_parses :
    forall t key,
      ReadFile_result env t (filepath_Join env (StateDir c) "id_rsa") = inl key ->
      exists signer, ssh_ParsePrivateKey env key = inl signer;
  time_for_a_dial : forall t d, 0 < ticks_before_timeout env t d;
  dial_accepted : forall t addr config, exists cl, Dial_result env t addr config = inl cl;
  director_readable : always_readable env (filepath_Join env (StateBosh c) "director.yml");
  state_readable : always_readable env (filepath_Join env (StateBosh c) "state.json");
  channels : channels_open env
}.

(** As [calm_env], but the first dial attempt is accepted, and with [stat]
    for [os.Stat]. *)
Definition prompt_env (stat : option error) : Env := {|
  GOOS := GOOS calm_env;
  StatusRunning := StatusRunning calm_env;
  filepath_Join := filepath_Join calm_env;
  filepath_Dir := filepath_Dir calm_env;
  strings_TrimSpace := strings_TrimSpace calm_env;
  ssh_ParsePrivateKey := ssh_ParsePrivateKey calm_env;
  IP_result := IP_result calm_env;
  Create_result := Create_result calm_env;
  Stat_result := fun _ _ => stat;
  RemoveAll_result := RemoveAll_result calm_env;
  ReadFile_result := ReadFile_result calm_env;
  WriteFile_result := WriteFile_result calm_env;
  Dial_result := fun _ _ _ => inl (ClientConn 0);
  ticks_before_timeout := ticks_before_timeout calm_env;
  NewSession_result := NewSession_result calm_env;
  Run_result := Run_result calm_env;
  Fprintln_result := Fprintln_result calm_env;
  Copy_result := Copy_result calm_env;
  BoshOutput_result := BoshOutput_result calm_env;
  Exec_result := Exec_result calm_env
|}.

Definition not_there : error := ErrNotExist "stat: no such file or directory".
(** * Properties *)

(** ** The monad and the session operations *)

Ltac run_monad := unfold bind, ret, call in *; cbn [fst snd] in *.

Ltac flatten_app :=
  rewrite <- ?app_assoc; cbn [app]; rewrite <- ?app_assoc; cbn [app].

Section SessionFacts.

Variable env : Env.

Lemma Run_sticky s command t e :
  Error s = Some e -> Run env s command t = (s, t).
Proof. intros H. unfold Run. now rewrite H. Qed.

Lemma SendData_sticky s srcData remote t e :
  Error s = Some e -> SendData env s srcData remote t = (s, t).
Proof. intros H. unfold SendData. now rewrite H. Qed.

Lemma SendFile_sticky s filePath remote t e :
  Error s = Some e -> SendFile env s filePath remote t = (s, t).
Proof. intros H. unfold SendFile. now rewrite H. Qed.

Lemma RetrieveFile_sticky s filePath remote t e :
  Error s = Some e -> RetrieveFile env s filePath remote t = (s, t).
Proof. intros H. unfold RetrieveFile. now rewrite H. Qed.




Lemma SendData_opened s srcData remote t :
  Error s = None ->
  NewSession_result env t (client s) = None ->
  SendData env s srcData remote t = (s, (t ++ upload_events env s srcData remote t)%list).
Proof.
  intros He Hn. unfold SendData, upload_events. rewrite He.
  unfold client_NewSession, session_StdinPipe, fmt_Fprintln, io_Copy, pipe_Close,
    session_Run, session_Close, fmt_Print.
  run_monad. rewrite Hn.
  repeat rewrite <- app_assoc. cbn [app].
  destruct (Copy_result env _ srcData); cbn [app]; repeat rewrite <- app_assoc; reflexivity.
Qed.

Lemma SendData_refused s srcData remote t err :
  Error s = None ->
  NewSession_result env t (client s) = Some err ->
  SendData env s srcData remote t =
  (set_Error s (Some err), (t ++ [EvNewSession (client s)])%list).
Proof.
  intros He Hn. unfold SendData. rewrite He.
  unfold client_NewSession. run_monad. now rewrite Hn.
Qed.

End SessionFacts.

(** ** [filepath.Base] on a path that ends in a file name *)

Lemma string_app_assoc (a b c : string) : (a ++ b) ++ c = a ++ (b ++ c).
Proof.
  induction a as [|x a IH]; cbn.
  - reflexivity.
  - now rewrite IH.
Qed.

Section BaseFacts.

Import GoLib.

Lemma last_element_name name :
  has_sep name = false -> last_element name = name.
Proof.
  destruct name as [|c name']; cbn; intros H.
  - reflexivity.
  - now rewrite H.
Qed.

Lemma has_sep_app a b : has_sep (a ++ b) = has_sep a || has_sep b.
Proof.
  induction a as [|c a IH]; cbn.
  - reflexivity.
  - now rewrite IH, orb_assoc.
Qed.

Lemma last_element_after_sep dir name :
  has_sep name = false -> last_element (dir ++ "/" ++ name) = name.
Proof.
  intros H. induction dir as [|c dir IH]; cbn.
  - apply last_element_name, H.
  - rewrite has_sep_app. cbn. rewrite orb_true_r. cbn. rewrite orb_true_r. exact IH.
Qed.

Lemma strip_trailing_seps_name name :
  name <> EmptyString -> has_sep name = false -> strip_trailing_seps name = name.
Proof.
  induction name as [|c name IH]; intros Hne H.
  - congruence.
  - cbn in H. apply orb_false_iff in H. destruct H as [Hc Hs].
    cbn. destruct name as [|d name'].
    + cbn. now rewrite Hc.
    + rewrite IH by (congruence || assumption). reflexivity.
Qed.

Lemma strip_trailing_seps_app a b :
  strip_trailing_seps b <> EmptyString ->
  strip_trailing_seps (a ++ b) = a ++ strip_trailing_seps b.
Proof.
  intros Hb. induction a as [|c a IH]; cbn.
  - reflexivity.
  - rewrite IH. destruct (a ++ strip_trailing_seps b) eqn:E; [|reflexivity].
    destruct a; cbn in E; congruence.
Qed.

Lemma filepath_Base_of_file dir name :
  name <> EmptyString -> has_sep name = false ->
  filepath_Base (dir ++ "/" ++ name) = name.
Proof.
  intros Hne H. unfold filepath_Base.
  assert (Hs : strip_trailing_seps ("/" ++ name) = "/" ++ name).
  { cbn. rewrite (strip_trailing_seps_name name Hne H).
    destruct name; [congruence | reflexivity]. }
  rewrite strip_trailing_seps_app by (rewrite Hs; discriminate).
  rewrite Hs, (last_element_after_sep dir name H).
  destruct (dir ++ "/" ++ name) eqn:E.
  - destruct dir; discriminate.
  - destruct name; [congruence | reflexivity].
Qed.

End BaseFacts.

(** ** The session: sticky error, local failures, upload *)


(** C9. With an empty slot, [SendFile] whose read of the local file fails
    stores that error and returns after the read alone, and [RetrieveFile]
    whose creation of the local file fails stores that error and returns
    after the creation attempt alone: no channel is opened and nothing is
    sent or received. *)
Theorem local_io_failure_aborts (env : Env) (s : SSH) (t : Trace) :
  Error s = None ->
  (forall filePath remote err,
      ReadFile_result env t filePath = inr err ->
      SendFile env s filePath remote t =
      (set_Error s (Some err), (t ++ [EvReadFile filePath])%list)) /\
  (forall filePath remote err,
      Create_result env t filePath = Some err ->
      RetrieveFile env s filePath remote t =
      (set_Error s (Some err), (t ++ [EvCreate filePath])%list)).
Proof.
  intros He. split; intros filePath remote err H.
  - unfold SendFile, ioutil_ReadFile. rewrite He. run_monad. now rewrite H.
  - unfold RetrieveFile, os_Create. rewrite He. run_monad. now rewrite H.
Qed.

(** C2, amended. With an empty slot at entry, the slot after [SendData] holds
    exactly the outcome of opening the channel: an error when [NewSession]
    fails, and nothing otherwise, whatever becomes of the writes to the pipe
    and of the remote receiving command.  When the channel opens the session
    is returned as it was, and the only trace of a failed copy is the call
    to [fmt.Print]. *)
Theorem upload_stores_only_channel_error (env : Env) (s : SSH) (srcData : bytes)
  (remote : string) (t : Trace) :
  Error s = None ->
  Error (fst (SendData env s srcData remote t)) = NewSession_result env t (client s) /\
  (NewSession_result env t (client s) = None ->
   SendData env s srcData remote t =
   (s, (t ++ upload_events env s srcData remote t)%list)).
Proof.
  intros He. split.
  - destruct (NewSession_result env t (client s)) as [err|] eqn:Hn.
    + now rewrite (SendData_refused env s srcData remote t err He Hn).
    + now rewrite (SendData_opened env s srcData remote t He Hn).
  - intros Hn. now apply SendData_opened.
Qed.

(** C3. An upload of [srcData] to [dir/name], once its channel is open, hands
    to the stdin of the remote command the line [C0755 L name], where [L] is
    the length of [srcData] in decimal, then the bytes of [srcData], then a
    line that holds the one byte NUL; with an empty payload the header reads
    [C0755 0 name] and the terminator follows it directly.  The mode is the
    constant of the source: [SendData] takes no mode. *)
Theorem upload_framing (env : Env) (s : SSH) (srcData : bytes) (dir name : string)
  (t : Trace) :
  Error s = None ->
  NewSession_result env t (client s) = None ->
  name <> EmptyString ->
  GoLib.has_sep name = false ->
  exists evs,
    snd (SendData env s srcData (dir ++ "/" ++ name) t) = (t ++ evs)%list /\
    stdin_bytes evs =
    (bytes_of_string ("C0755 " ++ GoLib.itoa (Z.of_nat (List.length srcData))
                      ++ " " ++ name ++ GoLib.newline)
     ++ srcData
     ++ bytes_of_string (GoLib.NUL ++ GoLib.newline))%list /\
    (srcData = [] ->
     stdin_bytes evs =
     (bytes_of_string ("C0755 0 " ++ name ++ GoLib.newline)
      ++ bytes_of_string (GoLib.NUL ++ GoLib.newline))%list).
Proof.
  intros He Hn Hne Hsep.
  exists (upload_events env s srcData (dir ++ "/" ++ name) t).
  assert (Hb : stdin_bytes (upload_events env s srcData (dir ++ "/" ++ name) t) =
    (bytes_of_string ("C0755 " ++ GoLib.itoa (Z.of_nat (List.length srcData))
                      ++ " " ++ name ++ GoLib.newline)
     ++ srcData
     ++ bytes_of_string (GoLib.NUL ++ GoLib.newline))%list).
  { unfold upload_events, stdin_bytes.
    rewrite (filepath_Base_of_file dir name Hne Hsep).
    destruct (Copy_result env _ srcData); cbn [app flat_map wire];
      unfold GoLib.Sprintln; cbn [GoLib.join_spaces];
      rewrite ?app_nil_r, !string_app_assoc; reflexivity. }
  split; [|split].
  - now rewrite (SendData_opened env s srcData (dir ++ "/" ++ name) t He Hn).
  - exact Hb.
  - intros ->. rewrite Hb. reflexivity.
Qed.

(** ** The dial loop *)

Section DialFacts.

Variable env : Env.
Variables (addr : string) (config : ClientConfig).

Local Notation "'att'" := (attempt env addr config).
Local Notation "'att_error'" := (attempt_error env addr config).
Local Notation "'last_error'" := (last_dial_error env addr config).

Lemma attempt_shift t j :
  att (t ++ [EvDial "tcp" addr config])%list j = att t (S j).
Proof. unfold attempt. now rewrite <- app_assoc. Qed.

Lemma dial_loop_timeout n : forall err t,
  (forall j, j < n -> att_error t j <> None) ->
  dial_loop env addr config n err t =
  ((None, Some (fmt_Errorf ("ssh connection timed out: "
                            ++ fmt_s (last_error t n err)))),
   (t ++ repeat (EvDial "tcp" addr config) n)%list).
Proof.
  induction n as [|n IH]; intros err t Hfail.
  - cbn. unfold ret. now rewrite app_nil_r.
  - cbn [dial_loop]. unfold ssh_Dial. run_monad.
    assert (H0 := Hfail 0 (Nat.lt_0_succ n)).
    unfold attempt_error, attempt in H0. cbn [repeat] in H0. rewrite app_nil_r in H0.
    destruct (Dial_result env t addr config) as [c|e] eqn:Hd; [congruence|].
    rewrite IH.
    + cbn [repeat]. rewrite <- app_assoc. cbn [app]. f_equal. f_equal. f_equal.
      f_equal. f_equal.
      destruct n as [|m]; cbn [last_dial_error].
      * unfold attempt_error, attempt. cbn [repeat]. now rewrite app_nil_r, Hd.
      * unfold attempt_error. now rewrite attempt_shift.
    + intros j Hj. unfold attempt_error. rewrite attempt_shift.
      apply (Hfail (S j)). lia.
Qed.

Lemma dial_loop_success k : forall n err t c,
  k < n ->
  (forall j, j < k -> att_error t j <> None) ->
  att t k = inl c ->
  dial_loop env addr config n err t =
  ((Some c, None), (t ++ repeat (EvDial "tcp" addr config) (S k))%list).
Proof.
  induction k as [|k IH]; intros n err t c Hk Hfail Hok.
  - destruct n as [|n]; [lia|]. cbn [dial_loop]. unfold ssh_Dial. run_monad.
    unfold attempt in Hok. cbn [repeat] in Hok. rewrite app_nil_r in Hok.
    now rewrite Hok.
  - destruct n as [|n]; [lia|]. cbn [dial_loop]. unfold ssh_Dial. run_monad.
    assert (H0 := Hfail 0 (Nat.lt_0_succ k)).
    unfold attempt_error, attempt in H0. cbn [repeat] in H0. rewrite app_nil_r in H0.
    destruct (Dial_result env t addr config) as [c0|e] eqn:Hd; [congruence|].
    rewrite (IH n (Some e) (t ++ [EvDial "tcp" addr config])%list c).
    + cbn [repeat]. now rewrite <- app_assoc.
    + lia.
    + intros j Hj. unfold attempt_error. rewrite attempt_shift.
      apply (Hfail (S j)). lia.
    + now rewrite attempt_shift.
Qed.

Lemma dial_loop_exactly_one n : forall err t,
  (exists c, fst (dial_loop env addr config n err t) = (Some c, None)) \/
  (exists e, fst (dial_loop env addr config n err t) = (None, Some e)).
Proof.
  induction n as [|n IH]; intros err t.
  - right. cbn. eauto.
  - cbn [dial_loop]. unfold ssh_Dial. run_monad.
    destruct (Dial_result env t addr config) as [c|e].
    + left. cbn. eauto.
    + apply IH.
Qed.

End DialFacts.

Lemma waitForSSH_exactly_one env ip port key timeout t :
  (exists c, fst (waitForSSH env ip port key timeout t) = (Some c, None)) \/
  (exists e, fst (waitForSSH env ip port key timeout t) = (None, Some e)).
Proof.
  unfold waitForSSH. destruct (ssh_ParsePrivateKey env key) as [signer|err].
  - apply dial_loop_exactly_one.
  - right. cbn. eauto.
Qed.

(** C5. [waitForSSH] returns either a client and no error, or no client and
    an error, never both and never neither.  When the key parses and the
    timeout comes after [n] ticks: if attempt [k < n] is the first that
    succeeds, the result is its client, and exactly [k + 1] dial attempts
    were made, none after the success; if none of the [n] attempts
    succeeds, the result is the error "ssh connection timed out: " followed
    by the text of the last dial error, and by the rendering of [nil] when
    the timeout came before any attempt. *)
Theorem waitForSSH_client_or_timeout (env : Env) (ip port : string) (key : bytes)
  (timeout : Duration) (t : Trace) :
  ((exists c, fst (waitForSSH env ip port key timeout t) = (Some c, None)) \/
   (exists e, fst (waitForSSH env ip port key timeout t) = (None, Some e))) /\
  (forall signer, ssh_ParsePrivateKey env key = inl signer ->
     let addr := ip ++ ":" ++ port in
     let config := client_config signer in
     let n := ticks_before_timeout env t timeout in
     (forall k c,
         k < n ->
         (forall j, j < k -> attempt_error env addr config t j <> None) ->
         attempt env addr config t k = inl c ->
         waitForSSH env ip port key timeout t =
         ((Some c, None), (t ++ repeat (EvDial "tcp" addr config) (S k))%list)) /\
     ((forall j, j < n -> attempt_error env addr config t j <> None) ->
      waitForSSH env ip port key timeout t =
      ((None, Some (fmt_Errorf ("ssh connection timed out: "
                                ++ fmt_s (last_dial_error env addr config t n None)))),
       (t ++ repeat (EvDial "tcp" addr config) n)%list)) /\
     (n = 0 ->
      waitForSSH env ip port key timeout t =
      ((None, Some (fmt_Errorf "ssh connection timed out: %!s(<nil>)")), t))).
Proof.
  split; [apply waitForSSH_exactly_one|].
  intros signer Hkey addr config n. unfold waitForSSH. rewrite Hkey.
  fold addr config n. split; [|split].
  - intros k c Hk Hfail Hok. now apply dial_loop_success.
  - intros Hfail. now apply dial_loop_timeout.
  - intros Hn. rewrite Hn. reflexivity.
Qed.

(** C6. A private key that does not parse makes [waitForSSH], and [NewSSH]
    around it, return the error "could not parse private key: ..." at once:
    the trace is unchanged, so no dial attempt was made, whatever the
    number of ticks the timeout would have allowed. *)
Theorem malformed_key_fails_fast (env : Env) (ip port : string) (key : bytes)
  (timeout : Duration) (out err : Writer) (t : Trace) (perr : error) :
  ssh_ParsePrivateKey env key = inr perr ->
  waitForSSH env ip port key timeout t =
  ((None, Some (fmt_Errorf ("could not parse private key: " ++ Error_text perr))), t) /\
  NewSSH env ip port key timeout out err t =
  ((None, Some (fmt_Errorf ("could not parse private key: " ++ Error_text perr))), t).
Proof.
  intros Hkey.
  assert (Hw : waitForSSH env ip port key timeout t =
    ((None, Some (fmt_Errorf ("could not parse private key: " ++ Error_text perr))), t)).
  { unfold waitForSSH. now rewrite Hkey. }
  split; [exact Hw|].
  unfold NewSSH, bind. now rewrite Hw.
Qed.

(** ** The service wrapper client *)

(** C10. When [os.Stat] of the wrapper executable of a label reports that it
    does not exist, [Uninstall] and [Stop] return [nil] and [IsRunning]
    returns [(false, nil)], and the only call any of them made is that
    [os.Stat]: no command was started and nothing was removed. *)
Theorem absent_wrapper_is_not_an_error (env : Env) (s : ServiceWrapper)
  (label : string) (t : Trace) :
  os_IsNotExist (Stat_result env t (swrapperPath env s label)) = true ->
  Uninstall env s label t = (None, (t ++ [EvStat (swrapperPath env s label)])%list) /\
  Stop env s label t = (None, (t ++ [EvStat (swrapperPath env s label)])%list) /\
  IsRunning env s label t =
  ((false, None), (t ++ [EvStat (swrapperPath env s label)])%list).
Proof.
  intros H. unfold Uninstall, Stop, IsRunning, swrapperNotExist, os_Stat.
  run_monad. rewrite H. auto.
Qed.

(** ** The literal substitution *)

Section ReplaceFacts.

Import GoLib.

Lemma bytes_Contains_cons c s old :
  bytes_Contains (c :: s) old = false ->
  has_prefix old (c :: s) = false /\ bytes_Contains s old = false.
Proof.
  cbn [bytes_Contains]. intros H. now apply orb_false_iff in H.
Qed.

Lemma bytes_Replace_absent old new s :
  bytes_Contains s old = false -> bytes_Replace s old new = s.
Proof.
  unfold bytes_Replace. induction s as [|c s IH]; intros H.
  - reflexivity.
  - apply bytes_Contains_cons in H. destruct H as [Hp Hc].
    cbn [replace_from]. rewrite Hp. f_equal. now apply IH.
Qed.

Lemma patch_director_absent ip text :
  bytes_Contains text gateway_literal = false ->
  bytes_Contains text nameserver_literal = false ->
  patch_director ip text = text.
Proof.
  intros Hg Hn. unfold patch_director.
  fold gateway_literal nameserver_literal.
  rewrite (bytes_Replace_absent gateway_literal _ text Hg).
  now apply bytes_Replace_absent.
Qed.

End ReplaceFacts.

(** C7, amended. The substitution leaves unchanged every text that holds
    neither the gateway literal with its port nor the nameserver literal;
    so a second application changes nothing whenever the result of the
    first holds neither of them. *)
Theorem kvm_substitution_noop_when_absent (ip : string) (text : bytes) :
  (GoLib.bytes_Contains text gateway_literal = false ->
   GoLib.bytes_Contains text nameserver_literal = false ->
   patch_director ip text = text) /\
  (GoLib.bytes_Contains (patch_director ip text) gateway_literal = false ->
   GoLib.bytes_Contains (patch_director ip text) nameserver_literal = false ->
   patch_director ip (patch_director ip text) = patch_director ip text).
Proof.
  split; intros Hg Hn; now apply patch_director_absent.
Qed.

(** C7, as stated, fails: in [overlapped_text] two occurrences of the
    nameserver literal share a byte, the first pass replaces the left one
    only, and the replacement completes a new occurrence that the second
    pass replaces. *)
Lemma kvm_substitution_not_idempotent : ~ kvm_substitution_idempotent.
Proof.
  intros H. specialize (H "10.0.0.5" overlapped_text).
  vm_compute in H. discriminate H.
Qed.

(** ** What a program adds to the trace *)

Section Emits.

Context {P : Event -> bool}.

Lemma emits_ret {A} (Q : A -> Prop) (a : A) : Q a -> emits P Q (ret a).
Proof.
  intros H t. exists []. cbn. now rewrite app_nil_r.
Qed.

Lemma emits_call {A} (Q : A -> Prop) (e : Event) (f : Trace -> A) :
  P e = true -> (forall t, Q (f t)) -> emits P Q (call e f).
Proof.
  intros He Hq t. exists [e]. cbn. now rewrite He.
Qed.

Lemma emits_bind {A B} (Q : A -> Prop) (R : B -> Prop) (m : M A) (k : A -> M B) :
  emits P Q m -> (forall a, Q a -> emits P R (k a)) -> emits P R (bind m k).
Proof.
  intros Hm Hk t. unfold bind.
  destruct (Hm t) as (e1 & H1 & F1 & Q1).
  destruct (m t) as [a t1]. cbn in H1, Q1. subst t1.
  destruct (Hk a Q1 (t ++ e1)%list) as (e2 & H2 & F2 & Q2).
  exists (e1 ++ e2)%list. rewrite H2, app_assoc, forallb_app, F1, F2. auto.
Qed.

Lemma emits_bind_any {A B} (R : B -> Prop) (m : M A) (k : A -> M B) :
  emits P (fun _ => True) m -> (forall a, emits P R (k a)) -> emits P R (bind m k).
Proof.
  intros Hm Hk. apply emits_bind with (Q := fun _ => True); auto.
Qed.

End Emits.

(** One step of a proof that a program only adds events that pass a test
    which computes on them. *)
Ltac emits_step side :=
  first
    [ apply emits_ret; exact I
    | apply emits_call; [side | intros; exact I]
    | apply emits_bind_any; [ | intros ]
    | match goal with
      | |- emits _ _ (match ?x with _ => _ end) => destruct x
      end ].

Ltac emits_auto side := repeat (emits_step side).

Ltac unfold_calls :=
  unfold driver_IP, os_Create, file_Close, os_Stat, os_RemoveAll, ioutil_ReadFile,
    ioutil_WriteFile, ssh_Dial, client_Close, client_NewSession, session_Close,
    session_Run, session_StdinPipe, fmt_Fprintln, io_Copy, pipe_Close, fmt_Print,
    time_Sleep, bosh_Output, exec_Output.

Section DeployEmits.

Variable env : Env.
Variable P : Event -> bool.

Hypothesis P_plain : forall e,
  match e with
  | EvFprintln _ | EvSessionRun _ _ _ | EvBoshOutput _ => True
  | _ => P e = true
  end.

Lemma P_dial network addr config : P (EvDial network addr config) = true.
Proof. exact (P_plain (EvDial network addr config)). Qed.

Lemma dial_loop_emits addr config n : forall err,
  emits P (fun _ => True) (dial_loop env addr config n err).
Proof.
  induction n as [|n IH]; intros err; cbn [dial_loop].
  - apply emits_ret. exact I.
  - apply emits_bind_any.
    + apply emits_call; [apply P_dial | intros; exact I].
    + intros [c|e]; [apply emits_ret; exact I | apply IH].
Qed.

Lemma NewSSH_emits ip port key timeout out err :
  emits P (fun _ => True) (NewSSH env ip port key timeout out err).
Proof.
  unfold NewSSH. apply emits_bind_any.
  - unfold waitForSSH. destruct (ssh_ParsePrivateKey env key).
    + intros t. cbv beta zeta. apply (dial_loop_emits _ _ _ _ t).
    + apply emits_ret. exact I.
  - intros [[c|] [e|]]; apply emits_ret; exact I.
Qed.

Ltac side_P :=
  idtac;
  match goal with
  | |- P ?e = true => first [ exact (P_plain e) | solve [auto] ]
  end.

Lemma SendData_emits s srcData remote :
  (forall L, P (EvFprintln ["C0755"; L; GoLib.filepath_Base remote]) = true) ->
  P (EvFprintln [GoLib.NUL]) = true ->
  (forall out err,
      P (EvSessionRun ("/usr/bin/scp -qt " ++ filepath_Dir env remote) out err) = true) ->
  emits P (fun _ => True) (SendData env s srcData remote).
Proof.
  intros Hh Hn Hr. unfold SendData. unfold_calls. emits_auto side_P.
Qed.

Lemma SendFile_emits s filePath remote :
  (forall L, P (EvFprintln ["C0755"; L; GoLib.filepath_Base remote]) = true) ->
  P (EvFprintln [GoLib.NUL]) = true ->
  (forall out err,
      P (EvSessionRun ("/usr/bin/scp -qt " ++ filepath_Dir env remote) out err) = true) ->
  emits P (fun _ => True) (SendFile env s filePath remote).
Proof.
  intros Hh Hn Hr. unfold SendFile. unfold_calls.
  emits_auto side_P. now apply SendData_emits.
Qed.

Lemma Run_emits s command :
  (forall out err, P (EvSessionRun command out err) = true) ->
  emits P (fun _ => True) (Run env s command).
Proof.
  intros Hr. unfold Run. unfold_calls. emits_auto side_P.
Qed.

Lemma RetrieveFile_emits s filePath remote :
  (forall out err, P (EvSessionRun ("cat " ++ remote) out err) = true) ->
  emits P (fun _ => True) (RetrieveFile env s filePath remote).
Proof.
  intros Hr. unfold RetrieveFile. unfold_calls. emits_auto side_P.
Qed.

Lemma kvm_followup_emits cloudConfigPath dnsConfigPath :
  (forall args, P (EvBoshOutput args) = true) ->
  emits P (fun _ => True) (kvm_followup env cloudConfigPath dnsConfigPath).
Proof.
  intros Hb. unfold kvm_followup. unfold_calls. emits_auto side_P.
Qed.

Lemma deploy_over_session_emits s contents stateJSONPath credsPath :
  (forall operands, P (EvFprintln operands) = true) ->
  (forall command out err, P (EvSessionRun command out err) = true) ->
  emits P (fun _ => True) (deploy_over_session env s contents stateJSONPath credsPath).
Proof.
  intros Hf Hr. unfold deploy_over_session, credhubIsDeployed. cbv zeta.
  apply emits_bind_any; [now apply SendData_emits|]. intros s1.
  apply emits_bind_any; [now apply SendFile_emits|]. intros s2.
  apply emits_bind_any; [unfold_calls; emits_auto side_P|]. intros deployed.
  apply emits_bind_any.
  { destruct (negb deployed); [|apply emits_ret; exact I].
    apply emits_bind_any; [now apply SendFile_emits | intros; apply emits_ret; exact I]. }
  intros sc. apply emits_bind_any; [unfold_calls; emits_auto side_P|]. intros _.
  apply emits_bind_any; [now apply Run_emits | intros s3; now apply RetrieveFile_emits].
Qed.

Lemma deploy_with_session_emits c ip s :
  (forall args, P (EvBoshOutput args) = true) ->
  (forall s' contents,
      emits P (fun _ => True)
        (deploy_over_session env s' contents
           (filepath_Join env (StateBosh c) "state.json")
           (filepath_Join env (StateBosh c) "creds.yml"))) ->
  emits P (fun _ => True) (deploy_with_session env c ip s).
Proof.
  intros Hb Hs. unfold deploy_with_session. cbv zeta. unfold_calls.
  apply emits_bind_any; [emits_auto side_P|]. intros [contents|err].
  - apply emits_bind_any; [apply Hs|]. intros s'.
    destruct (Error s'); [apply emits_ret; exact I|].
    destruct (String.eqb (GOOS env) "linux");
      [now apply kvm_followup_emits | apply emits_ret; exact I].
  - apply emits_ret. exact I.
Qed.

Lemma DeployBosh_emits c :
  (forall ip s, emits P (fun _ => True) (deploy_with_session env c ip s)) ->
  emits P (fun _ => True) (DeployBosh env c).
Proof.
  intros Hs. unfold DeployBosh, Close. cbv zeta. unfold_calls.
  apply emits_bind_any; [emits_auto side_P|]. intros [ip|err]; [|emits_auto side_P].
  apply emits_bind_any; [emits_auto side_P|]. intros [err|]; [emits_auto side_P|].
  apply emits_bind_any; [|intros; emits_auto side_P].
  apply emits_bind_any; [emits_auto side_P|]. intros [key|err]; [|emits_auto side_P].
  apply emits_bind_any; [apply NewSSH_emits|].
  intros [[s|] [err|]]; try (apply emits_ret; exact I).
  apply emits_bind_any; [apply Hs|]. intros result. emits_auto side_P.
Qed.

End DeployEmits.

(** ** The credentials branch of the deployment *)

Lemma without_creds_plain e :
  match e with
  | EvFprintln _ | EvSessionRun _ _ _ | EvBoshOutput _ => True
  | _ => without_creds e = true
  end.
Proof. destruct e; try exact I; reflexivity. Qed.

Lemma quiet_plain e :
  match e with
  | EvFprintln _ | EvSessionRun _ _ _ | EvBoshOutput _ => True
  | _ => quiet e = true
  end.
Proof. destruct e; try exact I; reflexivity. Qed.

Section CredentialsAbsent.

Variable env : Env.
Variable credsPath : string.

Hypothesis creds_absent : forall t, os_IsNotExist (Stat_result env t credsPath) = true.

Lemma credhubIsDeployed_absent :
  emits without_creds (fun deployed => deployed = true) (credhubIsDeployed env credsPath).
Proof.
  unfold credhubIsDeployed, os_Stat.
  apply emits_bind with (Q := fun err => os_IsNotExist err = true).
  - apply emits_call; [reflexivity | exact creds_absent].
  - intros err H. now apply emits_ret.
Qed.

Lemma deploy_over_session_absent s contents stateJSONPath :
  emits without_creds (fun _ => True)
    (deploy_over_session env s contents stateJSONPath credsPath).
Proof.
  unfold deploy_over_session. cbv zeta.
  apply emits_bind_any.
  { apply SendData_emits; [apply without_creds_plain | reflexivity ..]. }
  intros s1. apply emits_bind_any.
  { apply SendFile_emits; [apply without_creds_plain | reflexivity ..]. }
  intros s2. apply emits_bind with (Q := fun deployed => deployed = true).
  { apply credhubIsDeployed_absent. }
  intros deployed ->. cbn [negb].
  apply emits_bind with (Q := fun sc => snd sc = create_env_command).
  { now apply emits_ret. }
  intros [s3 command] Hc. cbn in Hc. subst command. cbn [fst snd].
  apply emits_bind_any.
  { apply emits_call; [reflexivity | intros; exact I]. }
  intros _. apply emits_bind_any.
  - apply Run_emits; [apply without_creds_plain | reflexivity].
  - intros s4. apply RetrieveFile_emits; [apply without_creds_plain | reflexivity].
Qed.

End CredentialsAbsent.

Section CredentialsPresent.

Variable env : Env.
Variable credsPath : string.

Local Notation "'shape'" := (creds_then_deploy env credsPath).

Lemma shape_quiet evs : forallb quiet evs = true -> shape evs.
Proof.
  intros H. exists evs, []. rewrite app_nil_r. auto.
Qed.

Lemma shape_prefix p evs :
  forallb quiet p = true -> shape evs -> shape (p ++ evs)%list.
Proof.
  intros Hp (before & after & -> & Hb & Ha).
  exists (p ++ before)%list, after. rewrite app_assoc, forallb_app, Hp, Hb.
  repeat split; auto.
  destruct Ha as [Ha | (out & err & rest & Ha & Hr & pre & s & data & t0 & post & Hu)];
    [now left | right].
  exists out, err, rest. repeat split; auto.
  exists (p ++ pre)%list, s, data, t0, post. now rewrite Hu, <- app_assoc.
Qed.

Lemma shape_suffix q evs :
  forallb quiet q = true -> shape evs -> shape (evs ++ q)%list.
Proof.
  intros Hq (before & after & -> & Hb & Ha).
  destruct Ha as [-> | (out & err & rest & -> & Hr & Hu)].
  - rewrite app_nil_r. apply shape_quiet. now rewrite forallb_app, Hb, Hq.
  - exists before, (EvSessionRun create_env_command_with_creds out err :: rest ++ q)%list.
    rewrite <- app_assoc. repeat split; auto.
    right. exists out, err, (rest ++ q)%list. rewrite forallb_app, Hr, Hq. auto.
Qed.

Lemma shaped_of_emits {A} (Q : A -> Prop) (m : M A) :
  emits quiet Q m -> shaped shape m.
Proof.
  intros H t. destruct (H t) as (evs & H1 & H2 & _).
  exists evs. split; [exact H1 | now apply shape_quiet].
Qed.

Lemma shaped_after {A B} (Q : A -> Prop) (m : M A) (k : A -> M B) :
  emits quiet Q m -> (forall a, Q a -> shaped shape (k a)) -> shaped shape (bind m k).
Proof.
  intros Hm Hk t. unfold bind.
  destruct (Hm t) as (e1 & H1 & F1 & Q1).
  destruct (m t) as [a t1]. cbn in H1, Q1. subst t1.
  destruct (Hk a Q1 (t ++ e1)%list) as (e2 & H2 & S2).
  exists (e1 ++ e2)%list. rewrite H2, app_assoc. split; [reflexivity|].
  now apply shape_prefix.
Qed.

Lemma shaped_before {A B} (m : M A) (k : A -> M B) :
  shaped shape m -> (forall a, emits quiet (fun _ => True) (k a)) ->
  shaped shape (bind m k).
Proof.
  intros Hm Hk t. unfold bind.
  destruct (Hm t) as (e1 & H1 & S1).
  destruct (m t) as [a t1]. cbn in H1. subst t1.
  destruct (Hk a (t ++ e1)%list) as (e2 & H2 & F2 & _).
  exists (e1 ++ e2)%list. rewrite H2, app_assoc. split; [reflexivity|].
  now apply shape_suffix.
Qed.

Lemma upload_events_quiet s data remote t :
  forallb quiet (upload_events env s data remote t) = true.
Proof.
  unfold upload_events. destruct (Copy_result env _ data); reflexivity.
Qed.

(** A [SendFile] either leaves an error in the slot, or has read the file
    and uploaded it in full. *)
Lemma SendFile_cases s filePath remote t :
  (exists s' evs e,
      SendFile env s filePath remote t = (s', (t ++ evs)%list) /\
      Error s' = Some e /\ forallb quiet evs = true) \/
  (exists data,
      Error s = None /\
      SendFile env s filePath remote t =
      (s, (t ++ EvReadFile filePath
           :: upload_events env s data remote (t ++ [EvReadFile filePath]))%list)).
Proof.
  destruct (Error s) as [e|] eqn:He.
  - left. exists s, [], e. rewrite app_nil_r.
    rewrite (SendFile_sticky env s filePath remote t e He). auto.
  - unfold SendFile, ioutil_ReadFile. rewrite He. run_monad.
    destruct (ReadFile_result env t filePath) as [data|err].
    + destruct (NewSession_result env (t ++ [EvReadFile filePath])%list (client s))
        as [err|] eqn:Hn.
      * left. exists (set_Error s (Some err)),
          [EvReadFile filePath; EvNewSession (client s)], err.
        rewrite (SendData_refused env s data remote _ err He Hn).
        rewrite <- app_assoc. auto.
      * right. exists data. split; [reflexivity|].
        rewrite (SendData_opened env s data remote _ He Hn).
        now rewrite <- app_assoc.
    + left. exists (set_Error s (Some err)), [EvReadFile filePath], err. auto.
Qed.

Hypothesis creds_present : forall t, Stat_result env t credsPath = None.

Lemma credhubIsDeployed_present :
  emits quiet (fun deployed => deployed = false) (credhubIsDeployed env credsPath).
Proof.
  unfold credhubIsDeployed, os_Stat.
  apply emits_bind with (Q := fun err => err = None).
  - apply emits_call; [reflexivity | exact creds_present].
  - intros err ->. now apply emits_ret.
Qed.

(** Lines 79-92 when the credentials file is there. *)
Lemma deploy_tail_shaped s2 stateJSONPath :
  shaped shape
    (sc <- (s <- SendFile env s2 credsPath "creds.yml" ;;
            ret (s, create_env_command ++ " --vars-store creds.yml")) ;;
     time_Sleep (7 * Second)%Z ;;;
     s <- Run env (fst sc) (snd sc) ;;
     RetrieveFile env s stateJSONPath "state.json").
Proof.
  intros t. unfold bind, ret, time_Sleep, call.
  destruct (SendFile_cases s2 credsPath "creds.yml" t)
    as [(s' & evs & e & Hs & He & Hq) | (data & He & Hs)]; rewrite Hs; cbn [fst snd].
  - rewrite (Run_sticky env s' _ _ e He).
    rewrite (RetrieveFile_sticky env s' _ _ _ e He). cbn [snd].
    exists (evs ++ [EvSleep (7 * Second)%Z])%list. rewrite <- app_assoc.
    split; [reflexivity|]. apply shape_quiet. now rewrite forallb_app, Hq.
  - set (up := upload_events env s2 data "creds.yml" (t ++ [EvReadFile credsPath])%list).
    set (t4 := ((t ++ EvReadFile credsPath :: up) ++ [EvSleep (7 * Second)%Z])%list).
    unfold Run, client_NewSession, session_Run, session_Close. rewrite He. run_monad.
    destruct (NewSession_result env t4 (client s2)) as [err|].
    + rewrite (RetrieveFile_sticky env (set_Error s2 (Some err)) _ _ _ err eq_refl).
      cbn [snd]. exists (EvReadFile credsPath :: up
                         ++ [EvSleep (7 * Second)%Z; EvNewSession (client s2)])%list.
      split.
      * unfold t4. flatten_app. reflexivity.
      * apply shape_quiet. cbn [forallb]. rewrite forallb_app.
        unfold up. now rewrite upload_events_quiet.
    + match goal with
      | |- context [RetrieveFile env ?s' _ _ ?t'] =>
          destruct (RetrieveFile_emits env quiet quiet_plain s' stateJSONPath "state.json"
                      (fun _ _ => eq_refl) t') as (e6 & H6 & F6 & _)
      end.
      rewrite H6.
      exists ((EvReadFile credsPath :: up
               ++ [EvSleep (7 * Second)%Z; EvNewSession (client s2)])
              ++ EvSessionRun create_env_command_with_creds (stdout s2) (stderr s2)
                 :: EvSessionClose :: e6)%list.
      split.
      * unfold t4. flatten_app. reflexivity.
      * eexists _, _. split; [reflexivity|]. split.
        { cbn [forallb]. rewrite forallb_app. unfold up.
          now rewrite upload_events_quiet. }
        right. exists (stdout s2), (stderr s2), (EvSessionClose :: e6).
        split; [reflexivity|]. split; [exact F6|].
        exists [], s2, data, (t ++ [EvReadFile credsPath])%list,
          [EvSleep (7 * Second)%Z; EvNewSession (client s2)].
        reflexivity.
Qed.

Lemma deploy_over_session_present s contents stateJSONPath :
  shaped shape (deploy_over_session env s contents stateJSONPath credsPath).
Proof.
  unfold deploy_over_session. cbv zeta.
  eapply shaped_after.
  { apply SendData_emits with (P := quiet); [apply quiet_plain | reflexivity ..]. }
  intros s1 _. eapply shaped_after.
  { apply SendFile_emits with (P := quiet); [apply quiet_plain | reflexivity ..]. }
  intros s2 _. eapply shaped_after.
  { apply credhubIsDeployed_present. }
  intros deployed ->. cbn [negb]. apply deploy_tail_shaped.
Qed.

End CredentialsPresent.

Lemma deploy_with_session_present env c ip s :
  (forall t, Stat_result env t (filepath_Join env (StateBosh c) "creds.yml") = None) ->
  shaped (creds_then_deploy env (filepath_Join env (StateBosh c) "creds.yml"))
    (deploy_with_session env c ip s).
Proof.
  intros Hp. unfold deploy_with_session. cbv zeta.
  apply shaped_after with (Q := fun _ => True).
  { unfold ioutil_ReadFile. apply emits_call; [reflexivity | intros; exact I]. }
  intros [contents|err] _.
  - apply shaped_before.
    + now apply deploy_over_session_present.
    + intros s'. destruct (Error s'); [apply emits_ret; exact I|].
      destruct (String.eqb (GOOS env) "linux"); [|apply emits_ret; exact I].
      apply kvm_followup_emits; [apply quiet_plain | reflexivity].
  - apply shaped_of_emits with (Q := fun _ => True). apply emits_ret. exact I.
Qed.

Lemma DeployBosh_present env c :
  (forall t, Stat_result env t (filepath_Join env (StateBosh c) "creds.yml") = None) ->
  shaped (creds_then_deploy env (filepath_Join env (StateBosh c) "creds.yml"))
    (DeployBosh env c).
Proof.
  intros Hp. unfold DeployBosh, Close. cbv zeta.
  pose proof (fun A (a : A) => @emits_ret quiet A (fun _ => True) a I) as Hret.
  apply shaped_after with (Q := fun _ => True).
  { unfold driver_IP. apply emits_call; [reflexivity | intros; exact I]. }
  intros [ip|err] _; [|apply shaped_of_emits with (Q := fun _ => True); apply Hret].
  apply shaped_after with (Q := fun _ => True).
  { unfold os_Create. apply emits_call; [reflexivity | intros; exact I]. }
  intros [err|] _; [apply shaped_of_emits with (Q := fun _ => True); apply Hret|].
  apply shaped_before.
  2:{ intros result. unfold file_Close. apply emits_bind_any; [|intros; apply Hret].
      apply emits_call; [reflexivity | intros; exact I]. }
  apply shaped_after with (Q := fun _ => True).
  { unfold ioutil_ReadFile. apply emits_call; [reflexivity | intros; exact I]. }
  intros [key|err] _; [|apply shaped_of_emits with (Q := fun _ => True); apply Hret].
  apply shaped_after with (Q := fun _ => True).
  { apply NewSSH_emits with (P := quiet). apply quiet_plain. }
  intros [[s|] [err|]] _; try (apply shaped_of_emits with (Q := fun _ => True); apply Hret).
  apply shaped_before.
  - now apply deploy_with_session_present.
  - intros result. unfold client_Close. apply emits_bind_any; [|intros; apply Hret].
    apply emits_call; [reflexivity | intros; exact I].
Qed.


(** ** The follow-up on the KVM backend *)

Lemma kvm_followup_succeeds env cloud dns t :
  always_readable env cloud -> always_writable env cloud ->
  always_readable env dns -> always_writable env dns ->
  exists cloudContents dnsContents,
    kvm_followup env cloud dns t =
    (None,
     (t ++ [EvReadFile cloud; EvWriteFile cloud cloudContents 384;
            EvBoshOutput ["-n"; "update-cloud-config"; cloud];
            EvReadFile dns; EvWriteFile dns dnsContents 384;
            EvBoshOutput ["-n"; "update-runtime-config"; dns]])%list).
Proof.
  intros Rc Wc Rd Wd. unfold kvm_followup. unfold_calls. run_monad.
  destruct (Rc t) as (c1 & ->). rewrite Wc.
  match goal with |- context [ReadFile_result env ?t' dns] =>
    destruct (Rd t') as (d1 & ->) end.
  rewrite Wd. eexists _, _. flatten_app. reflexivity.
Qed.

Lemma DeployBosh_ignores_cli_outcome env f c t :
  DeployBosh (with_BoshOutput env f) c t = DeployBosh env c t.
Proof. reflexivity. Qed.

Lemma no_cli_plain e :
  match e with
  | EvFprintln _ | EvSessionRun _ _ _ | EvBoshOutput _ => True
  | _ => no_cli e = true
  end.
Proof. destruct e; try exact I; reflexivity. Qed.

Section CliOutcome.

Variable env : Env.

Local Notation "'verdict'" := nil_once_cli_ran.

Lemma returns_of_emits (Q : option error -> Prop) (m : M (option error)) :
  emits no_cli Q m -> returns verdict m.
Proof.
  intros H t. destruct (H t) as (evs & H1 & H2 & _).
  exists evs. split; [exact H1 | now left].
Qed.

Lemma returns_after {A} (Q : A -> Prop) (m : M A) (k : A -> M (option error)) :
  emits no_cli Q m -> (forall a, Q a -> returns verdict (k a)) -> returns verdict (bind m k).
Proof.
  intros Hm Hk t. unfold bind.
  destruct (Hm t) as (e1 & H1 & F1 & Q1).
  destruct (m t) as [a t1]. cbn in H1, Q1. subst t1.
  destruct (Hk a Q1 (t ++ e1)%list) as (e2 & H2 & [F2|R2]).
  - exists (e1 ++ e2)%list. rewrite H2, app_assoc. split; [reflexivity|].
    left. now rewrite forallb_app, F1, F2.
  - exists (e1 ++ e2)%list. rewrite H2, app_assoc. split; [reflexivity | now right].
Qed.

Lemma returns_before (m : M (option error)) (k : option error -> M (option error)) :
  returns verdict m -> (forall a, emits no_cli (fun b => b = a) (k a)) ->
  returns verdict (bind m k).
Proof.
  intros Hm Hk t. unfold bind.
  destruct (Hm t) as (e1 & H1 & S1).
  destruct (m t) as [a t1]. cbn in H1, S1. subst t1.
  destruct (Hk a (t ++ e1)%list) as (e2 & H2 & F2 & R2).
  exists (e1 ++ e2)%list. rewrite H2, app_assoc. split; [reflexivity|].
  rewrite R2. destruct S1 as [F1| ->]; [left | now right].
  now rewrite forallb_app, F1, F2.
Qed.

Lemma kvm_followup_returns cloud dns :
  always_readable env dns -> always_writable env dns ->
  returns verdict (kvm_followup env cloud dns).
Proof.
  intros Rd Wd t. unfold kvm_followup. unfold_calls. run_monad.
  destruct (ReadFile_result env t cloud) as [c1|err].
  2:{ exists [EvReadFile cloud]. split; [reflexivity | now left]. }
  match goal with |- context [WriteFile_result env ?t' cloud ?d] =>
    destruct (WriteFile_result env t' cloud d) as [err|] end.
  { eexists [_; _]. flatten_app. split; [reflexivity | now left]. }
  match goal with |- context [ReadFile_result env ?t' dns] =>
    destruct (Rd t') as (d1 & ->) end.
  rewrite Wd. eexists [_; _; _; _; _; _]. flatten_app.
  split; [reflexivity | now right].
Qed.

Lemma deploy_with_session_returns c ip s :
  always_readable env (filepath_Join env (StateBosh c) "dns.yml") ->
  always_writable env (filepath_Join env (StateBosh c) "dns.yml") ->
  returns verdict (deploy_with_session env c ip s).
Proof.
  intros Rd Wd. unfold deploy_with_session. cbv zeta.
  pose proof (fun a => @emits_ret no_cli (option error) (fun _ => True) a I) as Hret.
  apply returns_after with (Q := fun _ => True).
  { unfold ioutil_ReadFile. apply emits_call; [reflexivity | intros; exact I]. }
  intros [contents|err] _; [|apply returns_of_emits with (Q := fun _ => True); apply Hret].
  apply returns_after with (Q := fun _ => True).
  { apply deploy_over_session_emits; [apply no_cli_plain | reflexivity ..]. }
  intros s' _.
  destruct (Error s'); [apply returns_of_emits with (Q := fun _ => True); apply Hret|].
  destruct (String.eqb (GOOS env) "linux").
  - now apply kvm_followup_returns.
  - apply returns_of_emits with (Q := fun _ => True); apply Hret.
Qed.

Lemma DeployBosh_returns c :
  always_readable env (filepath_Join env (StateBosh c) "dns.yml") ->
  always_writable env (filepath_Join env (StateBosh c) "dns.yml") ->
  returns verdict (DeployBosh env c).
Proof.
  intros Rd Wd. unfold DeployBosh, Close. cbv zeta.
  pose proof (fun a => @emits_ret no_cli (option error) (fun _ => True) a I) as Hret.
  apply returns_after with (Q := fun _ => True).
  { unfold driver_IP. apply emits_call; [reflexivity | intros; exact I]. }
  intros [ip|err] _; [|apply returns_of_emits with (Q := fun _ => True); apply Hret].
  apply returns_after with (Q := fun _ => True).
  { unfold os_Create. apply emits_call; [reflexivity | intros; exact I]. }
  intros [err|] _; [apply returns_of_emits with (Q := fun _ => True); apply Hret|].
  apply returns_before.
  2:{ intros result. unfold file_Close. apply emits_bind_any; [|intros; now apply emits_ret].
      apply emits_call; [reflexivity | intros; exact I]. }
  apply returns_after with (Q := fun _ => True).
  { unfold ioutil_ReadFile. apply emits_call; [reflexivity | intros; exact I]. }
  intros [key|err] _; [|apply returns_of_emits with (Q := fun _ => True); apply Hret].
  apply returns_after with (Q := fun _ => True).
  { apply NewSSH_emits. apply no_cli_plain. }
  intros [[s|] [err|]] _; try (apply returns_of_emits with (Q := fun _ => True); apply Hret).
  apply returns_before.
  - now apply deploy_with_session_returns.
  - intros result. unfold client_Close. apply emits_bind_any; [|intros; now apply emits_ret].
    apply emits_call; [reflexivity | intros; exact I].
Qed.

End CliOutcome.

(** C8. The results of the two invocations of the external CLI do not reach
    the result of [DeployBosh]: with any other outcome of the CLI, the
    deployment returns the same value after the same calls.  In the
    follow-up itself, when the two configuration files can be read and
    written, both invocations are made and the result is [nil].  And for
    the whole of [DeployBosh], when [dns.yml] can be read and written, a run
    in which the CLI was invoked at all returns [nil]. *)
Theorem cli_outcome_not_threaded (env : Env) (c : Config) (t : Trace) :
  (forall f, DeployBosh (with_BoshOutput env f) c t = DeployBosh env c t) /\
  (forall cloud dns,
      always_readable env cloud -> always_writable env cloud ->
      always_readable env dns -> always_writable env dns ->
      exists cloudContents dnsContents,
        kvm_followup env cloud dns t =
        (None,
         (t ++ [EvReadFile cloud; EvWriteFile cloud cloudContents 384;
                EvBoshOutput ["-n"; "update-cloud-config"; cloud];
                EvReadFile dns; EvWriteFile dns dnsContents 384;
                EvBoshOutput ["-n"; "update-runtime-config"; dns]])%list)) /\
  (always_readable env (filepath_Join env (StateBosh c) "dns.yml") ->
   always_writable env (filepath_Join env (StateBosh c) "dns.yml") ->
   exists evs,
     snd (DeployBosh env c t) = (t ++ evs)%list /\
     (existsb is_cli evs = true -> fst (DeployBosh env c t) = None)).
Proof.
  split; [|split].
  - intros f. apply DeployBosh_ignores_cli_outcome.
  - intros cloud dns. apply kvm_followup_succeeds.
  - intros Rd Wd.
    destruct (DeployBosh_returns env c Rd Wd t) as (evs & H1 & H2).
    exists evs. split; [exact H1|]. intros Hcli.
    destruct H2 as [Hno|Hnil]; [|exact Hnil].
    exfalso. clear H1. induction evs as [|e evs IH]; cbn in *; [discriminate|].
    unfold no_cli in Hno. destruct (is_cli e); cbn in *; [discriminate | auto].
Qed.

(** ** The statements at concrete inputs *)


Lemma local_io_failure_witness :
  Error fresh_session = None /\
  SendFile bare_env fresh_session "state/bosh/state.json" "state.json" [] =
  (set_Error fresh_session (Some no_such_file), [EvReadFile "state/bosh/state.json"]) /\
  RetrieveFile bare_env fresh_session "state/bosh/state.json" "state.json" [] =
  (set_Error fresh_session (Some no_such_file), [EvCreate "state/bosh/state.json"]).
Proof.
  split; [reflexivity|].
  pose proof (local_io_failure_aborts bare_env fresh_session [] eq_refl) as [H1 H2].
  split.
  - exact (H1 "state/bosh/state.json" "state.json" no_such_file eq_refl).
  - exact (H2 "state/bosh/state.json" "state.json" no_such_file eq_refl).
Defined.

(** C2, as stated, fails: in [lossy_env] the copy to the pipe fails and the
    remote receiving command exits with status 1, whenever they run, and
    the slot is empty after the upload. *)
Lemma upload_failures_not_stored : ~ upload_failures_are_stored.
Proof.
  intros H.
  apply (H lossy_env fresh_session hello "director.yml" exit_status_1 eq_refl
           (or_intror (fun _ => eq_refl)) []).
  reflexivity.
Qed.

Lemma upload_stores_only_channel_error_witness :
  Error fresh_session = None /\
  Error (fst (SendData lossy_env fresh_session hello "director.yml" [])) = None /\
  In (EvPrint "write: broken pipe")
     (snd (SendData lossy_env fresh_session hello "director.yml" [])).
Proof.
  split; [reflexivity|].
  pose proof (upload_stores_only_channel_error lossy_env fresh_session hello
                "director.yml" [] eq_refl) as [H1 H2].
  split; [exact H1|].
  rewrite (H2 eq_refl). vm_compute. tauto.
Defined.

Lemma upload_framing_witness :
  Error fresh_session = None /\
  exists evs,
    snd (SendData calm_env fresh_session hello ("dir" ++ "/" ++ "name.ext") []) = evs /\
    stdin_bytes evs =
    (bytes_of_string ("C0755 5 name.ext" ++ GoLib.newline) ++ hello
     ++ bytes_of_string (GoLib.NUL ++ GoLib.newline))%list.
Proof.
  split; [reflexivity|].
  destruct (upload_framing calm_env fresh_session hello "dir" "name.ext" []
              eq_refl eq_refl ltac:(discriminate) eq_refl) as (evs & H1 & H2 & _).
  exists evs. split; [exact H1 | exact H2].
Defined.

Lemma waitForSSH_witness :
  ssh_ParsePrivateKey calm_env hello = inl (SignerOf hello) /\
  fst (waitForSSH calm_env "10.0.0.5" "9992" hello (20 * Second)%Z []) =
  (Some (ClientConn 0), None) /\
  List.length (snd (waitForSSH calm_env "10.0.0.5" "9992" hello (20 * Second)%Z [])) = 3 /\
  fst (waitForSSH unreachable_env "10.0.0.5" "9992" hello (20 * Second)%Z []) =
  (None, Some (fmt_Errorf "ssh connection timed out: dial tcp: connection refused")).
Proof.
  split; [reflexivity|].
  pose proof (proj2 (waitForSSH_client_or_timeout calm_env "10.0.0.5" "9992" hello
                       (20 * Second)%Z []) (SignerOf hello) eq_refl) as [Hs _].
  pose proof (proj2 (waitForSSH_client_or_timeout unreachable_env "10.0.0.5" "9992"
                       hello (20 * Second)%Z []) (SignerOf hello) eq_refl) as [_ [Hf _]].
  cbv zeta in Hs, Hf.
  assert (H2 : 2 < ticks_before_timeout calm_env [] (20 * Second)%Z)
    by (vm_compute; lia).
  rewrite (Hs 2 (ClientConn 0) H2).
  - rewrite Hf.
    + repeat split; reflexivity.
    + intros j _. vm_compute. discriminate.
  - intros j Hj. destruct j as [|[|j]]; [vm_compute; discriminate .. | lia].
  - reflexivity.
Defined.

Lemma malformed_key_witness :
  ssh_ParsePrivateKey calm_env [] = inr (ErrorString "ssh: no key found") /\
  NewSSH calm_env "10.0.0.5" "9992" [] (20 * Second)%Z log_writer log_writer [] =
  ((None, Some (fmt_Errorf "could not parse private key: ssh: no key found")), []).
Proof.
  split; [reflexivity|].
  exact (proj2 (malformed_key_fails_fast calm_env "10.0.0.5" "9992" []
                  (20 * Second)%Z log_writer log_writer []
                  (ErrorString "ssh: no key found") eq_refl)).
Defined.

Lemma kvm_substitution_witness :
  GoLib.bytes_Contains patched_text gateway_literal = false /\
  GoLib.bytes_Contains patched_text nameserver_literal = false /\
  patch_director "10.0.0.5" patched_text = patched_text.
Proof.
  split; [reflexivity|]. split; [reflexivity|].
  exact (proj1 (kvm_substitution_noop_when_absent "10.0.0.5" patched_text)
           eq_refl eq_refl).
Defined.

Lemma absent_wrapper_witness :
  os_IsNotExist
    (Stat_result no_creds_env []
       (swrapperPath no_creds_env demo_wrapper "org.cloudfoundry.cfdev.vpnkit")) = true /\
  Uninstall no_creds_env demo_wrapper "org.cloudfoundry.cfdev.vpnkit" [] =
  (None, [EvStat "cache/vpnkit"]) /\
  Stop no_creds_env demo_wrapper "org.cloudfoundry.cfdev.vpnkit" [] =
  (None, [EvStat "cache/vpnkit"]) /\
  IsRunning no_creds_env demo_wrapper "org.cloudfoundry.cfdev.vpnkit" [] =
  ((false, None), [EvStat "cache/vpnkit"]).
Proof.
  split; [reflexivity|].
  exact (absent_wrapper_is_not_an_error no_creds_env demo_wrapper
           "org.cloudfoundry.cfdev.vpnkit" [] eq_refl).
Defined.


Lemma cli_outcome_witness :
  always_readable calm_env "state/bosh/dns.yml" /\
  always_writable calm_env "state/bosh/dns.yml" /\
  DeployBosh (with_BoshOutput calm_env failing_cli) demo_config [] =
  DeployBosh calm_env demo_config [] /\
  fst (DeployBosh (with_BoshOutput calm_env failing_cli) demo_config []) = None /\
  existsb is_cli (snd (DeployBosh (with_BoshOutput calm_env failing_cli) demo_config []))
  = true.
Proof.
  assert (R : forall path, always_readable (with_BoshOutput calm_env failing_cli) path).
  { intros path t. eexists. reflexivity. }
  assert (W : forall path, always_writable (with_BoshOutput calm_env failing_cli) path).
  { intros path t data. reflexivity. }
  split; [exact (R "state/bosh/dns.yml")|]. split; [exact (W "state/bosh/dns.yml")|].
  pose proof (cli_outcome_not_threaded (with_BoshOutput calm_env failing_cli)
                demo_config []) as (_ & _ & H3).
  pose proof (cli_outcome_not_threaded calm_env demo_config []) as (H1 & _ & _).
  split; [exact (H1 failing_cli)|].
  destruct (H3 (R "state/bosh/dns.yml") (W "state/bosh/dns.yml")) as (evs & He & Hn).
  cbn [app] in He. rewrite He in *.
  assert (Hc : existsb is_cli evs = true) by (rewrite <- He; vm_compute; reflexivity).
  split; [exact (Hn Hc) | exact Hc].
Defined.

(** * Further properties of the code *)

(** ** Channels are opened, used and closed in order *)

Lemma channel_run_app env h q a b :
  channel_run env h q (a ++ b)%list =
  match channel_run env h q a with
  | Some q' => channel_run env (h ++ a)%list q' b
  | None => None
  end.
Proof.
  revert h q. induction a as [|e a IH]; intros h q; cbn [app channel_run].
  - now rewrite app_nil_r.
  - destruct (channel_step env h q e); [|reflexivity].
    rewrite IH, <- app_assoc. reflexivity.
Qed.

(** The calls of the writer are passed over wherever they fall: they are
    never out of place and leave the state as it is. *)
Lemma channel_run_writer env h q ws evs :
  forallb writer_event ws = true ->
  channel_run env h q (ws ++ evs)%list = channel_run env (h ++ ws)%list q evs.
Proof.
  revert h. induction ws as [|e ws IH]; intros h Hw; cbn [app].
  - now rewrite app_nil_r.
  - cbn [forallb] in Hw. apply andb_prop in Hw. destruct Hw as [He Hws].
    cbn [channel_run]. unfold channel_step. rewrite He.
    rewrite (IH _ Hws), <- app_assoc. reflexivity.
Qed.

Lemma conforms_ret {A} env (a : A) : conforms env (ret a).
Proof.
  intros t. exists []. cbn. now rewrite app_nil_r.
Qed.

Lemma conforms_bind {A B} env (m : M A) (k : A -> M B) :
  conforms env m -> (forall a, conforms env (k a)) -> conforms env (bind m k).
Proof.
  intros Hm Hk t. unfold bind.
  destruct (Hm t) as (e1 & H1 & C1).
  destruct (m t) as [a t1]. cbn in H1. subst t1.
  destruct (Hk a (t ++ e1)%list) as (e2 & H2 & C2).
  exists (e1 ++ e2)%list. rewrite H2, app_assoc. split; [reflexivity|].
  now rewrite channel_run_app, C1.
Qed.

Lemma conforms_call {A} env (e : Event) (f : Trace -> A) :
  local_event e = true -> conforms env (call e f).
Proof.
  intros He t. exists [e]. split; [reflexivity|].
  destruct e; try discriminate He; reflexivity.
Qed.

(** A branch of an operation: its events are listed and run through the
    automaton, with the answers that [NewSession] gave. *)
Ltac conforms_branch :=
  eexists; split;
  [ flatten_app; reflexivity
  | cbn [channel_run channel_step writer_event app];
    repeat match goal with
           | H : NewSession_result _ _ _ = _ |- _ => rewrite H
           end;
    reflexivity ].

Section Conformance.

Variable env : Env.

Lemma Run_conforms s command : conforms env (Run env s command).
Proof.
  unfold Run. destruct (Error s); [apply conforms_ret|].
  intros t. unfold_calls. run_monad.
  destruct (NewSession_result env t (client s)) eqn:Hn; conforms_branch.
Qed.

Lemma SendData_conforms s srcData remote : conforms env (SendData env s srcData remote).
Proof.
  unfold SendData. destruct (Error s); [apply conforms_ret|].
  intros t. unfold_calls. run_monad.
  destruct (NewSession_result env t (client s)) eqn:Hn; [conforms_branch|].
  destruct (Copy_result env _ srcData); conforms_branch.
Qed.

Lemma SendFile_conforms s filePath remote :
  conforms env (SendFile env s filePath remote).
Proof.
  unfold SendFile.
  destruct (Error s); [apply conforms_ret|].
  apply conforms_bind.
  - unfold ioutil_ReadFile. now apply conforms_call.
  - intros [data|err]; [apply SendData_conforms | apply conforms_ret].
Qed.

Lemma RetrieveFile_conforms s filePath remote :
  conforms env (RetrieveFile env s filePath remote).
Proof.
  unfold RetrieveFile. destruct (Error s); [apply conforms_ret|].
  intros t. unfold_calls. run_monad.
  destruct (Create_result env t filePath); [conforms_branch|].
  destruct (NewSession_result env _ (client s)) eqn:Hn; conforms_branch.
Qed.

Lemma exec_ops_conforms ops : forall s, conforms env (exec_ops env s ops).
Proof.
  induction ops as [|op ops IH]; intros s; cbn [exec_ops].
  - apply conforms_ret.
  - apply conforms_bind; [|intros s'; apply IH].
    destruct op; cbn [exec_op].
    + apply Run_conforms.
    + apply SendFile_conforms.
    + apply SendData_conforms.
    + apply RetrieveFile_conforms.
Qed.

End Conformance.

(** X1. Whatever the environment does, the calls that the main flow of a
    sequence of session operations makes respect the life of a channel:
    a [NewSession] that succeeds is followed by exactly one command on the
    channel and then by its close, with no other call of the main flow in
    between; a [NewSession] that fails is followed by neither; no command
    runs and nothing is closed without a channel; and at the end no channel
    is open.  The calls of the writer goroutine of [SendData] are passed
    over: nothing is stated on where they fall among the others. *)
Theorem session_operations_respect_channels (env : Env) (ops : list Op) (s : SSH)
  (t : Trace) :
  exists evs,
    snd (exec_ops env s ops t) = (t ++ evs)%list /\
    channel_run env t Idle evs = Some Idle.
Proof. exact (exec_ops_conforms env ops s t). Qed.

Lemma dial_loop_conforms env addr config n : forall err,
  conforms env (dial_loop env addr config n err).
Proof.
  induction n as [|n IH]; intros err; cbn [dial_loop].
  - apply conforms_ret.
  - apply conforms_bind.
    + unfold ssh_Dial. now apply conforms_call.
    + intros [c|e]; [apply conforms_ret | apply IH].
Qed.

Ltac conforms_step :=
  first
    [ apply conforms_ret
    | apply conforms_call; reflexivity
    | apply Run_conforms
    | apply SendData_conforms
    | apply SendFile_conforms
    | apply RetrieveFile_conforms
    | apply conforms_bind; [ | intros ]
    | match goal with
      | |- conforms _ (match ?x with _ => _ end) => destruct x
      end ].

Lemma DeployBosh_conforms env c : conforms env (DeployBosh env c).
Proof.
  unfold DeployBosh, Close, deploy_with_session, deploy_over_session, kvm_followup,
    credhubIsDeployed, NewSSH, waitForSSH.
  cbv zeta. unfold_calls.
  repeat first
    [ conforms_step
    | match goal with
      | |- conforms _ (fun t => dial_loop _ _ _ _ _ t) =>
          let t := fresh "t" in intros t; apply (dial_loop_conforms _ _ _ _ _ t)
      end ].
Qed.

(** X2. The same holds for the whole of [DeployBosh]: in the calls of its
    main flow (local calls, dial attempts, session operations), every
    channel that opens runs one command and is closed before the next call,
    no command runs without a channel, and when [DeployBosh] returns no
    channel is open. *)
Theorem DeployBosh_respects_channels (env : Env) (c : Config) (t : Trace) :
  exists evs,
    snd (DeployBosh env c t) = (t ++ evs)%list /\
    channel_run env t Idle evs = Some Idle.
Proof. exact (DeployBosh_conforms env c t). Qed.

(** ** Connecting *)

Lemma dial_loop_bound env addr config n : forall err t,
  exists k,
    k <= n /\
    snd (dial_loop env addr config n err t) =
    (t ++ repeat (EvDial "tcp" addr config) k)%list /\
    (forall e, fst (dial_loop env addr config n err t) = (None, Some e) -> k = n) /\
    (forall c, fst (dial_loop env addr config n err t) = (Some c, None) -> 1 <= k).
Proof.
  induction n as [|n IH]; intros err t.
  - exists 0. cbn. rewrite app_nil_r. repeat split; auto. intros c H. discriminate H.
  - cbn [dial_loop]. unfold ssh_Dial. run_monad.
    destruct (Dial_result env t addr config) as [c|e].
    + exists 1. cbn [fst snd repeat]. repeat split; auto; try lia.
      intros e H. discriminate H.
    + destruct (IH (Some e) (t ++ [EvDial "tcp" addr config])%list)
        as (k & Hk & Ht & Hn & Hs).
      exists (S k). rewrite Ht. cbn [repeat]. rewrite <- app_assoc.
      split; [lia|]. split; [reflexivity|]. split.
      * intros e' H. f_equal. now apply (Hn e').
      * intros c H. lia.
Qed.

(** X3. [waitForSSH] dials at most as often as the ticker fires before the
    timeout, always the address [ip:port] over tcp as [root] with the parsed
    key, and does nothing else; when it returns the timeout error it has made
    every one of these attempts, and a client comes from at least one
    attempt.  With a key that does not parse it makes no call at all. *)
Theorem waitForSSH_dial_bound (env : Env) (ip port : string) (key : bytes)
  (timeout : Duration) (t : Trace) :
  match ssh_ParsePrivateKey env key with
  | inr _ => snd (waitForSSH env ip port key timeout t) = t
  | inl signer =>
      exists k,
        k <= ticks_before_timeout env t timeout /\
        snd (waitForSSH env ip port key timeout t) =
        (t ++ repeat (EvDial "tcp" (ip ++ ":" ++ port) (client_config signer)) k)%list /\
        (forall e, fst (waitForSSH env ip port key timeout t) = (None, Some e) ->
                   k = ticks_before_timeout env t timeout) /\
        (forall c, fst (waitForSSH env ip port key timeout t) = (Some c, None) -> 1 <= k)
  end.
Proof.
  unfold waitForSSH. destruct (ssh_ParsePrivateKey env key) as [signer|err].
  - apply dial_loop_bound.
  - reflexivity.
Qed.

Lemma NewSSH_cases (env : Env) (ip port : string) (key : bytes)
  (timeout : Duration) (out err : Writer) (t : Trace) :
  snd (NewSSH env ip port key timeout out err t) =
  snd (waitForSSH env ip port key timeout t) /\
  ((exists c,
       fst (waitForSSH env ip port key timeout t) = (Some c, None) /\
       fst (NewSSH env ip port key timeout out err t) =
       (Some {| client := c; stdout := out; stderr := err; Error := None |}, None)) \/
   (exists e,
       fst (waitForSSH env ip port key timeout t) = (None, Some e) /\
       fst (NewSSH env ip port key timeout out err t) = (None, Some e))).
Proof.
  unfold NewSSH, bind.
  destruct (waitForSSH_exactly_one env ip port key timeout t) as [(c & H) | (e & H)];
    destruct (waitForSSH env ip port key timeout t) as [r t']; cbn in H; subst r; cbn.
  - split; [reflexivity|]. left. eauto.
  - split; [reflexivity|]. right. eauto.
Qed.

(** X4. [NewSSH] adds nothing to what [waitForSSH] does, and returns either a
    session and no error, or no session and an error.  The session holds the
    client that [waitForSSH] returned and the two writers given, and its
    error slot is empty. *)
Theorem NewSSH_session_or_error (env : Env) (ip port : string) (key : bytes)
  (timeout : Duration) (out err : Writer) (t : Trace) :
  snd (NewSSH env ip port key timeout out err t) =
  snd (waitForSSH env ip port key timeout t) /\
  ((exists c,
       fst (waitForSSH env ip port key timeout t) = (Some c, None) /\
       fst (NewSSH env ip port key timeout out err t) =
       (Some {| client := c; stdout := out; stderr := err; Error := None |}, None)) \/
   (exists e,
       fst (waitForSSH env ip port key timeout t) = (None, Some e) /\
       fst (NewSSH env ip port key timeout out err t) = (None, Some e))).
Proof. apply NewSSH_cases. Qed.

(** ** Uploading a local file *)



(** ** What a deployment does, from the kinds of its events *)

Lemma dial_loop_only env (P : Event -> bool) addr config n :
  P (EvDial "tcp" addr config) = true ->
  forall err, emits P (fun _ => True) (dial_loop env addr config n err).
Proof.
  intros Hd. induction n as [|n IH]; intros err; cbn [dial_loop].
  - apply emits_ret. exact I.
  - apply emits_bind_any.
    + apply emits_call; [exact Hd | intros; exact I].
    + intros [c|e]; [apply emits_ret; exact I | apply IH].
Qed.

(** All the events of a program pass a test that computes on each of them. *)
Ltac emits_by_computation :=
  unfold DeployBosh, Close, deploy_with_session, deploy_over_session, kvm_followup,
    credhubIsDeployed, NewSSH, waitForSSH, SendFile, SendData, Run, RetrieveFile;
  cbv zeta; unfold_calls;
  repeat first
    [ emits_step ltac:(idtac; reflexivity)
    | match goal with
      | |- emits _ _ (fun t => dial_loop _ _ _ _ _ t) =>
          let t := fresh "t" in
          intros t; apply (dial_loop_only _ _ _ _ _ eq_refl _ t)
      end ].

(** X6. On a host that is not Linux, [DeployBosh] makes no [WriteFile],
    invokes no external CLI, removes nothing and starts no local process:
    the follow-up of the KVM backend is skipped whatever else happens.  The
    only local files it creates, and so truncates, are its log and the
    [state.json] that [RetrieveFile] writes back. *)
Theorem DeployBosh_elsewhere_leaves_config_alone (env : Env) (c : Config) (t : Trace) :
  String.eqb (GOOS env) "linux" = false ->
  exists evs,
    snd (DeployBosh env c t) = (t ++ evs)%list /\
    forallb
      (leaves_config_alone (filepath_Join env (LogDir c) "deploy-bosh.log")
         (filepath_Join env (StateBosh c) "state.json")) evs = true.
Proof.
  intros Hos.
  set (P := leaves_config_alone (filepath_Join env (LogDir c) "deploy-bosh.log")
              (filepath_Join env (StateBosh c) "state.json")).
  assert (H : emits P (fun _ => True) (DeployBosh env c)).
  { unfold DeployBosh, deploy_with_session. rewrite Hos.
    unfold Close, deploy_over_session, credhubIsDeployed, NewSSH, waitForSSH, SendFile,
      SendData, Run, RetrieveFile.
    cbv zeta. unfold_calls.
    repeat first
      [ emits_step ltac:(idtac; first
          [ reflexivity
          | unfold P; cbn [leaves_config_alone];
            rewrite String.eqb_refl, ?orb_true_r; reflexivity ])
      | match goal with
        | |- emits _ _ (fun t => dial_loop _ _ _ _ _ t) =>
            let t := fresh "t" in
            intros t; apply (dial_loop_only _ _ _ _ _ eq_refl _ t)
        end ]. }
  destruct (H t) as (evs & H1 & H2 & _). eauto.
Qed.

Lemma bind_known {A B} (m : M A) (k : A -> M B) t a t1 :
  m t = (a, t1) -> bind m k t = k a t1.
Proof. intros H. unfold bind. now rewrite H. Qed.

Lemma bind_bind {A B C} (m : M A) (k1 : A -> M B) (k2 : B -> M C) t :
  bind (bind m k1) k2 t = bind m (fun a => bind (k1 a) k2) t.
Proof. unfold bind. destruct (m t) as [a t1]. reflexivity. Qed.

Lemma ReadFile_known env path t data :
  ReadFile_result env t path = inl data ->
  ioutil_ReadFile env path t = (inl data, (t ++ [EvReadFile path])%list).
Proof. intros H. unfold ioutil_ReadFile, call. now rewrite H. Qed.

(** X7. The director configuration that [DeployBosh] uploads as
    [director.yml] is the file it read, with the two replacements applied
    on Linux and untouched elsewhere: once the file is read and the channel
    opens, the events that follow the read are exactly the upload of that
    text. *)
Theorem director_upload_is_the_patched_file (env : Env) (c : Config) (ip : string)
  (s : SSH) (directorContents : bytes) (t : Trace) :
  let directorPath := filepath_Join env (StateBosh c) "director.yml" in
  Error s = None ->
  ReadFile_result env t directorPath = inl directorContents ->
  NewSession_result env (t ++ [EvReadFile directorPath])%list (client s) = None ->
  exists rest,
    snd (deploy_with_session env c ip s t) =
    (t ++ EvReadFile directorPath
     :: upload_events env s (director_payload env ip directorContents) "director.yml"
          (t ++ [EvReadFile directorPath])
     ++ rest)%list.
Proof.
  intros directorPath He Hr Hn. unfold deploy_with_session. cbv zeta.
  fold directorPath.
  rewrite (bind_known _ _ _ _ _ (ReadFile_known env directorPath t directorContents Hr)).
  fold (director_payload env ip directorContents).
  unfold deploy_over_session. cbv zeta.
  rewrite bind_bind.
  rewrite (bind_known _ _ _ _ _
             (SendData_opened env s (director_payload env ip directorContents)
                "director.yml" _ He Hn)).
  match goal with
  | |- exists rest, snd (?m ?tu) = _ =>
      assert (H : emits (fun _ => true) (fun _ => True) m)
  end.
  { emits_by_computation. }
  match goal with
  | |- exists rest, snd (_ ?tu) = _ => destruct (H tu) as (rest & H1 & _)
  end.
  exists rest. rewrite H1. flatten_app. reflexivity.
Qed.

(** ** The state file comes back only from a deployment that succeeded *)

Section StateRetrieval.

Variable env : Env.
Variable statePath : string.





End StateRetrieval.


(** X9. Entered with an error in the slot, the operations of [DeployBosh] on
    the session still ask [os.Stat] about the credentials file and still
    sleep seven seconds, and do nothing else: the session and its error come
    back unchanged. *)
Theorem failed_session_only_stats_and_sleeps (env : Env) (s : SSH) (contents : bytes)
  (stateJSONPath credsPath : string) (t : Trace) (e : error) :
  Error s = Some e ->
  deploy_over_session env s contents stateJSONPath credsPath t =
  (s, (t ++ [EvStat credsPath; EvSleep (7 * Second)%Z])%list).
Proof.
  intros He. unfold deploy_over_session, credhubIsDeployed. cbv zeta.
  unfold bind, ret, os_Stat, time_Sleep, call.
  rewrite (SendData_sticky env s contents "director.yml" t e He).
  rewrite (SendFile_sticky env s stateJSONPath "state.json" t e He).
  destruct (negb (os_IsNotExist (Stat_result env t credsPath))).
  - rewrite (SendFile_sticky env s credsPath "creds.yml" _ e He). cbn [fst snd].
    rewrite (Run_sticky env s _ _ e He).
    rewrite (RetrieveFile_sticky env s _ _ _ e He). now rewrite <- app_assoc.
  - cbn [fst snd]. rewrite (Run_sticky env s _ _ e He).
    rewrite (RetrieveFile_sticky env s _ _ _ e He). now rewrite <- app_assoc.
Qed.

(** ** A deployment over a connection that opens no channel *)

Section NoChannel.

Variable env : Env.
Variable logPath : string.

Hypothesis no_channel : forall t c, NewSession_result env t c <> None.

Local Notation "'P'" := (sends_nothing logPath).
Local Notation "'failed'" := (fun s : SSH => Error s <> None).

Lemma SendData_no_channel s srcData remote :
  emits P failed (SendData env s srcData remote).
Proof.
  intros t. destruct (Error s) as [e|] eqn:He.
  - rewrite (SendData_sticky env s srcData remote t e He).
    exists []. cbn. rewrite app_nil_r, He. repeat split; congruence.
  - destruct (NewSession_result env t (client s)) as [err|] eqn:Hn.
    + rewrite (SendData_refused env s srcData remote t err He Hn).
      exists [EvNewSession (client s)]. cbn. repeat split; congruence.
    + now destruct (no_channel t (client s)).
Qed.

Lemma SendFile_failed s filePath remote :
  Error s <> None -> emits P failed (SendFile env s filePath remote).
Proof.
  intros Hs t. destruct (Error s) as [e|] eqn:He; [|congruence].
  rewrite (SendFile_sticky env s filePath remote t e He).
  exists []. cbn. rewrite app_nil_r, He. repeat split; congruence.
Qed.

Lemma Run_failed s command :
  Error s <> None -> emits P failed (Run env s command).
Proof.
  intros Hs t. destruct (Error s) as [e|] eqn:He; [|congruence].
  rewrite (Run_sticky env s command t e He).
  exists []. cbn. rewrite app_nil_r, He. repeat split; congruence.
Qed.

Lemma RetrieveFile_failed s filePath remote :
  Error s <> None -> emits P failed (RetrieveFile env s filePath remote).
Proof.
  intros Hs t. destruct (Error s) as [e|] eqn:He; [|congruence].
  rewrite (RetrieveFile_sticky env s filePath remote t e He).
  exists []. cbn. rewrite app_nil_r, He. repeat split; congruence.
Qed.

Lemma deploy_over_session_no_channel s contents stateJSONPath credsPath :
  emits P failed (deploy_over_session env s contents stateJSONPath credsPath).
Proof.
  unfold deploy_over_session, credhubIsDeployed. cbv zeta.
  apply emits_bind with (Q := failed); [apply SendData_no_channel|]. intros s1 H1.
  apply emits_bind with (Q := failed); [now apply SendFile_failed|]. intros s2 H2.
  apply emits_bind_any; [unfold_calls; emits_auto ltac:(idtac; reflexivity)|].
  intros deployed.
  apply emits_bind with (Q := fun sc : SSH * string => Error (fst sc) <> None).
  { destruct (negb deployed); [|now apply emits_ret].
    apply emits_bind with (Q := failed); [now apply SendFile_failed|].
    intros s3 H3. now apply emits_ret. }
  intros [s3 command] H3. cbn [fst snd] in *.
  apply emits_bind_any; [unfold_calls; emits_auto ltac:(idtac; reflexivity)|].
  intros _.
  apply emits_bind with (Q := failed); [now apply Run_failed|]. intros s4 H4.
  now apply RetrieveFile_failed.
Qed.

Lemma deploy_with_session_no_channel c ip s :
  emits P (fun result : option error => result <> None) (deploy_with_session env c ip s).
Proof.
  unfold deploy_with_session. cbv zeta.
  apply emits_bind_any; [unfold_calls; emits_auto ltac:(idtac; reflexivity)|].
  intros [contents|err]; [|apply emits_ret; discriminate].
  apply emits_bind with (Q := failed); [apply deploy_over_session_no_channel|].
  intros s' Hs. destruct (Error s'); [apply emits_ret; discriminate | congruence].
Qed.

Lemma NewSSH_no_channel ip port key timeout out err :
  emits P
    (fun r : option SSH * option error =>
       (exists s, r = (Some s, None)) \/ (exists e, r = (None, Some e)))
    (NewSSH env ip port key timeout out err).
Proof.
  assert (H : emits P (fun _ => True) (NewSSH env ip port key timeout out err))
    by emits_by_computation.
  intros t. destruct (H t) as (evs & H1 & H2 & _).
  exists evs. split; [exact H1|]. split; [exact H2|].
  destruct (NewSSH_cases env ip port key timeout out err t)
    as [_ [(c & _ & Hc) | (e & _ & Hc)]]; rewrite Hc; eauto.
Qed.

End NoChannel.

(** X10. Over a connection on which no channel can be opened, [DeployBosh]
    returns an error, and on the way it runs no remote command, writes
    nothing to a pipe, creates no local file but its log, rewrites no
    configuration and invokes no CLI. *)
Theorem no_channel_no_deployment (env : Env) (c : Config) (t : Trace) :
  (forall t' cl, NewSession_result env t' cl <> None) ->
  fst (DeployBosh env c t) <> None /\
  exists evs,
    snd (DeployBosh env c t) = (t ++ evs)%list /\
    forallb (sends_nothing (filepath_Join env (LogDir c) "deploy-bosh.log")) evs = true.
Proof.
  intros Hnc.
  set (logPath := filepath_Join env (LogDir c) "deploy-bosh.log").
  assert (H : emits (sends_nothing logPath) (fun result : option error => result <> None)
                (DeployBosh env c)).
  { unfold DeployBosh, Close. cbv zeta. fold logPath. unfold_calls.
    apply emits_bind_any; [emits_auto ltac:(idtac; reflexivity)|].
    intros [ip|err]; [|apply emits_ret; discriminate].
    apply emits_bind_any.
    { apply emits_call; [apply String.eqb_refl | intros; exact I]. }
    intros [err|]; [apply emits_ret; discriminate|].
    apply emits_bind with (Q := fun result : option error => result <> None).
    2:{ intros result Hr. apply emits_bind_any;
          [emits_auto ltac:(idtac; reflexivity) | intros; now apply emits_ret]. }
    apply emits_bind_any; [emits_auto ltac:(idtac; reflexivity)|].
    intros [key|err]; [|apply emits_ret; discriminate].
    eapply emits_bind; [apply NewSSH_no_channel|].
    intros r [(s & ->) | (e & ->)]; [|apply emits_ret; discriminate].
    apply emits_bind with (Q := fun result : option error => result <> None).
    - now apply deploy_with_session_no_channel.
    - intros result Hr. apply emits_bind_any;
        [emits_auto ltac:(idtac; reflexivity) | intros; now apply emits_ret]. }
  destruct (H t) as (evs & H1 & H2 & H3). split; [exact H3|]. eauto.
Qed.

(** ** The steps of [DeployBosh] before and after the session *)

(** X11. [DeployBosh] stops at the first local failure before it connects,
    and returns that error: when the address of the VM is not found it does
    nothing else; when the log file cannot be created it reads no key; when
    the key cannot be read, or does not parse, it closes the log file and
    makes no dial attempt. *)
Theorem DeployBosh_stops_before_connecting (env : Env) (c : Config) (t : Trace) :
  let logPath := filepath_Join env (LogDir c) "deploy-bosh.log" in
  let keyPath := filepath_Join env (StateDir c) "id_rsa" in
  (forall err,
      IP_result env t c = inr err ->
      DeployBosh env c t = (Some err, (t ++ [EvDriverIP])%list)) /\
  (forall ip err,
      IP_result env t c = inl ip ->
      Create_result env (t ++ [EvDriverIP])%list logPath = Some err ->
      DeployBosh env c t = (Some err, (t ++ [EvDriverIP; EvCreate logPath])%list)) /\
  (forall ip err,
      IP_result env t c = inl ip ->
      Create_result env (t ++ [EvDriverIP])%list logPath = None ->
      ReadFile_result env (t ++ [EvDriverIP; EvCreate logPath])%list keyPath = inr err ->
      DeployBosh env c t =
      (Some err,
       (t ++ [EvDriverIP; EvCreate logPath; EvReadFile keyPath; EvFileClose logPath])%list)) /\
  (forall ip key perr,
      IP_result env t c = inl ip ->
      Create_result env (t ++ [EvDriverIP])%list logPath = None ->
      ReadFile_result env (t ++ [EvDriverIP; EvCreate logPath])%list keyPath = inl key ->
      ssh_ParsePrivateKey env key = inr perr ->
      DeployBosh env c t =
      (Some (fmt_Errorf ("could not parse private key: " ++ Error_text perr)),
       (t ++ [EvDriverIP; EvCreate logPath; EvReadFile keyPath; EvFileClose logPath])%list)).
Proof.
  intros logPath keyPath.
  unfold DeployBosh, NewSSH, waitForSSH. cbv zeta. fold logPath keyPath.
  unfold_calls. run_monad.
  repeat split.
  - intros err Hip. now rewrite Hip.
  - intros ip err Hip Hc. rewrite Hip, Hc. now rewrite <- app_assoc.
  - intros ip err Hip Hc Hk. rewrite Hip, Hc. rewrite <- !app_assoc. cbn [app].
    rewrite Hk. flatten_app. reflexivity.
  - intros ip key perr Hip Hc Hk Hp. rewrite Hip, Hc. rewrite <- !app_assoc. cbn [app].
    rewrite Hk, Hp. flatten_app. reflexivity.
Qed.

Lemma deploy_with_session_extends env c ip s :
  emits (fun _ => true) (fun _ => True) (deploy_with_session env c ip s).
Proof. emits_by_computation. Qed.

(** X12. Once the log file is open and the key is read, [DeployBosh] closes
    what it opened on every path.  When [NewSSH] returns an error, that
    error is the result and the log file is closed.  When [NewSSH] returns a
    session, the result of [DeployBosh] is the result of the workflow on
    that session, and the last two events are the closing of the client and
    then of the log file. *)
Theorem DeployBosh_closes_client_and_log (env : Env) (c : Config) (t : Trace)
  (ip : string) (key : bytes) :
  let logPath := filepath_Join env (LogDir c) "deploy-bosh.log" in
  let keyPath := filepath_Join env (StateDir c) "id_rsa" in
  let t3 := (t ++ [EvDriverIP; EvCreate logPath; EvReadFile keyPath])%list in
  let connect :=
    NewSSH env ip "9992" key (20 * Second)%Z (FileWriter logPath) (FileWriter logPath) t3 in
  IP_result env t c = inl ip ->
  Create_result env (t ++ [EvDriverIP])%list logPath = None ->
  ReadFile_result env (t ++ [EvDriverIP; EvCreate logPath])%list keyPath = inl key ->
  (forall e, fst connect = (None, Some e) ->
     DeployBosh env c t = (Some e, (snd connect ++ [EvFileClose logPath])%list)) /\
  (forall s, fst connect = (Some s, None) ->
     exists evs,
       deploy_with_session env c ip s (snd connect) =
       (fst (DeployBosh env c t), (snd connect ++ evs)%list) /\
       snd (DeployBosh env c t) =
       (snd connect ++ evs ++ [EvClientClose (client s); EvFileClose logPath])%list).
Proof.
  intros logPath keyPath t3 connect Hip Hc Hk.
  unfold DeployBosh, Close. cbv zeta. fold logPath keyPath.
  unfold_calls. unfold bind, call, ret.
  rewrite Hip, Hc. rewrite <- !app_assoc. cbn [app]. rewrite Hk.
  fold t3. fold connect. clearbody connect.
  destruct connect as [[os oe] t4]. cbn [fst snd]. split.
  - intros e H. injection H as -> ->. reflexivity.
  - intros s H. injection H as -> ->.
    destruct (deploy_with_session_extends env c ip s t4) as (evs & H1 & _).
    destruct (deploy_with_session env c ip s t4) as [result t5]. cbn in H1. subst t5.
    exists evs. cbn [fst snd]. split; [reflexivity|]. flatten_app. reflexivity.
Qed.

(** X13. The follow-up on the KVM backend stops at the first local failure
    and returns it.  What it writes back is what it read with the literal
    replaced, under the same path; the CLI is invoked on a file only after
    that file was written, and a file that could not be read or written is
    not handed to the CLI. *)
Theorem kvm_followup_stops_at_first_failure (env : Env) (cloud dns : string) (t : Trace) :
  let patch lit data :=
    GoLib.bytes_Replace data (bytes_of_string lit) (bytes_of_string kvmNameserverIP) in
  let cli1 := EvBoshOutput ["-n"; "update-cloud-config"; cloud] in
  (forall err,
      ReadFile_result env t cloud = inr err ->
      kvm_followup env cloud dns t = (Some err, (t ++ [EvReadFile cloud])%list)) /\
  (forall data err,
      ReadFile_result env t cloud = inl data ->
      WriteFile_result env (t ++ [EvReadFile cloud])%list cloud
        (patch vpnkitNameserverIP data) = Some err ->
      kvm_followup env cloud dns t =
      (Some err,
       (t ++ [EvReadFile cloud; EvWriteFile cloud (patch vpnkitNameserverIP data) 384])%list)) /\
  (forall data,
      ReadFile_result env t cloud = inl data ->
      WriteFile_result env (t ++ [EvReadFile cloud])%list cloud
        (patch vpnkitNameserverIP data) = None ->
      let t3 := (t ++ [EvReadFile cloud;
                       EvWriteFile cloud (patch vpnkitNameserverIP data) 384; cli1])%list in
      (forall err,
          ReadFile_result env t3 dns = inr err ->
          kvm_followup env cloud dns t = (Some err, (t3 ++ [EvReadFile dns])%list)) /\
      (forall ddata err,
          ReadFile_result env t3 dns = inl ddata ->
          WriteFile_result env (t3 ++ [EvReadFile dns])%list dns
            (patch vpnkitHostIP ddata) = Some err ->
          kvm_followup env cloud dns t =
          (Some err,
           (t3 ++ [EvReadFile dns; EvWriteFile dns (patch vpnkitHostIP ddata) 384])%list))).
Proof.
  intros patch cli1. unfold kvm_followup. unfold_calls. run_monad.
  split; [|split].
  - intros err H. now rewrite H.
  - intros data err H1 H2. rewrite H1. fold (patch vpnkitNameserverIP data).
    rewrite H2. flatten_app. reflexivity.
  - intros data H1 H2. rewrite H1. fold (patch vpnkitNameserverIP data).
    rewrite H2. rewrite <- !app_assoc. cbn [app]. fold cli1. split.
    + intros err H3. rewrite H3. flatten_app. reflexivity.
    + intros ddata err H3 H4. rewrite H3. fold (patch vpnkitHostIP ddata).
      rewrite <- ?app_assoc in H4. cbn [app] in H4.
      rewrite <- ?app_assoc. cbn [app]. rewrite H4. flatten_app. reflexivity.
Qed.

(** ** The service wrapper client *)

Section SplitFacts.

Import GoLib.

Lemma strings_Split_plain sep name :
  contains_char sep name = false -> strings_Split name sep = [name].
Proof.
  induction name as [|x name IH]; cbn; intros H.
  - reflexivity.
  - apply orb_false_iff in H. destruct H as [Hx Hn].
    rewrite (IH Hn), Hx. reflexivity.
Qed.

Lemma strings_Split_ends_with sep prefix name :
  contains_char sep name = false ->
  exists h tl,
    strings_Split (prefix ++ String sep name) sep = (h :: tl ++ [name])%list.
Proof.
  intros H. induction prefix as [|x prefix IH]; cbn.
  - rewrite (strings_Split_plain sep name H), Ascii.eqb_refl.
    exists EmptyString, []. reflexivity.
  - destruct IH as (h & tl & ->). destruct (Ascii.eqb x sep).
    + exists EmptyString, (h :: tl). reflexivity.
    + exists (String x h), tl. reflexivity.
Qed.

Lemma strings_Split_not_empty s sep : strings_Split s sep <> [].
Proof.
  destruct s as [|x s]; cbn; [discriminate|].
  destruct (strings_Split s sep); [discriminate|].
  destruct (Ascii.eqb x sep); discriminate.
Qed.

End SplitFacts.

(** X14. The path of the wrapper of a label depends only on what follows
    the last dot of the label: [prefix.name] and [name], for a [name]
    without a dot, have the same wrapper [workdir/name], so two labels that
    end alike share one wrapper and one definition file.  The split of a
    label is never empty, so taking its last element cannot go out of
    range. *)
Theorem swrapperPath_uses_last_component (env : Env) (s : ServiceWrapper)
  (prefix name : string) :
  contains_char "." name = false ->
  swrapperPath env s (prefix ++ String "." name) = filepath_Join env (workdir s) name /\
  swrapperPath env s name = filepath_Join env (workdir s) name /\
  forall label, GoLib.strings_Split label "." <> [].
Proof.
  intros H. unfold swrapperPath. cbv zeta. split; [|split].
  - destruct (strings_Split_ends_with "." prefix name H) as (h & tl & ->).
    rewrite app_comm_cons, last_last. reflexivity.
  - now rewrite (strings_Split_plain "." name H).
  - intros label. apply strings_Split_not_empty.
Qed.

(** X15. [Uninstall] of a wrapper that [os.Stat] does not report as missing
    (also when [os.Stat] fails in another way) runs the wrapper with
    [uninstall] first.  When that command fails nothing is removed and the
    error names the label, the failure and the output.  When it succeeds the
    wrapper is removed, and only then its definition file; a failure to
    remove the wrapper is returned and leaves the definition file in
    place. *)
Theorem Uninstall_removes_after_the_command (env : Env) (s : ServiceWrapper)
  (label : string) (t : Trace) :
  let path := swrapperPath env s label in
  let t2 := (t ++ [EvStat path; EvExec path ["uninstall"]])%list in
  os_IsNotExist (Stat_result env t path) = false ->
  (forall out err,
      Exec_result env (t ++ [EvStat path])%list path ["uninstall"] = (out, Some err) ->
      Uninstall env s label t =
      (Some (fmt_Errorf ("failed to uninstall '" ++ label ++ "': " ++ Error_text err
                         ++ ": " ++ string_of_list_byte out)), t2)) /\
  (forall out,
      Exec_result env (t ++ [EvStat path])%list path ["uninstall"] = (out, None) ->
      (forall err,
          RemoveAll_result env t2 path = Some err ->
          Uninstall env s label t = (Some err, (t2 ++ [EvRemoveAll path])%list)) /\
      (RemoveAll_result env t2 path = None ->
       Uninstall env s label t =
       (RemoveAll_result env (t2 ++ [EvRemoveAll path])%list (path ++ ".yml"),
        (t2 ++ [EvRemoveAll path; EvRemoveAll (path ++ ".yml")])%list))).
Proof.
  intros path t2 Hs. unfold Uninstall, swrapperNotExist. cbv zeta. fold path.
  unfold_calls. unfold bind, ret, call. rewrite Hs. split.
  - intros out err He. rewrite He. cbn [fst snd]. unfold quoted, t2.
    rewrite !string_app_assoc. flatten_app. reflexivity.
  - intros out He. rewrite He. cbn [fst snd]. unfold t2. split.
    + intros err Hr. rewrite <- ?app_assoc in *. cbn [app] in *. rewrite Hr.
      flatten_app. reflexivity.
    + intros Hr. rewrite <- ?app_assoc in *. cbn [app] in *. rewrite Hr.
      flatten_app. reflexivity.
Qed.

(** X16. [IsRunning] never answers [true] together with an error, and it
    answers [true] only when the wrapper was not reported missing and its
    [status] command succeeded with an output that, trimmed, is
    [program.StatusRunning]. *)
Theorem IsRunning_true_is_a_clean_answer (env : Env) (s : ServiceWrapper)
  (label : string) (t : Trace) :
  let path := swrapperPath env s label in
  fst (fst (IsRunning env s label t)) = true ->
  snd (fst (IsRunning env s label t)) = None /\
  os_IsNotExist (Stat_result env t path) = false /\
  exists out,
    Exec_result env (t ++ [EvStat path])%list path ["status"] = (out, None) /\
    strings_TrimSpace env (string_of_list_byte out) = StatusRunning env.
Proof.
  intros path. unfold IsRunning, swrapperNotExist. fold path.
  unfold_calls. unfold bind, ret, call.
  destruct (os_IsNotExist (Stat_result env t path)); cbn [fst snd]; [discriminate|].
  destruct (Exec_result env (t ++ [EvStat path])%list path ["status"]) as [out [err|]];
    cbn [fst snd]; [discriminate|].
  intros H. apply String.eqb_eq in H. split; [reflexivity|]. split; [reflexivity|].
  exists out. auto.
Qed.

(** X17. [Start] does not ask whether the wrapper exists: it always runs the
    wrapper with [start], exactly once and with no other call, and returns
    [nil] exactly when that command reports no error.  [Stop] on the same
    label first asks [os.Stat]. *)
Theorem Start_always_runs_the_wrapper (env : Env) (s : ServiceWrapper)
  (label : string) (t : Trace) :
  let path := swrapperPath env s label in
  snd (Start env s label t) = (t ++ [EvExec path ["start"]])%list /\
  (fst (Start env s label t) = None <->
   snd (Exec_result env t path ["start"]) = None) /\
  exists evs, snd (Stop env s label t) = (t ++ EvStat path :: evs)%list.
Proof.
  intros path. unfold Start, Stop, swrapperNotExist. fold path.
  unfold_calls. unfold bind, ret, call. split; [|split].
  - destruct (snd (Exec_result env t path ["start"])); reflexivity.
  - destruct (snd (Exec_result env t path ["start"])); cbn; split; congruence.
  - destruct (os_IsNotExist (Stat_result env t path)).
    + exists []. reflexivity.
    + destruct (snd (Exec_result env _ path ["stop"]));
        eexists; cbn [snd]; flatten_app; reflexivity.
Qed.

(** X18. Where a path that [os.RemoveAll] was called on is then reported
    missing by [os.Stat], a successful [Uninstall] of a wrapper that was
    there settles the label: a second [Uninstall] and a [Stop] right after
    it return [nil], and [IsRunning] answers [false] without error, each
    after the one [os.Stat] only. *)
Theorem Uninstall_settles_the_label (env : Env) (s : ServiceWrapper)
  (label : string) (t : Trace) :
  let path := swrapperPath env s label in
  let t' := snd (Uninstall env s label t) in
  (forall h, os_IsNotExist
               (Stat_result env (h ++ [EvRemoveAll path; EvRemoveAll (path ++ ".yml")])%list
                  path) = true) ->
  os_IsNotExist (Stat_result env t path) = false ->
  fst (Uninstall env s label t) = None ->
  Uninstall env s label t' = (None, (t' ++ [EvStat path])%list) /\
  Stop env s label t' = (None, (t' ++ [EvStat path])%list) /\
  IsRunning env s label t' = ((false, None), (t' ++ [EvStat path])%list).
Proof.
  intros path t' Hgone Hthere Hok.
  assert (Ht : exists h, t' = (h ++ [EvRemoveAll path; EvRemoveAll (path ++ ".yml")])%list).
  { unfold t'. revert Hok. unfold Uninstall, swrapperNotExist. cbv zeta. fold path.
    unfold_calls. unfold bind, ret, call. rewrite Hthere.
    destruct (Exec_result env (t ++ [EvStat path])%list path ["uninstall"])
      as [out [err|]]; cbn [fst snd]; [discriminate|].
    match goal with
    | |- context [RemoveAll_result env ?h path] =>
        destruct (RemoveAll_result env h path); cbn [fst snd]; [discriminate|];
        intros _; exists h
    end.
    now rewrite <- app_assoc. }
  destruct Ht as (h & Ht). rewrite Ht.
  unfold Uninstall, Stop, IsRunning, swrapperNotExist. cbv zeta. fold path.
  unfold_calls. unfold bind, ret, call. rewrite Hgone. auto.
Qed.

(** ** Installing a wrapper *)

Section InstallFacts.

Import Installer.

Variable ServiceConfig : Type.
Variable Label : ServiceConfig -> string.
Variable env : Env.
Variable w : World ServiceConfig.

Lemma copyBinary_create_fails src dest h err :
  Create_outcome w h dest = Some err ->
  copyBinary w src dest h = (Some err, (h ++ [Create dest])%list).
Proof. intros H. unfold copyBinary, ibind, icall, iret. now rewrite H. Qed.

Lemma copyBinary_chmod_fails src dest h err :
  Create_outcome w h dest = None ->
  Chmod_outcome w (h ++ [Create dest])%list dest 484 = Some err ->
  copyBinary w src dest h =
  (Some err, (((h ++ [Create dest]) ++ [Chmod dest 484]) ++ [CloseFile dest])%list).
Proof. intros H1 H2. unfold copyBinary, ibind, icall, iret. now rewrite H1, H2. Qed.

Lemma copyBinary_open_fails src dest h err :
  Create_outcome w h dest = None ->
  Chmod_outcome w (h ++ [Create dest])%list dest 484 = None ->
  Open_outcome w ((h ++ [Create dest]) ++ [Chmod dest 484])%list src = Some err ->
  copyBinary w src dest h =
  (Some err,
   ((((h ++ [Create dest]) ++ [Chmod dest 484]) ++ [Open src]) ++ [CloseFile dest])%list).
Proof.
  intros H1 H2 H3. unfold copyBinary, ibind, icall, iret. now rewrite H1, H2, H3.
Qed.

Lemma copyBinary_copies src dest h :
  Create_outcome w h dest = None ->
  Chmod_outcome w (h ++ [Create dest])%list dest 484 = None ->
  Open_outcome w ((h ++ [Create dest]) ++ [Chmod dest 484])%list src = None ->
  copyBinary w src dest h =
  (Copy_outcome w (((h ++ [Create dest]) ++ [Chmod dest 484]) ++ [Open src])%list dest src,
   (h ++ copy_script src dest)%list).
Proof.
  intros H1 H2 H3. unfold copyBinary, ibind, icall, iret, copy_script.
  rewrite H1, H2, H3. f_equal. flatten_app. reflexivity.
Qed.

Lemma copyBinary_nil src dest h :
  fst (copyBinary w src dest h) = None ->
  snd (copyBinary w src dest h) = (h ++ copy_script src dest)%list.
Proof.
  destruct (Create_outcome w h dest) as [e|] eqn:H1.
  { rewrite (copyBinary_create_fails src dest h e H1). discriminate. }
  destruct (Chmod_outcome w (h ++ [Create dest])%list dest 484) as [e|] eqn:H2.
  { rewrite (copyBinary_chmod_fails src dest h e H1 H2). discriminate. }
  destruct (Open_outcome w ((h ++ [Create dest]) ++ [Chmod dest 484])%list src)
    as [e|] eqn:H3.
  { rewrite (copyBinary_open_fails src dest h e H1 H2 H3). discriminate. }
  now rewrite (copyBinary_copies src dest h H1 H2 H3).
Qed.

(** A copy that fails has run no command. *)
Lemma copyBinary_failed src dest h err :
  fst (copyBinary w src dest h) = Some err ->
  exists calls,
    snd (copyBinary w src dest h) = (h ++ calls)%list /\
    existsb is_command calls = false.
Proof.
  destruct (Create_outcome w h dest) as [e|] eqn:H1.
  { rewrite (copyBinary_create_fails src dest h e H1). intros _.
    exists [Create dest]. auto. }
  destruct (Chmod_outcome w (h ++ [Create dest])%list dest 484) as [e|] eqn:H2.
  { rewrite (copyBinary_chmod_fails src dest h e H1 H2). intros _.
    exists [Create dest; Chmod dest 484; CloseFile dest].
    split; [cbn [snd]; flatten_app|]; reflexivity. }
  destruct (Open_outcome w ((h ++ [Create dest]) ++ [Chmod dest 484])%list src)
    as [e|] eqn:H3.
  { rewrite (copyBinary_open_fails src dest h e H1 H2 H3). intros _.
    exists [Create dest; Chmod dest 484; Open src; CloseFile dest].
    split; [cbn [snd]; flatten_app|]; reflexivity. }
  rewrite (copyBinary_copies src dest h H1 H2 H3). intros _.
  exists (copy_script src dest). split; reflexivity.
Qed.

Lemma Install_copy_fails s cfg h err h' :
  copyBinary w (binaryPath s) (swrapperPath env s (Label cfg)) h = (Some err, h') ->
  Install Label env w s cfg h = (Some err, h').
Proof.
  intros H. unfold Install. cbv zeta. unfold ibind. now rewrite H.
Qed.

Lemma Install_after_copy s cfg h :
  let path := swrapperPath env s (Label cfg) in
  let yml := (path ++ ".yml")%string in
  let copied := (h ++ copy_script (binaryPath s) path)%list in
  copyBinary w (binaryPath s) path h = (None, copied) ->
  (forall err,
      Create_outcome w copied yml = Some err ->
      Install Label env w s cfg h = (Some err, (copied ++ [Create yml])%list)) /\
  (Create_outcome w copied yml = None ->
   (forall err,
       Encode_outcome w (copied ++ [Create yml])%list yml cfg = Some err ->
       Install Label env w s cfg h =
       (Some err, (copied ++ [Create yml; Encode yml; CloseFile yml])%list)) /\
   (Encode_outcome w (copied ++ [Create yml])%list yml cfg = None ->
    Install Label env w s cfg h =
    (match snd (Command_outcome w (copied ++ [Create yml; Encode yml])%list path
                  ["install"]) with
     | Some err =>
         Some (fmt_Errorf
                 ("failed to install " ++ quoted (Label cfg) ++ ": "
                  ++ Error_text err ++ ": "
                  ++ string_of_list_byte
                       (fst (Command_outcome w (copied ++ [Create yml; Encode yml])%list
                               path ["install"]))))
     | None => None
     end,
     (h ++ install_script Label env s cfg)%list))).
Proof.
  intros path yml copied Hc. unfold Install. cbv zeta. fold path. fold yml.
  unfold ibind, icall, iret. rewrite Hc.
  split; [intros err ->; reflexivity|]. intros ->.
  split.
  - intros err ->. cbn [fst snd]. f_equal. flatten_app. reflexivity.
  - intros ->. replace ((copied ++ [Create yml]) ++ [Encode yml])%list
      with (copied ++ [Create yml; Encode yml])%list by (flatten_app; reflexivity).
    destruct (Command_outcome w (copied ++ [Create yml; Encode yml])%list path ["install"])
      as [out [e|]]; cbn [fst snd]; f_equal;
      unfold install_script, copied; cbv zeta; fold path; fold yml;
      flatten_app; reflexivity.
Qed.

End InstallFacts.

(** X19. [copyBinary] creates the destination, sets its mode to 0744, opens
    the source and copies, in this order, and stops at the first of these
    that fails, returning its error: after a failed create no other call is
    made; after a failed chmod, or a failed open, the only further call
    closes the destination; when the three succeed the copy is made, the
    source is closed, then the destination, and the result is the result of
    the copy. *)
Theorem copyBinary_stops_and_closes (ServiceConfig : Type)
  (w : Installer.World ServiceConfig) (src dest : string) (h : Installer.History) :
  let created := (h ++ [Installer.Create dest])%list in
  let moded := (created ++ [Installer.Chmod dest 484])%list in
  let opened := (moded ++ [Installer.Open src])%list in
  (forall err,
      Installer.Create_outcome w h dest = Some err ->
      Installer.copyBinary w src dest h = (Some err, created)) /\
  (Installer.Create_outcome w h dest = None ->
   (forall err,
       Installer.Chmod_outcome w created dest 484 = Some err ->
       Installer.copyBinary w src dest h =
       (Some err, (moded ++ [Installer.CloseFile dest])%list)) /\
   (Installer.Chmod_outcome w created dest 484 = None ->
    (forall err,
        Installer.Open_outcome w moded src = Some err ->
        Installer.copyBinary w src dest h =
        (Some err, (opened ++ [Installer.CloseFile dest])%list)) /\
    (Installer.Open_outcome w moded src = None ->
     Installer.copyBinary w src dest h =
     (Installer.Copy_outcome w opened dest src,
      (h ++ [Installer.Create dest; Installer.Chmod dest 484; Installer.Open src;
             Installer.Copy dest src; Installer.CloseFile src;
             Installer.CloseFile dest])%list)))).
Proof.
  intros created moded opened.
  split; [intros err H; now apply copyBinary_create_fails|]. intros H1.
  split; [intros err H; now apply copyBinary_chmod_fails|]. intros H2.
  split; [intros err H; now apply copyBinary_open_fails|]. intros H3.
  now apply copyBinary_copies.
Qed.

(** X20. [Install] stops at the first call that fails and returns its
    error: a failure of the create, of the chmod, of the open or of the copy
    of the binary, or of the create of the definition file, is returned
    with no further call but the closes of the files that were opened; so
    is a failure to encode the definition.  None of these runs the wrapper.
    When all of them succeed the wrapper is run with [install], that is the
    last call but the close of the definition file, and [Install] returns
    [nil] when the command succeeds and an error that quotes the label, the
    error and the output otherwise. *)
Theorem Install_runs_the_wrapper_last (ServiceConfig : Type)
  (Label : ServiceConfig -> string) (env : Env) (w : Installer.World ServiceConfig)
  (s : ServiceWrapper) (cfg : ServiceConfig) (h : Installer.History) :
  let path := swrapperPath env s (Label cfg) in
  let yml := (path ++ ".yml")%string in
  let created := (h ++ [Installer.Create path])%list in
  let moded := (created ++ [Installer.Chmod path 484])%list in
  let opened := (moded ++ [Installer.Open (binaryPath s)])%list in
  let copied := (h ++ Installer.copy_script (binaryPath s) path)%list in
  let defined := (copied ++ [Installer.Create yml])%list in
  let encoded := (copied ++ [Installer.Create yml; Installer.Encode yml])%list in
  let run := Installer.Install Label env w s cfg h in
  (forall err,
      Installer.Create_outcome w h path = Some err -> run = (Some err, created)) /\
  (Installer.Create_outcome w h path = None ->
   (forall err,
       Installer.Chmod_outcome w created path 484 = Some err ->
       run = (Some err, (moded ++ [Installer.CloseFile path])%list)) /\
   (Installer.Chmod_outcome w created path 484 = None ->
    (forall err,
        Installer.Open_outcome w moded (binaryPath s) = Some err ->
        run = (Some err, (opened ++ [Installer.CloseFile path])%list)) /\
    (Installer.Open_outcome w moded (binaryPath s) = None ->
     (forall err,
         Installer.Copy_outcome w opened path (binaryPath s) = Some err ->
         run = (Some err, copied)) /\
     (Installer.Copy_outcome w opened path (binaryPath s) = None ->
      (forall err,
          Installer.Create_outcome w copied yml = Some err ->
          run = (Some err, defined)) /\
      (Installer.Create_outcome w copied yml = None ->
       (forall err,
           Installer.Encode_outcome w defined yml cfg = Some err ->
           run = (Some err,
                  (copied ++ [Installer.Create yml; Installer.Encode yml;
                              Installer.CloseFile yml])%list)) /\
       (Installer.Encode_outcome w defined yml cfg = None ->
        run =
        (match snd (Installer.Command_outcome w encoded path ["install"]) with
         | Some err =>
             Some (fmt_Errorf
                     ("failed to install " ++ quoted (Label cfg) ++ ": "
                      ++ Error_text err ++ ": "
                      ++ string_of_list_byte
                           (fst (Installer.Command_outcome w encoded path ["install"]))))
         | None => None
         end,
         (copied ++ [Installer.Create yml; Installer.Encode yml;
                     Installer.Command path ["install"];
                     Installer.CloseFile yml])%list))))))).
Proof.
  intros path yml created moded opened copied defined encoded run.
  split.
  { intros err H. apply Install_copy_fails. now apply copyBinary_create_fails. }
  intros H1. split.
  { intros err H. apply Install_copy_fails. now apply copyBinary_chmod_fails. }
  intros H2. split.
  { intros err H. apply Install_copy_fails. now apply copyBinary_open_fails. }
  intros H3.
  pose proof (copyBinary_copies _ w (binaryPath s) path h H1 H2 H3) as Hc.
  fold created moded opened copied in Hc.
  split.
  { intros err H. apply Install_copy_fails. now rewrite <- H. }
  intros H4. rewrite H4 in Hc.
  destruct (Install_after_copy _ Label env w s cfg h Hc) as [A B].
  split; [exact A|]. intros H5. destruct (B H5) as [B1 B2].
  split; [exact B1|]. intros H6. unfold run. rewrite (B2 H6).
  f_equal. unfold Installer.install_script, copied. cbv zeta. fold path. fold yml.
  flatten_app. reflexivity.
Qed.

(** ** The further statements at concrete inputs *)

Lemma waitForSSH_dial_bound_witness :
  exists k,
    k <= 20 /\
    snd (waitForSSH calm_env "10.0.0.5" "9992" hello (20 * Second)%Z []) =
    repeat (EvDial "tcp" "10.0.0.5:9992" (client_config (SignerOf hello))) k.
Proof.
  pose proof (waitForSSH_dial_bound calm_env "10.0.0.5" "9992" hello (20 * Second)%Z [])
    as H.
  cbn in H. destruct H as (k & Hk & Ht & _). exists k. split; [exact Hk | exact Ht].
Defined.


Lemma DeployBosh_elsewhere_witness :
  String.eqb (GOOS darwin_env) "linux" = false /\
  exists evs,
    snd (DeployBosh darwin_env demo_config []) = ([] ++ evs)%list /\
    forallb
      (leaves_config_alone (filepath_Join darwin_env (LogDir demo_config) "deploy-bosh.log")
         (filepath_Join darwin_env (StateBosh demo_config) "state.json")) evs = true.
Proof.
  split; [reflexivity|].
  apply (DeployBosh_elsewhere_leaves_config_alone darwin_env demo_config []).
  reflexivity.
Defined.

Lemma director_upload_witness :
  let directorPath := filepath_Join calm_env (StateBosh demo_config) "director.yml" in
  Error fresh_session = None /\
  exists rest,
    snd (deploy_with_session calm_env demo_config "10.0.0.5" fresh_session []) =
    ([] ++ EvReadFile directorPath
     :: upload_events calm_env fresh_session
          (director_payload calm_env "10.0.0.5" (bytes_of_string directorPath))
          "director.yml" ([] ++ [EvReadFile directorPath])
     ++ rest)%list.
Proof.
  intros directorPath. split; [reflexivity|].
  apply (director_upload_is_the_patched_file calm_env demo_config "10.0.0.5" fresh_session
           (bytes_of_string directorPath) []); reflexivity.
Defined.

Lemma failed_session_witness :
  Error failed_session = Some broken_pipe /\
  deploy_over_session calm_env failed_session hello "state/bosh/state.json"
    "state/bosh/creds.yml" [] =
  (failed_session, [EvStat "state/bosh/creds.yml"; EvSleep (7 * Second)%Z]).
Proof.
  split; [reflexivity|].
  exact (failed_session_only_stats_and_sleeps calm_env failed_session hello
           "state/bosh/state.json" "state/bosh/creds.yml" [] broken_pipe eq_refl).
Defined.

Lemma no_channel_witness :
  (forall t cl, NewSession_result no_channel_env t cl <> None) /\
  fst (DeployBosh no_channel_env demo_config []) = Some channel_refused /\
  exists evs,
    snd (DeployBosh no_channel_env demo_config []) = evs /\
    forallb (sends_nothing "log/deploy-bosh.log") evs = true.
Proof.
  assert (H : forall t cl, NewSession_result no_channel_env t cl <> None)
    by (intros t cl; discriminate).
  split; [exact H|]. split; [reflexivity|].
  exact (proj2 (no_channel_no_deployment no_channel_env demo_config [] H)).
Defined.

Lemma DeployBosh_closes_witness :
  IP_result calm_env [] demo_config = inl "10.0.0.5" /\
  exists t4 evs,
    snd (DeployBosh calm_env demo_config []) =
    (t4 ++ evs ++ [EvClientClose (ClientConn 0); EvFileClose "log/deploy-bosh.log"])%list.
Proof.
  split; [reflexivity|].
  pose proof (DeployBosh_closes_client_and_log calm_env demo_config [] "10.0.0.5"
                (bytes_of_string "state/id_rsa") eq_refl eq_refl eq_refl) as H.
  cbv zeta in H. destruct H as [_ H].
  destruct (H {| client := ClientConn 0; stdout := FileWriter "log/deploy-bosh.log";
                 stderr := FileWriter "log/deploy-bosh.log"; Error := None |} eq_refl)
    as (evs & _ & H2).
  eexists _, evs. exact H2.
Defined.

Lemma swrapperPath_witness :
  contains_char "." "vpnkit" = false /\
  swrapperPath calm_env demo_wrapper vpnkit_label = "cache/vpnkit" /\
  swrapperPath calm_env demo_wrapper "vpnkit" = "cache/vpnkit".
Proof.
  split; [reflexivity|].
  destruct (swrapperPath_uses_last_component calm_env demo_wrapper
              "org.cloudfoundry.cfdev" "vpnkit" eq_refl) as (H1 & H2 & _).
  split; [exact H1 | exact H2].
Defined.

Lemma Uninstall_removes_witness :
  os_IsNotExist (Stat_result calm_env [] "cache/vpnkit") = false /\
  Uninstall calm_env demo_wrapper vpnkit_label [] =
  (None, [EvStat "cache/vpnkit"; EvExec "cache/vpnkit" ["uninstall"];
          EvRemoveAll "cache/vpnkit"; EvRemoveAll "cache/vpnkit.yml"]).
Proof.
  split; [reflexivity|].
  exact (proj2 (proj2 (Uninstall_removes_after_the_command calm_env demo_wrapper
                         vpnkit_label [] eq_refl) [] eq_refl) eq_refl).
Defined.

Lemma IsRunning_witness :
  fst (fst (IsRunning running_env demo_wrapper vpnkit_label [])) = true /\
  snd (fst (IsRunning running_env demo_wrapper vpnkit_label [])) = None.
Proof.
  split; [reflexivity|].
  exact (proj1 (IsRunning_true_is_a_clean_answer running_env demo_wrapper vpnkit_label []
                  eq_refl)).
Defined.

Lemma Uninstall_settles_witness :
  os_IsNotExist (Stat_result removing_env [] "cache/vpnkit") = false /\
  fst (Uninstall removing_env demo_wrapper vpnkit_label []) = None /\
  let t' := snd (Uninstall removing_env demo_wrapper vpnkit_label []) in
  Uninstall removing_env demo_wrapper vpnkit_label t' = (None, (t' ++ [EvStat "cache/vpnkit"])%list) /\
  Stop removing_env demo_wrapper vpnkit_label t' = (None, (t' ++ [EvStat "cache/vpnkit"])%list) /\
  IsRunning removing_env demo_wrapper vpnkit_label t' =
  ((false, None), (t' ++ [EvStat "cache/vpnkit"])%list).
Proof.
  split; [reflexivity|]. split; [reflexivity|].
  apply (Uninstall_settles_the_label removing_env demo_wrapper vpnkit_label []).
  - intros h. cbn. rewrite existsb_app. cbn. now rewrite orb_true_r.
  - reflexivity.
  - reflexivity.
Defined.

Lemma copyBinary_witness :
  Installer.copyBinary Installer.readonly_world "cache/servicew" "cache/vpnkit" [] =
  (Some (ErrorString "chmod: operation not permitted"),
   [Installer.Create "cache/vpnkit"; Installer.Chmod "cache/vpnkit" 484;
    Installer.CloseFile "cache/vpnkit"]).
Proof.
  destruct (copyBinary_stops_and_closes string Installer.readonly_world
              "cache/servicew" "cache/vpnkit" []) as [_ H].
  destruct (H eq_refl) as [H2 _]. exact (H2 _ eq_refl).
Defined.

Lemma Install_witness :
  Installer.Install (fun label : string => label) calm_env Installer.readonly_world
    demo_wrapper vpnkit_label [] =
  (Some (ErrorString "chmod: operation not permitted"),
   [Installer.Create "cache/vpnkit"; Installer.Chmod "cache/vpnkit" 484;
    Installer.CloseFile "cache/vpnkit"]) /\
  Installer.Install (fun label : string => label) calm_env Installer.calm_world
    demo_wrapper vpnkit_label [] =
  (None,
   Installer.install_script (fun label : string => label) calm_env demo_wrapper
     vpnkit_label).
Proof.
  split.
  - destruct (Install_runs_the_wrapper_last string (fun label : string => label) calm_env
                Installer.readonly_world demo_wrapper vpnkit_label [])
      as [_ H].
    destruct (H eq_refl) as [H2 _]. exact (H2 _ eq_refl).
  - destruct (Install_runs_the_wrapper_last string (fun label : string => label) calm_env
                Installer.calm_world demo_wrapper vpnkit_label [])
      as [_ H].
    destruct (H eq_refl) as [_ H2]. destruct (H2 eq_refl) as [_ H3].
    destruct (H3 eq_refl) as [_ H4]. destruct (H4 eq_refl) as [_ H5].
    destruct (H5 eq_refl) as [_ H6]. exact (H6 eq_refl).
Defined.

(** ** The credentials branch, and what a deployment that succeeds has done *)

Lemma ret_bind {A B} (a : A) (k : A -> M B) t : bind (ret a) k t = k a t.
Proof. reflexivity. Qed.

Lemma ret_bind_fun {A B} (a : A) (k : A -> M B) : bind (ret a) k = k a.
Proof. reflexivity. Qed.

Lemma call_bind {A B} (e : Event) (f : Trace -> A) (k : A -> M B) t :
  bind (call e f) k t = k (f t) (t ++ [e])%list.
Proof. reflexivity. Qed.

Lemma emits_weaken {A} (P : Event -> bool) (Q Q' : A -> Prop) (m : M A) :
  emits P Q m -> (forall a, Q a -> Q' a) -> emits P Q' m.
Proof.
  intros H HQ t. destruct (H t) as (evs & H1 & H2 & H3). eauto.
Qed.

Section Progress.

Variable G : list Event -> Prop.

Hypothesis G_prefix : forall p evs,
  forallb quiet p = true -> G evs -> G (p ++ evs)%list.
Hypothesis G_suffix : forall q evs,
  forallb quiet q = true -> G evs -> G (evs ++ q)%list.

Lemma settled_fail {A} (failed : A -> Prop) (a : A) :
  failed a -> returns (settled G failed) (ret a).
Proof.
  intros H t. exists []. cbn. rewrite app_nil_r. split; [reflexivity|]. now left.
Qed.

Lemma settled_after {A B} (Q : A -> Prop) (failed : B -> Prop) (m : M A) (k : A -> M B) :
  emits quiet Q m ->
  (forall a, Q a -> returns (settled G failed) (k a)) ->
  returns (settled G failed) (bind m k).
Proof.
  intros Hm Hk t. unfold bind.
  destruct (Hm t) as (e1 & H1 & F1 & Q1).
  destruct (m t) as [a t1]. cbn in H1, Q1. subst t1.
  destruct (Hk a Q1 (t ++ e1)%list) as (e2 & H2 & S2).
  exists (e1 ++ e2)%list. rewrite H2, app_assoc. split; [reflexivity|].
  destruct S2 as [[Hf Hq] | Hg].
  - left. now rewrite forallb_app, F1, Hq.
  - right. now apply G_prefix.
Qed.

Lemma settled_then {A B} (f1 : A -> Prop) (f2 : B -> Prop) (m : M A) (k : A -> M B) :
  returns (settled G f1) m ->
  (forall a, emits quiet (fun b => f1 a -> f2 b) (k a)) ->
  returns (settled G f2) (bind m k).
Proof.
  intros Hm Hk t. unfold bind.
  destruct (Hm t) as (e1 & H1 & S1).
  destruct (m t) as [a t1]. cbn in H1, S1. subst t1.
  destruct (Hk a (t ++ e1)%list) as (e2 & H2 & F2 & Q2).
  exists (e1 ++ e2)%list. rewrite H2, app_assoc. split; [reflexivity|].
  destruct S1 as [[Hf Hq] | Hg].
  - left. split; [now apply Q2 | now rewrite forallb_app, Hq, F2].
  - right. now apply G_suffix.
Qed.

End Progress.

Lemma deploy_ran_prefix command p evs :
  forallb quiet p = true -> deploy_ran command evs -> deploy_ran command (p ++ evs)%list.
Proof.
  intros Hp (before & out & err & rest & -> & Hb & Hr).
  exists (p ++ before)%list, out, err, rest.
  now rewrite <- app_assoc, forallb_app, Hp, Hb.
Qed.

Lemma deploy_ran_suffix command q evs :
  forallb quiet q = true -> deploy_ran command evs -> deploy_ran command (evs ++ q)%list.
Proof.
  intros Hq (before & out & err & rest & -> & Hb & Hr).
  exists before, out, err, (rest ++ q)%list.
  rewrite <- app_assoc, forallb_app, Hr, Hq. auto.
Qed.

Lemma creds_uploaded_prefix env credsPath p evs :
  forallb quiet p = true ->
  creds_uploaded_then_deployed env credsPath evs ->
  creds_uploaded_then_deployed env credsPath (p ++ evs)%list.
Proof.
  intros Hp (before & out & err & rest & -> & Hb & Hr & pre & s & data & t0 & post & Hbe).
  exists (p ++ before)%list, out, err, rest.
  rewrite <- app_assoc. split; [reflexivity|].
  rewrite forallb_app, Hp, Hb. repeat split; auto.
  exists (p ++ pre)%list, s, data, t0, post. now rewrite Hbe, <- app_assoc.
Qed.

Lemma creds_uploaded_suffix env credsPath q evs :
  forallb quiet q = true ->
  creds_uploaded_then_deployed env credsPath evs ->
  creds_uploaded_then_deployed env credsPath (evs ++ q)%list.
Proof.
  intros Hq (before & out & err & rest & -> & Hb & Hr & Hu).
  exists before, out, err, (rest ++ q)%list.
  rewrite <- app_assoc, forallb_app, Hr, Hq. auto.
Qed.

(** Lines 90-92: the deploy command and the retrieval. *)
Lemma Run_then_RetrieveFile_settled env s command statePath :
  returns (settled (deploy_ran command) (fun s' : SSH => Error s' <> None))
    (s' <- Run env s command ;; RetrieveFile env s' statePath "state.json").
Proof.
  intros t. unfold bind.
  destruct (Error s) as [e|] eqn:He.
  { rewrite (Run_sticky env s command t e He).
    rewrite (RetrieveFile_sticky env s _ _ t e He).
    exists []. cbn [fst snd]. rewrite app_nil_r. split; [reflexivity|].
    left. rewrite He. split; [discriminate | reflexivity]. }
  unfold Run. unfold_calls. rewrite He. run_monad.
  destruct (NewSession_result env t (client s)) as [err|].
  { rewrite (RetrieveFile_sticky env (set_Error s (Some err)) _ _ _ err eq_refl).
    exists [EvNewSession (client s)]. cbn [fst snd]. split; [reflexivity|].
    left. split; [discriminate | reflexivity]. }
  match goal with
  | |- context [RetrieveFile env ?s' statePath "state.json" ?t'] =>
      destruct (RetrieveFile_emits env quiet quiet_plain s' statePath "state.json"
                  (fun _ _ => eq_refl) t') as (e6 & H6 & F6 & _);
      destruct (RetrieveFile env s' statePath "state.json" t') as [s6 t6]
  end.
  cbn [fst snd] in *. subst t6.
  exists ([EvNewSession (client s)]
          ++ EvSessionRun command (stdout s) (stderr s) :: EvSessionClose :: e6)%list.
  split; [flatten_app; reflexivity|].
  right. exists [EvNewSession (client s)], (stdout s), (stderr s), (EvSessionClose :: e6).
  repeat split; auto.
Qed.

Lemma credhubIsDeployed_quiet_absent env credsPath :
  (forall t, os_IsNotExist (Stat_result env t credsPath) = true) ->
  emits quiet (fun deployed => deployed = true) (credhubIsDeployed env credsPath).
Proof.
  intros Ha. unfold credhubIsDeployed, os_Stat.
  apply emits_bind with (Q := fun err => os_IsNotExist err = true).
  - apply emits_call; [reflexivity | exact Ha].
  - intros err H. now apply emits_ret.
Qed.

Lemma deploy_over_session_settled_absent env s contents stateJSONPath credsPath :
  (forall t, os_IsNotExist (Stat_result env t credsPath) = true) ->
  returns (settled (deploy_ran create_env_command) (fun s' : SSH => Error s' <> None))
    (deploy_over_session env s contents stateJSONPath credsPath).
Proof.
  intros Ha. unfold deploy_over_session. cbv zeta.
  pose proof (deploy_ran_prefix create_env_command) as Hpre.
  apply settled_after with (Q := fun _ => True); [exact Hpre | |].
  { apply SendData_emits with (P := quiet); [apply quiet_plain | reflexivity ..]. }
  intros s1 _. apply settled_after with (Q := fun _ => True); [exact Hpre | |].
  { apply SendFile_emits with (P := quiet); [apply quiet_plain | reflexivity ..]. }
  intros s2 _.
  apply settled_after with (Q := fun deployed => deployed = true); [exact Hpre | |].
  { now apply credhubIsDeployed_quiet_absent. }
  intros deployed ->. cbn [negb]. rewrite ret_bind_fun. cbn [fst snd].
  apply settled_after with (Q := fun _ => True); [exact Hpre | |].
  { unfold time_Sleep. apply emits_call; [reflexivity | intros; exact I]. }
  intros _ _. apply Run_then_RetrieveFile_settled.
Qed.

(** Lines 79-92 once the credentials file is read and its channel opens. *)
Lemma deploy_tail_after_upload env s2 stateJSONPath credsPath (failed : SSH -> Prop) data t :
  SendFile env s2 credsPath "creds.yml" t =
  (s2, (t ++ EvReadFile credsPath
        :: upload_events env s2 data "creds.yml" (t ++ [EvReadFile credsPath]))%list) ->
  returns (settled (deploy_ran (create_env_command ++ " --vars-store creds.yml")) failed)
    (s' <- Run env s2 (create_env_command ++ " --vars-store creds.yml") ;;
     RetrieveFile env s' stateJSONPath "state.json") ->
  let m :=
    (sc <- (s <- SendFile env s2 credsPath "creds.yml" ;;
            ret (s, create_env_command ++ " --vars-store creds.yml")) ;;
     time_Sleep (7 * Second)%Z ;;;
     s <- Run env (fst sc) (snd sc) ;;
     RetrieveFile env s stateJSONPath "state.json") in
  exists evs,
    snd (m t) = (t ++ evs)%list /\
    settled (creds_uploaded_then_deployed env credsPath) failed (fst (m t)) evs.
Proof.
  intros Hs Hrun m. unfold m. rewrite bind_bind.
  rewrite (bind_known _ _ _ _ _ Hs). rewrite ret_bind. cbn [fst snd].
  unfold time_Sleep. rewrite call_bind.
  set (up := upload_events env s2 data "creds.yml" (t ++ [EvReadFile credsPath])%list).
  match goal with
  | |- context [bind ?m ?k ?t4] =>
      destruct (Hrun t4) as (evs' & H1 & S1);
      destruct (bind m k t4) as [s5 t5]
  end.
  cbn [fst snd] in *. subst t5.
  exists (EvReadFile credsPath :: up ++ [EvSleep (7 * Second)%Z] ++ evs')%list.
  split; [flatten_app; reflexivity|].
  assert (Hup : forallb quiet (EvReadFile credsPath :: up ++ [EvSleep (7 * Second)%Z])
                = true).
  { cbn [forallb]. rewrite forallb_app. unfold up.
    now rewrite upload_events_quiet. }
  destruct S1 as [[Hf Hq] | (before & out & err & rest & -> & Hb & Hr)].
  + left. split; [exact Hf|].
    change (EvReadFile credsPath :: up ++ [EvSleep (7 * Second)%Z] ++ evs')%list
      with ((EvReadFile credsPath :: up) ++ [EvSleep (7 * Second)%Z] ++ evs')%list.
    rewrite app_assoc, forallb_app, Hq.
    change ((EvReadFile credsPath :: up) ++ [EvSleep (7 * Second)%Z])%list
      with (EvReadFile credsPath :: up ++ [EvSleep (7 * Second)%Z])%list.
    now rewrite Hup.
  + right.
    exists ((EvReadFile credsPath :: up ++ [EvSleep (7 * Second)%Z]) ++ before)%list,
      out, err, rest.
    split; [flatten_app; reflexivity|].
    rewrite forallb_app, Hup, Hb. repeat split; auto.
    exists [], s2, data, (t ++ [EvReadFile credsPath])%list,
      ([EvSleep (7 * Second)%Z] ++ before)%list.
    fold up. flatten_app. reflexivity.
Qed.

(** Lines 79-92 when the credentials file is there. *)
Lemma deploy_tail_settled env s2 stateJSONPath credsPath :
  returns (settled (creds_uploaded_then_deployed env credsPath)
             (fun s' : SSH => Error s' <> None))
    (sc <- (s <- SendFile env s2 credsPath "creds.yml" ;;
            ret (s, create_env_command ++ " --vars-store creds.yml")) ;;
     time_Sleep (7 * Second)%Z ;;;
     s <- Run env (fst sc) (snd sc) ;;
     RetrieveFile env s stateJSONPath "state.json").
Proof.
  intros t.
  destruct (SendFile_cases env s2 credsPath "creds.yml" t)
    as [(s' & evs & e & Hs & He & Hq) | (data & He & Hs)].
  - rewrite bind_bind, (bind_known _ _ _ _ _ Hs), ret_bind. cbn [fst snd].
    unfold time_Sleep. rewrite call_bind.
    unfold bind. rewrite (Run_sticky env s' _ _ e He).
    rewrite (RetrieveFile_sticky env s' _ _ _ e He). cbn [fst snd].
    exists (evs ++ [EvSleep (7 * Second)%Z])%list. rewrite <- app_assoc.
    split; [reflexivity|]. left. rewrite He, forallb_app, Hq.
    split; [discriminate | reflexivity].
  - apply (deploy_tail_after_upload env s2 stateJSONPath credsPath _ data t Hs).
    apply Run_then_RetrieveFile_settled.
Qed.

Lemma deploy_over_session_settled_present env s contents stateJSONPath credsPath :
  (forall t, Stat_result env t credsPath = None) ->
  returns (settled (creds_uploaded_then_deployed env credsPath)
             (fun s' : SSH => Error s' <> None))
    (deploy_over_session env s contents stateJSONPath credsPath).
Proof.
  intros Hp. unfold deploy_over_session. cbv zeta.
  pose proof (creds_uploaded_prefix env credsPath) as Hpre.
  apply settled_after with (Q := fun _ => True); [exact Hpre | |].
  { apply SendData_emits with (P := quiet); [apply quiet_plain | reflexivity ..]. }
  intros s1 _. apply settled_after with (Q := fun _ => True); [exact Hpre | |].
  { apply SendFile_emits with (P := quiet); [apply quiet_plain | reflexivity ..]. }
  intros s2 _.
  apply settled_after with (Q := fun deployed => deployed = false); [exact Hpre | |].
  { now apply credhubIsDeployed_present. }
  intros deployed ->. cbn [negb]. apply deploy_tail_settled.
Qed.

Lemma SendData_goes env s srcData remote :
  Error s = None -> channels_open env ->
  emits quiet (fun s' => s' = s) (SendData env s srcData remote).
Proof.
  intros He Ho t. rewrite (SendData_opened env s srcData remote t He (Ho t (client s))).
  exists (upload_events env s srcData remote t). cbn [fst snd].
  now rewrite upload_events_quiet.
Qed.

Lemma SendFile_opened env s filePath remote t :
  Error s = None -> channels_open env -> always_readable env filePath ->
  exists data,
    SendFile env s filePath remote t =
    (s, (t ++ EvReadFile filePath
         :: upload_events env s data remote (t ++ [EvReadFile filePath]))%list).
Proof.
  intros He Ho Hr. destruct (Hr t) as [data Hd]. exists data.
  unfold SendFile, ioutil_ReadFile. rewrite He. run_monad. rewrite Hd.
  rewrite (SendData_opened env s data remote _ He (Ho _ (client s))).
  now rewrite <- app_assoc.
Qed.

Lemma SendFile_goes env s filePath remote :
  Error s = None -> channels_open env -> always_readable env filePath ->
  emits quiet (fun s' => s' = s) (SendFile env s filePath remote).
Proof.
  intros He Ho Hr t.
  destruct (SendFile_opened env s filePath remote t He Ho Hr) as [data ->].
  exists (EvReadFile filePath
          :: upload_events env s data remote (t ++ [EvReadFile filePath]))%list.
  cbn [fst snd forallb]. now rewrite upload_events_quiet.
Qed.

(** Lines 90-92 on a session without error whose channel opens: the deploy
    command runs, whatever it returns. *)
Lemma Run_then_RetrieveFile_goes env s command statePath :
  Error s = None -> channels_open env ->
  returns (settled (deploy_ran command) (fun _ : SSH => False))
    (s' <- Run env s command ;; RetrieveFile env s' statePath "state.json").
Proof.
  intros He Ho t. unfold bind.
  unfold Run. unfold_calls. rewrite He. run_monad.
  rewrite (Ho t (client s)).
  match goal with
  | |- context [RetrieveFile env ?s' statePath "state.json" ?t'] =>
      destruct (RetrieveFile_emits env quiet quiet_plain s' statePath "state.json"
                  (fun _ _ => eq_refl) t') as (e6 & H6 & F6 & _);
      destruct (RetrieveFile env s' statePath "state.json" t') as [s6 t6]
  end.
  cbn [fst snd] in *. subst t6.
  exists ([EvNewSession (client s)]
          ++ EvSessionRun command (stdout s) (stderr s) :: EvSessionClose :: e6)%list.
  split; [flatten_app; reflexivity|].
  right. exists [EvNewSession (client s)], (stdout s), (stderr s), (EvSessionClose :: e6).
  repeat split; auto.
Qed.

Lemma deploy_over_session_goes_absent env s contents stateJSONPath credsPath :
  Error s = None -> channels_open env -> always_readable env stateJSONPath ->
  (forall t, os_IsNotExist (Stat_result env t credsPath) = true) ->
  returns (settled (deploy_ran create_env_command) (fun _ : SSH => False))
    (deploy_over_session env s contents stateJSONPath credsPath).
Proof.
  intros He Ho Hr Ha. unfold deploy_over_session. cbv zeta.
  pose proof (deploy_ran_prefix create_env_command) as Hpre.
  apply settled_after with (Q := fun s' => s' = s); [exact Hpre | |].
  { now apply SendData_goes. }
  intros s1 ->. apply settled_after with (Q := fun s' => s' = s); [exact Hpre | |].
  { now apply SendFile_goes. }
  intros s2 ->.
  apply settled_after with (Q := fun deployed => deployed = true); [exact Hpre | |].
  { now apply credhubIsDeployed_quiet_absent. }
  intros deployed ->. cbn [negb]. rewrite ret_bind_fun. cbn [fst snd].
  apply settled_after with (Q := fun _ => True); [exact Hpre | |].
  { unfold time_Sleep. apply emits_call; [reflexivity | intros; exact I]. }
  intros _ _. now apply Run_then_RetrieveFile_goes.
Qed.

Lemma deploy_over_session_goes_present env s contents stateJSONPath credsPath :
  Error s = None -> channels_open env -> always_readable env stateJSONPath ->
  always_readable env credsPath ->
  (forall t, Stat_result env t credsPath = None) ->
  returns (settled (creds_uploaded_then_deployed env credsPath) (fun _ : SSH => False))
    (deploy_over_session env s contents stateJSONPath credsPath).
Proof.
  intros He Ho Hr Hc Hp. unfold deploy_over_session. cbv zeta.
  pose proof (creds_uploaded_prefix env credsPath) as Hpre.
  apply settled_after with (Q := fun s' => s' = s); [exact Hpre | |].
  { now apply SendData_goes. }
  intros s1 ->. apply settled_after with (Q := fun s' => s' = s); [exact Hpre | |].
  { now apply SendFile_goes. }
  intros s2 ->.
  apply settled_after with (Q := fun deployed => deployed = false); [exact Hpre | |].
  { now apply credhubIsDeployed_present. }
  intros deployed ->. cbn [negb]. intros t.
  destruct (SendFile_opened env s credsPath "creds.yml" t He Ho Hc) as [data Hs].
  apply (deploy_tail_after_upload env s stateJSONPath credsPath _ data t Hs).
  now apply Run_then_RetrieveFile_goes.
Qed.

Lemma NewSSH_quiet_cases env ip port key timeout out err :
  emits quiet
    (fun r : option SSH * option error =>
       (exists s, r = (Some s, None)) \/ (exists e, r = (None, Some e)))
    (NewSSH env ip port key timeout out err).
Proof.
  intros t.
  destruct (NewSSH_emits env quiet quiet_plain ip port key timeout out err t)
    as (evs & H1 & H2 & _).
  exists evs. split; [exact H1|]. split; [exact H2|].
  destruct (NewSSH_cases env ip port key timeout out err t)
    as [_ [(c & _ & Hc) | (e & _ & Hc)]]; rewrite Hc; eauto.
Qed.

Section DeployProgress.

Variable env : Env.
Variable c : Config.
Variable G : list Event -> Prop.

Hypothesis G_prefix : forall p evs,
  forallb quiet p = true -> G evs -> G (p ++ evs)%list.
Hypothesis G_suffix : forall q evs,
  forallb quiet q = true -> G evs -> G (evs ++ q)%list.

Hypothesis session_settled : forall s contents,
  returns (settled G (fun s' : SSH => Error s' <> None))
    (deploy_over_session env s contents
       (filepath_Join env (StateBosh c) "state.json")
       (filepath_Join env (StateBosh c) "creds.yml")).

Local Notation "'failure'" := (fun result : option error => result <> None).

Lemma deploy_with_session_settled ip s :
  returns (settled G failure) (deploy_with_session env c ip s).
Proof.
  unfold deploy_with_session. cbv zeta.
  apply settled_after with (Q := fun _ => True); [exact G_prefix | |].
  { unfold ioutil_ReadFile. apply emits_call; [reflexivity | intros; exact I]. }
  intros [contents|err] _; [|apply settled_fail; discriminate].
  apply settled_then with (f1 := fun s' : SSH => Error s' <> None);
    [exact G_suffix | apply session_settled |].
  intros s'. destruct (Error s') as [e|].
  - apply emits_ret. discriminate.
  - apply emits_weaken with (Q := fun _ => True); [|congruence].
    destruct (String.eqb (GOOS env) "linux"); [|apply emits_ret; exact I].
    apply kvm_followup_emits; [apply quiet_plain | reflexivity].
Qed.

Lemma DeployBosh_settled : returns (settled G failure) (DeployBosh env c).
Proof.
  unfold DeployBosh, Close. cbv zeta.
  apply settled_after with (Q := fun _ => True); [exact G_prefix | |].
  { unfold driver_IP. apply emits_call; [reflexivity | intros; exact I]. }
  intros [ip|err] _; [|apply settled_fail; discriminate].
  apply settled_after with (Q := fun _ => True); [exact G_prefix | |].
  { unfold os_Create. apply emits_call; [reflexivity | intros; exact I]. }
  intros [err|] _; [apply settled_fail; discriminate|].
  apply settled_then with (f1 := failure); [exact G_suffix | |].
  2:{ intros result. unfold file_Close. apply emits_bind_any.
      - apply emits_call; [reflexivity | intros; exact I].
      - intros _. now apply emits_ret. }
  apply settled_after with (Q := fun _ => True); [exact G_prefix | |].
  { unfold ioutil_ReadFile. apply emits_call; [reflexivity | intros; exact I]. }
  intros [key|err] _; [|apply settled_fail; discriminate].
  eapply settled_after; [exact G_prefix | apply NewSSH_quiet_cases |].
  intros r [(s & ->) | (e & ->)]; [|apply settled_fail; discriminate].
  apply settled_then with (f1 := failure); [exact G_suffix | |].
  - apply deploy_with_session_settled.
  - intros result. unfold client_Close. apply emits_bind_any.
    + apply emits_call; [reflexivity | intros; exact I].
    + intros _. now apply emits_ret.
Qed.

End DeployProgress.

Lemma NewSSH_connects env ip port key timeout out err :
  (exists signer, ssh_ParsePrivateKey env key = inl signer) ->
  (forall t d, 0 < ticks_before_timeout env t d) ->
  (forall t addr config, exists cl, Dial_result env t addr config = inl cl) ->
  emits quiet
    (fun r : option SSH * option error => exists s, r = (Some s, None) /\ Error s = None)
    (NewSSH env ip port key timeout out err).
Proof.
  intros [signer Hk] Hn Hd t. unfold NewSSH, waitForSSH. rewrite Hk. unfold bind.
  specialize (Hn t timeout).
  destruct (ticks_before_timeout env t timeout) as [|n]; [inversion Hn|].
  cbn [dial_loop]. unfold ssh_Dial. run_monad.
  destruct (Hd t (ip ++ ":" ++ port)%string (client_config signer)) as [cl Hcl].
  rewrite Hcl. cbn [fst snd].
  exists [EvDial "tcp" (ip ++ ":" ++ port)%string (client_config signer)].
  split; [reflexivity|]. split; [reflexivity|]. eexists. split; reflexivity.
Qed.

Section DeployReached.

Variable env : Env.
Variable c : Config.
Variable G : list Event -> Prop.

Hypothesis G_prefix : forall p evs,
  forallb quiet p = true -> G evs -> G (p ++ evs)%list.
Hypothesis G_suffix : forall q evs,
  forallb quiet q = true -> G evs -> G (evs ++ q)%list.

Hypothesis reached : reaches_deploy env c.

Hypothesis session_goes : forall s contents,
  Error s = None ->
  returns (settled G (fun _ : SSH => False))
    (deploy_over_session env s contents
       (filepath_Join env (StateBosh c) "state.json")
       (filepath_Join env (StateBosh c) "creds.yml")).

Local Notation "'never'" := (fun _ : option error => False).

Lemma deploy_with_session_goes ip s :
  Error s = None -> returns (settled G never) (deploy_with_session env c ip s).
Proof.
  intros He. unfold deploy_with_session. cbv zeta.
  apply settled_after with (Q := fun r => exists contents, r = inl contents);
    [exact G_prefix | |].
  { unfold ioutil_ReadFile. apply emits_call; [reflexivity|].
    exact (director_readable env c reached). }
  intros r [contents ->].
  apply settled_then with (f1 := fun _ : SSH => False);
    [exact G_suffix | now apply session_goes |].
  intros s'. apply emits_weaken with (Q := fun _ => True); [|auto].
  destruct (Error s') as [e|]; [apply emits_ret; exact I|].
  destruct (String.eqb (GOOS env) "linux"); [|apply emits_ret; exact I].
  apply kvm_followup_emits; [apply quiet_plain | reflexivity].
Qed.

Lemma DeployBosh_goes : returns (settled G never) (DeployBosh env c).
Proof.
  unfold DeployBosh, Close. cbv zeta.
  apply settled_after with (Q := fun r => exists ip, r = inl ip); [exact G_prefix | |].
  { unfold driver_IP. apply emits_call; [reflexivity|].
    exact (address_known env c reached). }
  intros r [ip ->].
  apply settled_after with (Q := fun r => r = None); [exact G_prefix | |].
  { unfold os_Create. apply emits_call; [reflexivity|].
    exact (log_created env c reached). }
  intros r ->.
  apply settled_then with (f1 := never); [exact G_suffix | |].
  2:{ intros result. unfold file_Close. apply emits_bind_any.
      - apply emits_call; [reflexivity | intros; exact I].
      - intros _. now apply emits_ret. }
  apply settled_after
    with (Q := fun r => exists key, r = inl key /\
                 exists signer, ssh_ParsePrivateKey env key = inl signer);
    [exact G_prefix | |].
  { unfold ioutil_ReadFile. apply emits_call; [reflexivity|]. intros t.
    destruct (key_readable env c reached t) as [key Hk]. exists key.
    split; [exact Hk | exact (key_parses env c reached t key Hk)]. }
  intros r (key & -> & Hparse).
  eapply settled_after; [exact G_prefix | |].
  { apply NewSSH_connects;
      [exact Hparse | exact (time_for_a_dial env c reached)
       | exact (dial_accepted env c reached)]. }
  intros r (s & -> & He).
  apply settled_then with (f1 := never); [exact G_suffix | |].
  - now apply deploy_with_session_goes.
  - intros result. unfold client_Close. apply emits_bind_any.
    + apply emits_call; [reflexivity | intros; exact I].
    + intros _. now apply emits_ret.
Qed.

End DeployReached.

Lemma run_events_unique {A} (m : M A) (t evs evs' : list Event) :
  snd (m t) = (t ++ evs)%list -> snd (m t) = (t ++ evs')%list -> evs = evs'.
Proof. intros H H'. rewrite H in H'. exact (app_inv_head t _ _ H'). Qed.

Lemma reached_means_done {A} (G : list Event -> Prop) (a : A) evs :
  settled G (fun _ : A => False) a evs -> G evs.
Proof. intros [[[] _] | H]; exact H. Qed.

(** C4. In [DeployBosh], when [os.Stat] reports that [creds.yml] of the state
    directory does not exist, none of the events of the run is the header
    of an upload of [creds.yml], and an event that runs the deploy command
    runs it with the command line that has no vars-store flag; either
    [DeployBosh] returns an error and has not run the deploy command, or it
    has run the deploy command once, with that command line; and it has run
    it whenever the calls that lead to the session operations succeed.
    When [os.Stat] finds the file, the deploy command runs at most once, its
    command line is the one that ends in [--vars-store creds.yml], and the
    events before it hold the read of the credentials file followed by its
    whole upload; either [DeployBosh] returns an error and has not run the
    deploy command, or it has read and uploaded the credentials file in
    full and then run the deploy command once, with the flag; and it has
    done so whenever the calls that lead to the session operations succeed
    and the credentials file can be read. *)
Theorem credentials_mode_branching (env : Env) (c : Config) (t : Trace) :
  let credsPath := filepath_Join env (StateBosh c) "creds.yml" in
  string_contains create_env_command "--vars-store" = false /\
  create_env_command_with_creds = create_env_command ++ " --vars-store creds.yml" /\
  ((forall t', os_IsNotExist (Stat_result env t' credsPath) = true) ->
   exists evs,
     snd (DeployBosh env c t) = (t ++ evs)%list /\
     forallb without_creds evs = true /\
     ((fst (DeployBosh env c t) <> None /\ forallb quiet evs = true) \/
      deploy_ran create_env_command evs) /\
     (reaches_deploy env c -> deploy_ran create_env_command evs)) /\
  ((forall t', Stat_result env t' credsPath = None) ->
   exists evs,
     snd (DeployBosh env c t) = (t ++ evs)%list /\
     creds_then_deploy env credsPath evs /\
     ((fst (DeployBosh env c t) <> None /\ forallb quiet evs = true) \/
      creds_uploaded_then_deployed env credsPath evs) /\
     (reaches_deploy env c -> always_readable env credsPath ->
      creds_uploaded_then_deployed env credsPath evs)).
Proof.
  intros credsPath. split; [reflexivity|]. split; [reflexivity|]. split.
  - intros Ha.
    assert (He : emits without_creds (fun _ => True) (DeployBosh env c)).
    { apply DeployBosh_emits; [apply without_creds_plain|].
      intros ip s. apply deploy_with_session_emits;
        [apply without_creds_plain | reflexivity |].
      intros s' contents. now apply deploy_over_session_absent. }
    destruct (He t) as (evs & H1 & H2 & _). exists evs.
    split; [exact H1|]. split; [exact H2|]. split.
    + destruct (DeployBosh_settled env c (deploy_ran create_env_command)
                  (deploy_ran_prefix _) (deploy_ran_suffix _)
                  (fun s contents =>
                     deploy_over_session_settled_absent env s contents _ _ Ha) t)
        as (evs' & H1' & S).
      now rewrite (run_events_unique _ t evs evs' H1 H1').
    + intros Hr.
      destruct (DeployBosh_goes env c (deploy_ran create_env_command)
                  (deploy_ran_prefix _) (deploy_ran_suffix _) Hr
                  (fun s contents He' =>
                     deploy_over_session_goes_absent env s contents _ _ He'
                       (channels env c Hr) (state_readable env c Hr) Ha) t)
        as (evs' & H1' & S).
      rewrite (run_events_unique _ t evs evs' H1 H1').
      exact (reached_means_done _ _ _ S).
  - intros Hp.
    destruct (DeployBosh_present env c Hp t) as (evs & H1 & H2). exists evs.
    split; [exact H1|]. split; [exact H2|]. split.
    + destruct (DeployBosh_settled env c (creds_uploaded_then_deployed env credsPath)
                  (creds_uploaded_prefix _ _) (creds_uploaded_suffix _ _)
                  (fun s contents =>
                     deploy_over_session_settled_present env s contents _ _ Hp) t)
        as (evs' & H1' & S).
      now rewrite (run_events_unique _ t evs evs' H1 H1').
    + intros Hr Hc.
      destruct (DeployBosh_goes env c (creds_uploaded_then_deployed env credsPath)
                  (creds_uploaded_prefix _ _) (creds_uploaded_suffix _ _) Hr
                  (fun s contents He' =>
                     deploy_over_session_goes_present env s contents _ _ He'
                       (channels env c Hr) (state_readable env c Hr) Hc Hp) t)
        as (evs' & H1' & S).
      rewrite (run_events_unique _ t evs evs' H1 H1').
      exact (reached_means_done _ _ _ S).
Qed.

Lemma prompt_env_reaches_deploy stat : reaches_deploy (prompt_env stat) demo_config.
Proof.
  constructor.
  - intros t. eexists. reflexivity.
  - intros t. reflexivity.
  - intros t. eexists. reflexivity.
  - intros t key H. cbn in H. injection H as <-. eexists. reflexivity.
  - intros t d. cbn. lia.
  - intros t addr config. eexists. reflexivity.
  - intros t. eexists. reflexivity.
  - intros t. eexists. reflexivity.
  - intros t cl. reflexivity.
Qed.

Lemma credentials_mode_witness :
  (exists evs,
     snd (DeployBosh (prompt_env (Some not_there)) demo_config []) = ([] ++ evs)%list /\
     fst (DeployBosh (prompt_env (Some not_there)) demo_config []) = None /\
     forallb without_creds evs = true /\
     deploy_ran create_env_command evs) /\
  (exists evs,
     snd (DeployBosh (prompt_env None) demo_config []) = ([] ++ evs)%list /\
     fst (DeployBosh (prompt_env None) demo_config []) = None /\
     creds_uploaded_then_deployed (prompt_env None)
       (filepath_Join (prompt_env None) (StateBosh demo_config) "creds.yml") evs).
Proof.
  split.
  - destruct (proj1 (proj2 (proj2 (credentials_mode_branching
                                     (prompt_env (Some not_there)) demo_config [])))
                (fun _ => eq_refl)) as (evs & H1 & H2 & _ & H4).
    exists evs. split; [exact H1|]. split; [vm_compute; reflexivity|].
    split; [exact H2|]. apply H4, prompt_env_reaches_deploy.
  - destruct (proj2 (proj2 (proj2 (credentials_mode_branching
                                     (prompt_env None) demo_config [])))
                (fun _ => eq_refl)) as (evs & H1 & _ & _ & H4).
    exists evs. split; [exact H1|]. split; [vm_compute; reflexivity|].
    apply H4; [apply prompt_env_reaches_deploy | intros t; eexists; reflexivity].
Defined.
